(** * Stock analyzer: indicator engine, regression forecaster, signal classifier

    A shallow embedding of [backend/app.py] (class [StockAnalyzer], the
    helpers [safe_round], [safe_float], [safe_int] and the HTTP routes), of
    [backend/stock_utils.py] with the table of [backend/symbols.py], and of
    the data handling of [backend/lstm_predictor.py].

    Numbers.  A Python/numpy float is modelled by [float]: an exact rational
    ([Qc]) or one of the IEEE special values NaN, +inf, -inf.  Arithmetic on
    finite values is exact: binary64 rounding, overflow to infinity and the
    sign of zero are not modelled.  The special values follow IEEE 754, which
    is what decides every [None]/absent field of the program.  Where a
    property gives the value of a computed field, it gives it up to
    [float_allowance] and for inputs below [no_overflow_bound], so that it
    does not depend on the exact arithmetic; a two-decimal output [k/100]
    stands for the binary64 number nearest to it.

    Exceptions.  Code that can raise runs in the error monad [exc]; a
    [try: ... except Exception:] block is [try_except].

    Libraries.  pandas ([diff], [where], [rolling(w).mean()], [replace],
    [ewm(span, adjust=False).mean()], [dropna], [iloc[-1]]) and scikit-learn
    ([MinMaxScaler], [r2_score], input validation) are modelled from their
    documented behaviour; the least-squares solver behind
    [LinearRegression.fit] is a parameter of the forecaster. *)

From Stdlib Require Import String Ascii ZArith QArith Qcanon Qround List Lia Lqa Bool.
Import ListNotations.

Local Open Scope Z_scope.
Local Open Scope Qc_scope.

(** ** Exceptions *)

Inductive exn : Set :=
  | TypeError | ValueError | OverflowError | ZeroDivisionError
  | IndexError | LinAlgError | OtherError.

Inductive exc (A : Type) : Type :=
  | Ok (a : A)
  | Raise (e : exn).

Arguments Ok {A} a.
Arguments Raise {A} e.

Definition bind {A B : Type} (c : exc A) (k : A -> exc B) : exc B :=
  match c with
  | Ok a => k a
  | Raise e => Raise e
  end.

Notation "x <- c ;; k" := (bind c (fun x => k))
  (at level 61, c at next level, right associativity).
Notation "' p <- c ;; k" := (bind c (fun p => k))
  (at level 61, p pattern, c at next level, right associativity).

(** [try: c  except Exception: return handler] *)
Definition try_except {A : Type} (c : exc A) (handler : A) : A :=
  match c with
  | Ok a => a
  | Raise _ => handler
  end.

Fixpoint mapM {A B : Type} (f : A -> exc B) (l : list A) : exc (list B) :=
  match l with
  | [] => Ok []
  | x :: r => y <- f x ;; ys <- mapM f r ;; Ok (y :: ys)
  end.

(** ** Floats *)

Inductive float : Set :=
  | NaN
  | PInf
  | NInf
  | Fin (q : Qc).

Definition Qc_ltb (a b : Qc) : bool :=
  match a ?= b with Lt => true | _ => false end.

Definition Qc_eqb (a b : Qc) : bool :=
  match a ?= b with Eq => true | _ => false end.

Definition ofZ (n : Z) : Qc := Q2Qc (inject_Z n).

(** the float of an integer literal *)
Abbreviation fz n := (Fin (ofZ n%Z)).

Definition isnan (x : float) : bool :=
  match x with NaN => true | _ => false end.

Definition isinf (x : float) : bool :=
  match x with PInf | NInf => true | _ => false end.

Definition isfinite (x : float) : bool :=
  match x with Fin _ => true | _ => false end.

Definition fneg (x : float) : float :=
  match x with
  | NaN => NaN
  | PInf => NInf
  | NInf => PInf
  | Fin a => Fin (- a)
  end.

Definition fadd (x y : float) : float :=
  match x, y with
  | NaN, _ | _, NaN => NaN
  | PInf, NInf | NInf, PInf => NaN
  | PInf, _ | _, PInf => PInf
  | NInf, _ | _, NInf => NInf
  | Fin a, Fin b => Fin (a + b)
  end.

Definition fsub (x y : float) : float := fadd x (fneg y).

(** sign of a finite value: -1, 0 or 1 *)
Definition Qc_sgn (a : Qc) : comparison := a ?= 0.

Definition inf_of (s t : comparison) : float :=
  match s, t with
  | Eq, _ | _, Eq => NaN
  | Gt, Gt | Lt, Lt => PInf
  | _, _ => NInf
  end.

Definition fsgn (x : float) : comparison :=
  match x with
  | NaN => Eq
  | PInf => Gt
  | NInf => Lt
  | Fin a => Qc_sgn a
  end.

Definition fmul (x y : float) : float :=
  match x, y with
  | NaN, _ | _, NaN => NaN
  | Fin a, Fin b => Fin (a * b)
  | _, _ => inf_of (fsgn x) (fsgn y)
  end.

(** numpy division: never raises; [x/0] is an infinity, [0/0] is NaN *)
Definition fdiv (x y : float) : float :=
  match x, y with
  | NaN, _ | _, NaN => NaN
  | Fin a, Fin b =>
      if Qc_eqb b 0 then inf_of (Qc_sgn a) Gt else Fin (a / b)
  | Fin _, _ => fz 0
  | _, Fin b => inf_of (fsgn x) (if Qc_eqb b 0 then Gt else Qc_sgn b)
  | _, _ => NaN
  end.

Definition flt (x y : float) : bool :=
  match x, y with
  | NaN, _ | _, NaN => false
  | _, NInf => false
  | NInf, _ => true
  | PInf, _ => false
  | _, PInf => true
  | Fin a, Fin b => Qc_ltb a b
  end.

Definition fgt (x y : float) : bool := flt y x.

Definition feq (x y : float) : bool :=
  match x, y with
  | PInf, PInf | NInf, NInf => true
  | Fin a, Fin b => Qc_eqb a b
  | _, _ => false
  end.

Definition fne (x y : float) : bool := negb (feq x y).

Definition fsum (xs : list float) : float := fold_left fadd xs (fz 0).

(** Python [x / y] on floats: raises on a zero divisor *)
Definition py_truediv (x y : float) : exc float :=
  if feq y (fz 0) then Raise ZeroDivisionError else Ok (fdiv x y).

(** ** Python values handled by the helpers *)

Inductive pyval : Set :=
  | PyNone
  | PyInt (n : Z)
  | PyFloat (x : float).

(** round half to even, on the exact value *)
Definition round_half_even (q : Q) : Z :=
  let f := Qfloor q in
  match Qcompare (q - inject_Z f) (1 # 2) with
  | Lt => f
  | Gt => (f + 1)%Z
  | Eq => if Z.even f then f else (f + 1)%Z
  end.

Definition pow10 (d : Z) : Qc := ofZ (10 ^ d).

(** Python [round(x, ndigits)]: NaN and infinities round to themselves *)
Definition py_round (x : float) (ndigits : Z) : float :=
  match x with
  | Fin a =>
      if (0 <=? ndigits)%Z
      then Fin (ofZ (round_half_even (this (a * pow10 ndigits))) / pow10 ndigits)
      else Fin (ofZ (round_half_even (this (a / pow10 (- ndigits)))) * pow10 (- ndigits))
  | _ => x
  end.

Definition py_float (v : pyval) : exc float :=
  match v with
  | PyNone => Raise TypeError
  | PyInt n => Ok (fz n)
  | PyFloat x => Ok x
  end.

(** truncation toward zero *)
Definition Qc_trunc (a : Qc) : Z :=
  if Qc_ltb a 0 then Qceiling (this a) else Qfloor (this a).

Definition py_int (v : pyval) : exc Z :=
  match v with
  | PyNone => Raise TypeError
  | PyInt n => Ok n
  | PyFloat NaN => Raise ValueError
  | PyFloat PInf | PyFloat NInf => Raise OverflowError
  | PyFloat (Fin a) => Ok (Qc_trunc a)
  end.

Definition safe_round (value : pyval) (decimals : Z) : pyval :=
  match value with
  | PyNone => PyNone
  | PyInt n => PyFloat (py_round (fz n) decimals)
  | PyFloat x =>
      if isnan x || isinf x then PyNone
      else PyFloat (py_round x decimals)
  end.

(** [default] is a number at every call site; an int default ([50], [0]) is
    represented by the float of the same value. *)
Definition safe_float (value : pyval) (default : float) : float :=
  match value with
  | PyNone => default
  | _ =>
      (* [float(value)] raises only [TypeError] on these values, which
         the [except (TypeError, ValueError)] clause catches *)
      match py_float value with
      | Ok result => if isnan result || isinf result then default else result
      | Raise _ => default
      end
  end.

(** only [TypeError] and [ValueError] are caught *)
Definition safe_int (value : pyval) (default : Z) : exc Z :=
  match value with
  | PyNone => Ok default
  | _ =>
      match py_int value with
      | Ok result => Ok result
      | Raise TypeError | Raise ValueError => Ok default
      | Raise e => Raise e
      end
  end.

(** ** pandas Series, as lists of floats *)

Definition Series := list float.

(** [s.diff()] *)
Fixpoint diff_from (prev : float) (s : Series) : Series :=
  match s with
  | [] => []
  | x :: r => fsub x prev :: diff_from x r
  end.

Definition diff (s : Series) : Series :=
  match s with
  | [] => []
  | x :: r => NaN :: diff_from x r
  end.

(** [s.where(cond, other)]: keep the entry where [cond] holds *)
Definition where_ (s : Series) (cond : float -> bool) (other : float) : Series :=
  map (fun x => if cond x then x else other) s.

(** [s.replace(old, new)] *)
Definition replace (s : Series) (old new : float) : Series :=
  map (fun x => if feq x old then new else x) s.

Fixpoint map2 {A B C : Type} (f : A -> B -> C) (l : list A) (l' : list B) : list C :=
  match l, l' with
  | x :: r, y :: r' => f x y :: map2 f r r'
  | _, _ => []
  end.

(** [Rolling._prep_values]: infinities are turned into NaN *)
Definition prep_value (x : float) : float := if isinf x then NaN else x.

(** the (at most) [w] entries ending at index [i] *)
Definition window (w i : nat) (s : Series) : Series :=
  skipn (i + 1 - w) (firstn (i + 1) s).

(** [s.rolling(window=w, min_periods=minp).mean()] at index [i]: the mean of
    the valid observations of the window, NaN when there are fewer than
    [minp] of them *)
Definition roll_mean_at (w minp : nat) (s : Series) (i : nat) : float :=
  let obs := filter (fun x => negb (isnan x)) (map prep_value (window w i s)) in
  if (minp <=? length obs)%nat
  then fdiv (fsum obs) (Fin (ofZ (Z.of_nat (length obs))))
  else NaN.

(** [s.rolling(window=w).mean()]: [min_periods] defaults to [w] *)
Definition rolling_mean (w : nat) (s : Series) : Series :=
  map (roll_mean_at w w s) (seq 0 (length s)).

(** [s.ewm(span=span, adjust=False).mean()] (ignore_na=False,
    min_periods=0), after pandas' [ewm] kernel; as for a rolling window the
    values first go through [_prep_values] *)
Section Ewm.
Variable span : Z.

Definition com : Qc := (ofZ span - 1) / ofZ 2.
Definition alpha : Qc := 1 / (1 + com).
Definition old_wt_factor : float := Fin (1 - alpha).
Definition new_wt : float := Fin alpha.

Definition ewm_step (weighted old_wt cur : float) : float * float :=
  let is_observation := negb (isnan cur) in
  if negb (isnan weighted) then
    let old_wt := fmul old_wt old_wt_factor in
    if is_observation then
      let weighted :=
        if fne weighted cur
        then fdiv (fadd (fmul old_wt weighted) (fmul new_wt cur))
                  (fadd old_wt new_wt)
        else weighted in
      (weighted, fz 1)
    else (weighted, old_wt)
  else if is_observation then (cur, old_wt)
  else (weighted, old_wt).

Fixpoint ewm_loop (weighted old_wt : float) (nobs : nat) (vals : Series) : Series :=
  match vals with
  | [] => []
  | cur :: rest =>
      let nobs := (nobs + if isnan cur then 0 else 1)%nat in
      let '(weighted, old_wt) := ewm_step weighted old_wt cur in
      (if (1 <=? nobs)%nat then weighted else NaN)
        :: ewm_loop weighted old_wt nobs rest
  end.

Definition ewm_mean (vals : Series) : Series :=
  match map prep_value vals with
  | [] => []
  | weighted :: rest =>
      let nobs := if isnan weighted then 0%nat else 1%nat in
      (if (1 <=? nobs)%nat then weighted else NaN)
        :: ewm_loop weighted (fz 1) nobs rest
  end.
End Ewm.

(** [s.iloc[-1]] *)
Definition iloc_last (s : Series) : exc float :=
  match rev s with
  | [] => Raise IndexError
  | x :: _ => Ok x
  end.

(** ** Indicator engine *)

(** the [gain] and [loss] series of [calculate_rsi] *)
Definition rsi_gain (prices : Series) (period : nat) : Series :=
  let delta := diff prices in
  rolling_mean period (where_ delta (fun d => fgt d (fz 0)) (fz 0)).

Definition rsi_loss (prices : Series) (period : nat) : Series :=
  let delta := diff prices in
  rolling_mean period (map fneg (where_ delta (fun d => flt d (fz 0)) (fz 0))).

Definition calculate_rsi (prices : Series) (period : nat) : Series :=
  try_except
    (let gain := rsi_gain prices period in
     let loss := rsi_loss prices period in
     (* Avoid division by zero *)
     let loss_safe := replace loss (fz 0) NaN in
     let rs := map2 fdiv gain loss_safe in
     let rsi := map (fun r => fsub (fz 100) (fdiv (fz 100) (fadd (fz 1) r))) rs in
     Ok rsi)
    (repeat NaN (length prices)).

Definition calculate_macd (prices : Series) (fast slow signal : Z) : Series * Series :=
  try_except
    (let exp1 := ewm_mean fast prices in
     let exp2 := ewm_mean slow prices in
     let macd := map2 fsub exp1 exp2 in
     let signal_line := ewm_mean signal macd in
     Ok (macd, signal_line))
    (let empty_series := repeat NaN (length prices) in
     (empty_series, empty_series)).

(** one row of [yfinance]'s [history()] frame, once [reset_index] has made
    the date a column; [Date] is a day number *)
Record PricePoint : Set := {
  Date : Z;
  Open : float;
  High : float;
  Low : float;
  Close : float;
  Volume : float;
  Dividends : float;
  StockSplits : float
}.

Definition DataFrame := list PricePoint.

(** one dict of [historical_data]; [date] is the day number that the source
    formats as YYYY-MM-DD *)
Record IndicatorRow : Set := {
  date : Z;
  open : pyval;
  high : pyval;
  low : pyval;
  close : pyval;
  volume : Z;
  ma7 : pyval;
  ma20 : pyval;
  ma50 : pyval;
  rsi : pyval;
  macd : pyval;
  signal : pyval
}.

Definition get (s : Series) (i : nat) : pyval := PyFloat (nth i s NaN).

(** the dict appended for one row of the enriched frame *)
Definition historical_row (MA7 MA20 MA50 RSI MACD Signal : Series)
    (index : nat) (row : PricePoint) : exc IndicatorRow :=
  vol <- safe_int (PyFloat (Volume row)) 0 ;;
  Ok {| date := Date row;
        open := safe_round (PyFloat (Open row)) 2;
        high := safe_round (PyFloat (High row)) 2;
        low := safe_round (PyFloat (Low row)) 2;
        close := safe_round (PyFloat (Close row)) 2;
        volume := vol;
        ma7 := safe_round (get MA7 index) 2;
        ma20 := safe_round (get MA20 index) 2;
        ma50 := safe_round (get MA50 index) 2;
        rsi := safe_round (get RSI index) 2;
        macd := safe_round (get MACD index) 2;
        signal := safe_round (get Signal index) 2 |}.

Definition get_historical_data (history : exc DataFrame) : list IndicatorRow :=
  try_except
    (df <- history ;;
     if (length df =? 0)%nat then Ok []
     else
       let MA7 := rolling_mean 7 (map Close df) in
       let MA20 := rolling_mean 20 (map Close df) in
       let MA50 := rolling_mean 50 (map Close df) in
       let RSI := calculate_rsi (map Close df) 14 in
       let macd_result := calculate_macd (map Close df) 12 26 9 in
       let MACD := fst macd_result in
       let Signal := snd macd_result in
       mapM (fun '(index, row) =>
               historical_row MA7 MA20 MA50 RSI MACD Signal index row)
            (combine (seq 0 (length df)) df))
    [].

(** ** Signal classifier *)

Record SignalResult : Set := {
  sr_signal : string;
  sr_strength : pyval;
  sr_rsi : pyval;
  sr_price_vs_ma20 : pyval
}.

(** the dict returned for fewer than 20 rows and by the [except] clause *)
Definition degenerate_signal : SignalResult :=
  {| sr_signal := "HOLD";
     sr_strength := PyInt 0;
     sr_rsi := PyNone;
     sr_price_vs_ma20 := PyNone |}.

(** Python [min(a, b)] and [max(a, b)]: the first argument wins unless the
    second is strictly smaller (larger) *)
Definition py_min (a b : float) : float := if flt b a then b else a.
Definition py_max (a b : float) : float := if fgt b a then b else a.

Definition fabs (x : float) : float :=
  match x with
  | NInf => PInf
  | Fin a => if Qc_ltb a 0 then Fin (- a) else x
  | _ => x
  end.

(** [signal_score] after the price-vs-MA20 and RSI adjustments *)
Definition signal_score (current_price ma20 rsi : float) : Z :=
  let signal_score := 0%Z in
  let signal_score :=
    if fgt current_price ma20 then (signal_score + 1)%Z
    else (signal_score - 1)%Z in
  if flt rsi (fz 30) then (signal_score + 2)%Z
  else if fgt rsi (fz 70) then (signal_score - 2)%Z
  else signal_score.

(** label and strength for a score *)
Definition final_signal (signal_score : Z) : string * float :=
  if (2 <=? signal_score)%Z then
    ("STRONG BUY"%string,
     py_min (fz 100) (fmul (fdiv (fz signal_score) (fz 3)) (fz 100)))
  else if (signal_score =? 1)%Z then ("BUY"%string, fz 60)
  else if (signal_score =? -1)%Z then ("SELL"%string, fz 60)
  else if (signal_score <=? -2)%Z then
    ("STRONG SELL"%string,
     py_min (fz 100) (fmul (fabs (fdiv (fz signal_score) (fz 3))) (fz 100)))
  else ("HOLD"%string, fz 50).

(** the three numbers the classifier reads off the frame *)
Definition signal_inputs (df : DataFrame) : exc (float * float * float) :=
  last_close <- iloc_last (map Close df) ;;
  let current_price := safe_float (PyFloat last_close) (fz 0) in
  last_mean <- iloc_last (rolling_mean 20 (map Close df)) ;;
  let ma20 := safe_float (PyFloat last_mean) (fz 0) in
  let rsi_series := calculate_rsi (map Close df) 14 in
  rsi_value <- iloc_last rsi_series ;;
  let rsi := safe_float (PyFloat rsi_value) (fz 50) in
  Ok (current_price, ma20, rsi).

Definition get_sentiment_signal (history : exc DataFrame) : SignalResult :=
  try_except
    (df <- history ;;
     if (length df <? 20)%nat then Ok degenerate_signal
     else
       '(current_price, ma20, rsi) <- signal_inputs df ;;
       let '(signal, strength) := final_signal (signal_score current_price ma20 rsi) in
       price_vs_ma20 <-
         (if fne ma20 (fz 0)
          then q <- py_truediv (fsub current_price ma20) ma20 ;;
               Ok (fmul q (fz 100))
          else Ok (fz 0)) ;;
       Ok {| sr_signal := signal;
             sr_strength := safe_round (PyFloat strength) 2;
             sr_rsi := safe_round (PyFloat rsi) 2;
             sr_price_vs_ma20 := safe_round (PyFloat price_vs_ma20) 2 |})
    degenerate_signal.

(** ** scikit-learn pieces used by the forecaster *)

Definition Matrix := list (list float).

(** [check_array]: infinities are always rejected, NaN unless allowed *)
Definition check_array (allow_nan : bool) (X : Matrix) : exc Matrix :=
  if existsb (existsb (fun x => isinf x || (negb allow_nan && isnan x))) X
  then Raise ValueError
  else if (length X =? 0)%nat then Raise ValueError
  else Ok X.

Definition column (j : nat) (X : Matrix) : Series :=
  map (fun row => nth j row NaN) X.

Definition n_features (X : Matrix) : nat :=
  match X with
  | [] => 0%nat
  | row :: _ => length row
  end.

(** [np.nanmin] and [np.nanmax] of a column *)
Definition nan_fold (pick : float -> float -> bool) (s : Series) : float :=
  fold_left (fun acc x => if isnan x then acc
                          else if isnan acc then x
                          else if pick x acc then x else acc) s NaN.

Definition nanmin : Series -> float := nan_fold flt.
Definition nanmax : Series -> float := nan_fold fgt.

(** [MinMaxScaler()] with [feature_range = (0, 1)] *)
Record MinMaxScaler : Set := {
  scale_ : list float;
  min_ : list float
}.

(** [_handle_zeros_in_scale]: a constant feature (zero range; the library
    also counts a range below 10 machine epsilons as zero) is scaled by 1 *)
Definition handle_zeros_in_scale (r : float) : float :=
  if feq r (fz 0) then fz 1 else r.

Definition scaler_fit (X : Matrix) : exc MinMaxScaler :=
  X <- check_array true X ;;
  let cols := map (fun j => column j X) (seq 0 (n_features X)) in
  let data_min := map nanmin cols in
  let data_max := map nanmax cols in
  let data_range := map2 fsub data_max data_min in
  let scale := map (fun r => fdiv (fz 1) (handle_zeros_in_scale r)) data_range in
  Ok {| scale_ := scale;
        min_ := map2 (fun mn sc => fsub (fz 0) (fmul mn sc)) data_min scale |}.

Definition scaler_transform (sc : MinMaxScaler) (X : Matrix) : exc Matrix :=
  X <- check_array true X ;;
  Ok (map (fun row => map2 fadd (map2 fmul row (scale_ sc)) (min_ sc)) X).

Definition scaler_inverse_transform (sc : MinMaxScaler) (X : Matrix) : exc Matrix :=
  X <- check_array true X ;;
  Ok (map (fun row => map2 fdiv (map2 fsub row (min_ sc)) (scale_ sc)) X).

Definition fit_transform (X : Matrix) : exc (MinMaxScaler * Matrix) :=
  sc <- scaler_fit X ;;
  Xs <- scaler_transform sc X ;;
  Ok (sc, Xs).

(** [Series.mean()] and [np.average]: NaN entries are skipped by pandas *)
Definition series_mean (s : Series) : float :=
  let obs := filter (fun x => negb (isnan x)) s in
  fdiv (fsum obs) (fz (Z.of_nat (length obs))).

Definition dot (u v : list float) : float := fsum (map2 fmul u v).

Record LinearModel : Set := {
  coef_ : list float;
  intercept_ : float
}.

Definition fsq (x : float) : float := fmul x x.

(** [sklearn.metrics.r2_score] on one output column; [check_consistent_length]
    comes first; the squares are exact here and cannot overflow *)
Definition r2_score (y_true y_pred : Series) : exc float :=
  _ <- (if (length y_true =? length y_pred)%nat then Ok tt else Raise ValueError) ;;
  _ <- check_array false [y_true] ;;
  _ <- check_array false [y_pred] ;;
  if (length y_pred <? 2)%nat then Ok NaN
  else
    let numerator := fsum (map fsq (map2 fsub y_true y_pred)) in
    let y_mean := series_mean y_true in
    let denominator := fsum (map (fun y => fsq (fsub y y_mean)) y_true) in
    if fne denominator (fz 0) then Ok (fsub (fz 1) (fdiv numerator denominator))
    else if fne numerator (fz 0) then Ok (fz 0)
    else Ok (fz 1).

(** ** Regression forecaster *)

Record ForecastPoint : Set := {
  fp_date : Z;
  predictedPrice : pyval
}.

Record ForecastResult : Set := {
  predictions : list ForecastPoint;
  confidence : pyval;
  model : string
}.

(** a row of the frame once the [Days] and [MA5] columns are added *)
Record FeatureRow : Set := {
  base : PricePoint;
  Days : Z;
  MA5 : float
}.

Definition add_features (df : DataFrame) : list FeatureRow :=
  map (fun '(i, row) =>
         {| base := row;
            Days := Z.of_nat i;
            MA5 := nth i (rolling_mean 5 (map Close df)) NaN |})
      (combine (seq 0 (length df)) df).

(** [df.dropna()]: a row goes when any of its columns is NaN; the date and
    the integer [Days] column never are *)
Definition has_na (r : FeatureRow) : bool :=
  existsb isnan
    [Open (base r); High (base r); Low (base r); Close (base r);
     Volume (base r); Dividends (base r); StockSplits (base r); MA5 r].

Definition dropna (df : list FeatureRow) : list FeatureRow :=
  filter (fun r => negb (has_na r)) df.

Definition features (r : FeatureRow) : list float :=
  [fz (Days r); Volume (base r); MA5 r].

Definition item00 (X : Matrix) : exc float :=
  match X with
  | (x :: _) :: _ => Ok x
  | _ => Raise IndexError
  end.

Section Forecaster.
(** the least-squares solver that [LinearRegression.fit] calls on the
    centred data ([scipy.linalg.lstsq]) *)
Variable lstsq : Matrix -> Series -> exc (list float).

(** [datetime.now()], as a day number: the value of the k-th read *)
Variable now : nat -> Z.

(** [LinearRegression().fit(X, y)] with one target column *)
Definition model_fit (X : Matrix) (y : Series) : exc LinearModel :=
  X <- check_array false X ;;
  _ <- check_array false [y] ;;
  let X_offset := map (fun j => series_mean (column j X)) (seq 0 (n_features X)) in
  let y_offset := series_mean y in
  coef <- lstsq (map (fun row => map2 fsub row X_offset) X)
                (map (fun v => fsub v y_offset) y) ;;
  Ok {| coef_ := coef;
        intercept_ := fsub y_offset (dot X_offset coef) |}.

Definition model_predict (m : LinearModel) (X : Matrix) : exc Series :=
  X <- check_array false X ;;
  Ok (map (fun row => fadd (dot row (coef_ m)) (intercept_ m)) X).

Section Loop.
Variables (scaler_X scaler_y : MinMaxScaler) (m : LinearModel).
Variables (last_day : Z) (last_volume : float).

(** the body of [for i in range(1, days + 1)], over the remaining
    values of [i]; [k] counts the clock reads made so far *)
Fixpoint predict_loop (range : list Z) (current_ma5 : float) (k : nat)
  : exc (list ForecastPoint) :=
  match range with
  | [] => Ok []
  | i :: range =>
      let future_day := (last_day + i)%Z in
      let future_features := [[fz future_day; last_volume; current_ma5]] in
      future_features_scaled <- scaler_transform scaler_X future_features ;;
      pred_scaled <- model_predict m future_features_scaled ;;
      inv <- scaler_inverse_transform scaler_y (map (fun p => [p]) pred_scaled) ;;
      p <- item00 inv ;;
      let pred_price := safe_float (PyFloat p) (fz 0) in
      let current_ma5 := fdiv (fadd (fmul current_ma5 (fz 4)) pred_price) (fz 5) in
      let pred_date := (now k + i)%Z in
      rest <- predict_loop range current_ma5 (S k) ;;
      Ok ({| fp_date := pred_date;
             predictedPrice := safe_round (PyFloat pred_price) 2 |} :: rest)
  end.
End Loop.

(** [range(1, days + 1)] *)
Definition range1 (days : Z) : list Z :=
  map Z.of_nat (seq 1 (Z.to_nat days)).

Definition predict_prices (history : exc DataFrame) (days : Z)
  : option ForecastResult :=
  try_except
    (df <- history ;;
     if (length df <? 30)%nat then Ok None
     else
       let df := dropna (add_features df) in
       if (length df <? 20)%nat then Ok None
       else
         let X := map features df in
         let y := map (fun r => Close (base r)) df in
         if existsb (existsb isnan) X || existsb isnan y then Ok None
         else
           '(scaler_X, X_scaled) <- fit_transform X ;;
           '(scaler_y, y_scaled) <- fit_transform (map (fun v => [v]) y) ;;
           let y_scaled := column 0 y_scaled in
           m <- model_fit X_scaled y_scaled ;;
           let last_day := Z.of_nat (length df) in
           last_vol <- iloc_last (map (fun r => Volume (base r)) df) ;;
           let last_volume :=
             safe_float (PyFloat last_vol)
                        (series_mean (map (fun r => Volume (base r)) df)) in
           last_mean <- iloc_last (map MA5 df) ;;
           last_close <- iloc_last y ;;
           let last_ma5 := safe_float (PyFloat last_mean) last_close in
           preds <- predict_loop scaler_X scaler_y m last_day last_volume
                      (range1 days) last_ma5 0 ;;
           y_pred <- model_predict m X_scaled ;;
           conf <- r2_score y_scaled y_pred ;;
           let confidence_pct :=
             py_max (fz 0) (py_min (fz 100) (fmul conf (fz 100))) in
           Ok (Some {| predictions := preds;
                       confidence := safe_round (PyFloat confidence_pct) 2;
                       model := "Linear Regression" |}))
    None.
End Forecaster.

(** ** Reference definitions, in the words of the specification *)

(** the [w] values of [s] at rows [i-w+1 .. i] *)
Definition trailing (w i : nat) (s : Series) : Series :=
  map (fun j => nth j s NaN) (seq (i + 1 - w) w).

(** arithmetic mean: the sum divided by the number of values *)
Definition arith_mean (s : Series) : float :=
  fdiv (fsum s) (fz (Z.of_nat (length s))).

(** the RSI value of one row, from the two rolling means of that row *)
Definition rsi_at (gain loss : float) : float :=
  let loss_safe := if feq loss (fz 0) then NaN else loss in
  fsub (fz 100) (fdiv (fz 100) (fadd (fz 1) (fdiv gain loss_safe))).

(** EMA recurrence: seeded with the first value, then
    [ema[i] = value[i]*a + ema[i-1]*(1-a)] *)
Fixpoint ema_from (a prev : Qc) (values : list Qc) : list Qc :=
  match values with
  | [] => []
  | v :: rest =>
      let e := v * a + prev * (1 - a) in
      e :: ema_from a e rest
  end.

Definition ema_spec (span : Z) (values : list Qc) : list Qc :=
  match values with
  | [] => []
  | v :: rest => v :: ema_from (ofZ 2 / (ofZ span + 1)) v rest
  end.

Definition macd_spec (closes : list Qc) : list Qc :=
  map2 Qcminus (ema_spec 12 closes) (ema_spec 26 closes).

Definition signal_spec (closes : list Qc) : list Qc :=
  ema_spec 9 (macd_spec closes).

(** the arithmetic mean of rational numbers *)
Definition exact_mean (qs : list Qc) : Qc :=
  fold_left Qcplus qs 0 / ofZ (Z.of_nat (length qs)).

(** [v] is the number [x] rounded to two decimals: a nearest [k/100],
    whichever way a tie goes *)
Definition two_decimal_rounding (v : pyval) (x : Qc) : Prop :=
  exists k : Z,
    v = PyFloat (Fin (ofZ k / ofZ 100)) /\
    x - Q2Qc (1 # 200) <= ofZ k / ofZ 100 /\
    ofZ k / ofZ 100 <= x + Q2Qc (1 # 200).

(** [computed] is [exact] up to [tol] *)
Definition approximates (tol computed exact : Qc) : Prop :=
  exact - tol <= computed /\ computed <= exact + tol.

(** Binary64 rounding is not modelled, so a value that the program computes
    in floating point is compared with the exact value only up to an
    allowance: [n * bound / 2^40] for a value computed in [n] sliding steps
    from inputs of magnitude at most [bound].  Each binary64 operation is
    accurate to [2^-53] of its result, so the allowance also covers the
    compensated running sum of pandas' rolling mean and the recurrence of
    its [ewm] kernel. *)
Definition float_allowance (n : nat) (bound : Qc) : Qc :=
  ofZ (Z.of_nat n) * bound / ofZ (2 ^ 40).

(** inputs of magnitude at most [2^1000] keep every sum of a window of the
    program below the largest binary64 number *)
Definition no_overflow_bound : Qc := ofZ (2 ^ 1000).

Definition Qc_leb (a b : Qc) : bool := negb (Qc_ltb b a).

(** a float that is missing, infinite, or of magnitude at most [bound] *)
Definition bounded_by (bound : Qc) (x : float) : bool :=
  match x with
  | Fin q => Qc_leb (- bound) q && Qc_leb q bound
  | _ => true
  end.

(** the rows the specification keeps for the regression: the 5-day average
    is defined and the three features are finite *)
Definition spec_clean_rows (df : DataFrame) : list FeatureRow :=
  filter (fun r => negb (isnan (MA5 r)) && forallb isfinite (features r))
         (add_features df).

(** a number with two decimals: [k/100] for an integer [k] *)
Definition two_decimals (v : pyval) : Prop :=
  exists k : Z, v = PyFloat (Fin (ofZ k / ofZ 100)).

Definition none_or_two_decimals (v : pyval) : Prop :=
  v = PyNone \/ two_decimals v.

(** the numeric fields of an output row *)
Definition numeric_fields (r : IndicatorRow) : list pyval :=
  [open r; high r; low r; close r;
   ma7 r; ma20 r; ma50 r; rsi r; macd r; signal r].

(** ** Fixtures *)

(** a bar whose four prices are the integer [c] *)
Definition bar (d : nat) (c : Z) (v : float) : PricePoint :=
  {| Date := Z.of_nat d; Open := fz c; High := fz c; Low := fz c;
     Close := fz c; Volume := v; Dividends := fz 0; StockSplits := fz 0 |}.

(** close flat at 100 for 25 days *)
Definition flat25 : DataFrame :=
  map (fun i => bar i 100 (fz 1000)) (seq 0 25).

(** 100, 101, 102, 100, 101, 102, ... *)
Definition zigzag (n : nat) : DataFrame :=
  map (fun i => bar i (100 + Z.of_nat (i mod 3)) (fz 1000)) (seq 0 n).

(** the closes of [zigzag n], as rationals *)
Definition zigzag_closes (n : nat) : list Qc :=
  map (fun i => ofZ (100 + Z.of_nat (i mod 3))) (seq 0 n).

(** close[i] = 100 + i with constant volume *)
Definition linear (n : nat) : DataFrame :=
  map (fun i => bar i (100 + Z.of_nat i) (fz 1000)) (seq 0 n).

(** every fifth close is missing, so no 5-day window is complete *)
Definition gappy (n : nat) : DataFrame :=
  map (fun i =>
         {| Date := Z.of_nat i; Open := fz 100; High := fz 100; Low := fz 100;
            Close := if (i mod 5 =? 0)%nat then NaN else fz 100;
            Volume := fz 1000; Dividends := fz 0; StockSplits := fz 0 |})
      (seq 0 n).

(** close[i] = 100 + i with every volume infinite *)
Definition inf_volume (n : nat) : DataFrame :=
  map (fun i => bar i (100 + Z.of_nat i) PInf) (seq 0 n).

(** a solver that returns the least-squares solution of the [linear]
    fixture, whose scaled day and average columns coincide with the target *)
Definition half_half_solver (X : Matrix) (y : Series) : exc (list float) :=
  Ok [Fin (Q2Qc (1 # 2)); fz 0; Fin (Q2Qc (1 # 2))].

(** a clock that stays on day 20000 *)
Definition fixed_clock (k : nat) : Z := 20000%Z.

(** a clock that passes midnight after its first read *)
Definition midnight_clock (k : nat) : Z :=
  if (k =? 0)%nat then 20000%Z else 20001%Z.

(** ** Python strings (ASCII text) *)

(** A [str] is modelled as the list of its characters.  The case, space and
    title rules below are Python's rules on ASCII text; text with characters
    outside ASCII is outside the model. *)
Definition str := list ascii.

Definition chars (s : string) : str := list_ascii_of_string s.

Definition code (c : ascii) : nat := nat_of_ascii c.

Definition is_ascii (c : ascii) : bool := (code c <? 128)%nat.

Definition ascii_text (s : str) : Prop := forallb is_ascii s = true.

Definition is_upper_letter (c : ascii) : bool :=
  ((65 <=? code c) && (code c <=? 90))%nat.

Definition is_lower_letter (c : ascii) : bool :=
  ((97 <=? code c) && (code c <=? 122))%nat.

(** [c.isspace()]: tab to carriage return, the four separators, space *)
Definition is_space (c : ascii) : bool :=
  (((9 <=? code c) && (code c <=? 13)) || ((28 <=? code c) && (code c <=? 32)))%nat.

Definition lower_char (c : ascii) : ascii :=
  if is_upper_letter c then ascii_of_nat (code c + 32) else c.

Definition upper_char (c : ascii) : ascii :=
  if is_lower_letter c then ascii_of_nat (code c - 32) else c.

Definition py_lower (s : str) : str := map lower_char s.
Definition py_upper (s : str) : str := map upper_char s.

Fixpoint lstrip (s : str) : str :=
  match s with
  | c :: rest => if is_space c then lstrip rest else s
  | [] => []
  end.

Definition py_strip (s : str) : str := rev (lstrip (rev (lstrip s))).

(** [s.isupper()]: some cased character, and no lowercase one *)
Definition py_isupper (s : str) : bool :=
  existsb is_upper_letter s && negb (existsb is_lower_letter s).

(** [s.replace(c, '')] for a one-character [c] *)
Definition remove_char (c : ascii) (s : str) : str :=
  filter (fun x => negb (Ascii.eqb x c)) s.

Fixpoint str_eqb (a b : str) : bool :=
  match a, b with
  | [], [] => true
  | x :: a, y :: b => Ascii.eqb x y && str_eqb a b
  | _, _ => false
  end.

Definition startswith (s prefix : str) : bool :=
  str_eqb (firstn (length prefix) s) prefix.

Definition endswith (s suffix : str) : bool :=
  (length suffix <=? length s)%nat &&
  str_eqb (skipn (length s - length suffix) s) suffix.

(** [sub in s] *)
Fixpoint contains (sub s : str) : bool :=
  startswith s sub ||
  match s with
  | [] => false
  | _ :: rest => contains sub rest
  end.

(** [s.title()]: a letter is made uppercase after a character that is not a
    letter, lowercase after a letter *)
Fixpoint title_from (previous_is_cased : bool) (s : str) : str :=
  match s with
  | [] => []
  | c :: rest =>
      (if previous_is_cased then lower_char c else upper_char c)
        :: title_from (is_upper_letter c || is_lower_letter c) rest
  end.

Definition py_title (s : str) : str := title_from false s.

(** ** Ticker and company-name utilities ([stock_utils.py]) *)

Definition suffixes : list str :=
  map chars
    [" inc"; " incorporated"; " corp"; " corporation";
     " ltd"; " limited"; " llc"; " co"; " company";
     " group"; " holdings"; " technologies"; " systems";
     " plc"; " sa"; " ag"; " gmbh"; " the"]%string.

Definition normalize_company_name (name : str) : str :=
  let name := py_strip (py_lower name) in
  let name := remove_char "'" (remove_char "." (remove_char "," name)) in
  let name :=
    fold_left
      (fun name suffix =>
         if endswith name suffix
         then py_strip (firstn (length name - length suffix) name)
         else name)
      suffixes name in
  if startswith name (chars "the ")
  then py_strip (skipn 4 name)
  else name.

(** [POPULAR_STOCKS[key]], for a key that may be absent *)
Fixpoint lookup (key : str) (items : list (str * str)) : option str :=
  match items with
  | [] => None
  | (k, v) :: rest => if str_eqb k key then Some v else lookup key rest
  end.

(** the first item whose name contains the term or is contained in it *)
Fixpoint partial_match (normalized : str) (items : list (str * str)) : option str :=
  match items with
  | [] => None
  | (company_name, ticker) :: rest =>
      if contains normalized company_name || contains company_name normalized
      then Some ticker
      else partial_match normalized rest
  end.

(** the entries of [POPULAR_STOCKS], as written in [symbols.py] *)
Definition POPULAR_STOCKS_literal : list (string * string) :=
  [
   ("apple", "AAPL");
   ("apple inc", "AAPL");
   ("microsoft", "MSFT");
   ("microsoft corporation", "MSFT");
   ("google", "GOOGL");
   ("alphabet", "GOOGL");
   ("alphabet inc", "GOOGL");
   ("amazon", "AMZN");
   ("amazon.com", "AMZN");
   ("amazon com", "AMZN");
   ("tesla", "TSLA");
   ("tesla inc", "TSLA");
   ("meta", "META");
   ("meta platforms", "META");
   ("facebook", "META");
   ("nvidia", "NVDA");
   ("netflix", "NFLX");
   ("adobe", "ADBE");
   ("salesforce", "CRM");
   ("oracle", "ORCL");
   ("intel", "INTC");
   ("intel corporation", "INTC");
   ("amd", "AMD");
   ("advanced micro devices", "AMD");
   ("qualcomm", "QCOM");
   ("cisco", "CSCO");
   ("cisco systems", "CSCO");
   ("ibm", "IBM");
   ("international business machines", "IBM");
   ("spotify", "SPOT");
   ("snap", "SNAP");
   ("snapchat", "SNAP");
   ("twitter", "TWTR");
   ("x", "TWTR");
   ("zoom", "ZM");
   ("slack", "WORK");
   ("pinterest", "PINS");
   ("reddit", "RDDT");
   ("shopify", "SHOP");
   ("square", "SQ");
   ("block", "SQ");
   ("paypal", "PYPL");
   ("coinbase", "COIN");
   ("stripe", "STRIPE");
   ("robinhood", "HOOD");
   ("sofi", "SOFI");
   ("uber", "UBER");
   ("uber technologies", "UBER");
   ("lyft", "LYFT");
   ("airbnb", "ABNB");
   ("doordash", "DASH");
   ("booking", "BKNG");
   ("booking holdings", "BKNG");
   ("expedia", "EXPE");
   ("jpmorgan", "JPM");
   ("jp morgan", "JPM");
   ("jpmorgan chase", "JPM");
   ("bank of america", "BAC");
   ("wells fargo", "WFC");
   ("goldman sachs", "GS");
   ("morgan stanley", "MS");
   ("citigroup", "C");
   ("citi", "C");
   ("visa", "V");
   ("mastercard", "MA");
   ("american express", "AXP");
   ("amex", "AXP");
   ("charles schwab", "SCHW");
   ("schwab", "SCHW");
   ("walmart", "WMT");
   ("target", "TGT");
   ("costco", "COST");
   ("home depot", "HD");
   ("the home depot", "HD");
   ("lowe's", "LOW");
   ("lowes", "LOW");
   ("nike", "NKE");
   ("starbucks", "SBUX");
   ("mcdonalds", "MCD");
   ("mcdonald's", "MCD");
   ("chipotle", "CMG");
   ("coca cola", "KO");
   ("coca-cola", "KO");
   ("pepsi", "PEP");
   ("pepsico", "PEP");
   ("procter & gamble", "PG");
   ("procter and gamble", "PG");
   ("pg", "PG");
   ("johnson & johnson", "JNJ");
   ("johnson and johnson", "JNJ");
   ("jnj", "JNJ");
   ("pfizer", "PFE");
   ("moderna", "MRNA");
   ("abbvie", "ABBV");
   ("merck", "MRK");
   ("bristol myers", "BMY");
   ("bristol-myers squibb", "BMY");
   ("eli lilly", "LLY");
   ("lilly", "LLY");
   ("unitedhealth", "UNH");
   ("cvs", "CVS");
   ("cvs health", "CVS");
   ("walgreens", "WBA");
   ("exxon", "XOM");
   ("exxonmobil", "XOM");
   ("exxon mobil", "XOM");
   ("chevron", "CVX");
   ("conocophillips", "COP");
   ("shell", "SHEL");
   ("bp", "BP");
   ("british petroleum", "BP");
   ("boeing", "BA");
   ("3m", "MMM");
   ("caterpillar", "CAT");
   ("general electric", "GE");
   ("ge", "GE");
   ("lockheed martin", "LMT");
   ("raytheon", "RTX");
   ("raytheon technologies", "RTX");
   ("deere", "DE");
   ("john deere", "DE");
   ("honeywell", "HON");
   ("ford", "F");
   ("ford motor", "F");
   ("general motors", "GM");
   ("gm", "GM");
   ("toyota", "TM");
   ("honda", "HMC");
   ("ferrari", "RACE");
   ("rivian", "RIVN");
   ("lucid", "LCID");
   ("lucid motors", "LCID");
   ("nikola", "NKLA");
   ("disney", "DIS");
   ("walt disney", "DIS");
   ("the walt disney company", "DIS");
   ("comcast", "CMCSA");
   ("warner bros", "WBD");
   ("paramount", "PARA");
   ("sony", "SONY");
   ("electronic arts", "EA");
   ("ea", "EA");
   ("activision", "ATVI");
   ("take two", "TTWO");
   ("roblox", "RBLX");
   ("taiwan semiconductor", "TSM");
   ("tsmc", "TSM");
   ("asml", "ASML");
   ("broadcom", "AVGO");
   ("texas instruments", "TXN");
   ("micron", "MU");
   ("micron technology", "MU");
   ("at&t", "T");
   ("att", "T");
   ("verizon", "VZ");
   ("t-mobile", "TMUS");
   ("tmobile", "TMUS");
   ("t mobile", "TMUS");
   ("berkshire hathaway", "BRK.B");
   ("berkshire", "BRK.B");
   ("fedex", "FDX");
   ("ups", "UPS");
   ("united parcel service", "UPS");
   ("marriott", "MAR");
   ("hilton", "HLT");
   ("delta", "DAL");
   ("delta air lines", "DAL");
   ("american airlines", "AAL");
   ("united airlines", "UAL");
   ("southwest", "LUV");
   ("southwest airlines", "LUV")
  ]%string.

(** the dictionary of [symbols.py], in insertion order *)
Definition POPULAR_STOCKS : list (str * str) :=
  map (fun kv => (chars (fst kv), chars (snd kv))) POPULAR_STOCKS_literal.

(** [get_companies_by_ticker] *)
Definition get_companies_by_ticker (ticker : str) : list str :=
  let ticker := py_upper ticker in
  map fst (filter (fun kv => str_eqb (snd kv) ticker) POPULAR_STOCKS).

Definition find_ticker (search_term : str) : str :=
  let search_term := py_strip search_term in
  (* If it looks like a ticker (short, uppercase), return as-is *)
  if (length search_term <=? 5)%nat && py_isupper search_term then search_term
  else
    let normalized := normalize_company_name search_term in
    match lookup normalized POPULAR_STOCKS with
    | Some ticker => ticker
    | None =>
        match partial_match normalized POPULAR_STOCKS with
        | Some ticker => ticker
        | None => py_upper search_term
        end
    end.

Record Suggestion : Set := {
  sg_ticker : str;
  sg_name : str;
  sg_display : str
}.

(** the loop of [search_companies] over the remaining items *)
Fixpoint search_loop (query_lower : str) (limit : Z) (items : list (str * str))
    (matches : list Suggestion) (seen_tickers : list str) : list Suggestion :=
  match items with
  | [] => matches
  | (company_name, ticker) :: rest =>
      if existsb (str_eqb ticker) seen_tickers
      then search_loop query_lower limit rest matches seen_tickers
      else if contains query_lower company_name
              || contains query_lower (py_lower ticker)
      then
        let display_name := py_title company_name in
        let matches :=
          matches ++ [ {| sg_ticker := ticker;
                          sg_name := display_name;
                          sg_display := ticker ++ chars " - " ++ display_name |} ] in
        let seen_tickers := ticker :: seen_tickers in
        if (limit <=? Z.of_nat (length matches))%Z then matches
        else search_loop query_lower limit rest matches seen_tickers
      else search_loop query_lower limit rest matches seen_tickers
  end.

Definition search_companies (query : str) (limit : Z) : list Suggestion :=
  let query_lower := py_strip (py_lower query) in
  if (length query_lower <? 2)%nat then []
  else search_loop query_lower limit POPULAR_STOCKS [] [].

Definition is_valid_ticker (ticker : str) : bool :=
  let ticker := py_upper (py_strip ticker) in
  if (length ticker =? 0)%nat then false
  else if (6 <? length ticker)%nat then false
  else forallb (fun c => is_upper_letter c || Ascii.eqb c "." || Ascii.eqb c "-")
               ticker.

(** ** Current quote ([StockAnalyzer.get_current_data]) *)

(** the keys of [yfinance]'s [info] dict that the program reads; a missing
    key reads as None, as with [info.get]; the numeric keys hold None, an
    int or a float *)
Record Info : Set := {
  info_currentPrice : pyval;
  info_regularMarketPrice : pyval;
  info_previousClose : pyval;
  info_fiftyTwoWeekHigh : pyval;
  info_fiftyTwoWeekLow : pyval;
  info_volume : pyval;
  info_marketCap : pyval;
  info_longName : option str;
  info_shortName : option str
}.

Record CurrentData : Set := {
  cd_symbol : str;
  cd_currentPrice : pyval;
  cd_previousClose : pyval;
  cd_change : pyval;
  cd_changePercent : pyval;
  cd_high52Week : pyval;
  cd_low52Week : pyval;
  cd_volume : Z;
  cd_marketCap : Z;
  cd_companyName : str
}.

(** [x if x is not None else y] *)
Definition or_if_none (x y : pyval) : pyval :=
  match x with
  | PyNone => y
  | _ => x
  end.

(** [not name] for a name that is a string or None *)
Definition name_is_empty (name : option str) : bool :=
  match name with
  | None => true
  | Some [] => true
  | Some _ => false
  end.

(** [StockAnalyzer.__init__]: the ticker is kept in uppercase *)
Definition analyzer_ticker (ticker : str) : str := py_upper ticker.

Definition get_current_data (self_ticker : str) (stock_info : exc Info)
  : option CurrentData :=
  try_except
    (info <- stock_info ;;
     let current_price := info_currentPrice info in
     let current_price := or_if_none current_price (info_regularMarketPrice info) in
     let current_price := or_if_none current_price (info_previousClose info) in
     let current_price := safe_float current_price (fz 0) in
     let previous_close := safe_float (info_previousClose info) (fz 0) in
     if feq current_price (fz 0) || feq previous_close (fz 0) then Ok None
     else
       let change := fsub current_price previous_close in
       change_percent <-
         (if fne previous_close (fz 0)
          then q <- py_truediv change previous_close ;; Ok (fmul q (fz 100))
          else Ok (fz 0)) ;;
       let high_52week := safe_float (info_fiftyTwoWeekHigh info) current_price in
       let low_52week := safe_float (info_fiftyTwoWeekLow info) current_price in
       volume <- safe_int (info_volume info) 0 ;;
       market_cap <- safe_int (info_marketCap info) 0 ;;
       let company_name := info_longName info in
       let company_name :=
         if name_is_empty company_name then info_shortName info else company_name in
       let company_name :=
         if name_is_empty company_name then Some self_ticker else company_name in
       Ok (Some {| cd_symbol := self_ticker;
                   cd_currentPrice := safe_round (PyFloat current_price) 2;
                   cd_previousClose := safe_round (PyFloat previous_close) 2;
                   cd_change := safe_round (PyFloat change) 2;
                   cd_changePercent := safe_round (PyFloat change_percent) 2;
                   cd_high52Week := safe_round (PyFloat high_52week) 2;
                   cd_low52Week := safe_round (PyFloat low_52week) 2;
                   cd_volume := volume;
                   cd_marketCap := market_cap;
                   cd_companyName :=
                     match company_name with
                     | Some name => name
                     | None => chars "None"
                     end |}))
    None.

(** ** HTTP routes *)

(** the JSON body of a response; the timestamp field is left out *)
Inductive Body : Set :=
  | ErrorBody (error : str)
  | NotFoundBody (error searchedFor resolvedTo : str)
  | ForecastBody (predictions : ForecastResult)
  | SuggestionsBody (suggestions : list Suggestion)
  | StockBody (current : CurrentData) (historical : list IndicatorRow)
              (predictions : option ForecastResult) (sentiment : SignalResult)
              (searchedFor actualTicker : str).

Definition Response : Set := (Body * Z)%type.

Section Routes.
(** the market-data source: the constructor [yf.Ticker(t)], which may raise,
    [yf.Ticker(t).info] and [yf.Ticker(t).history(period=p)] *)
Variable yf_ticker : str -> exc unit.
Variable yf_info : str -> exc Info.
Variable yf_history : str -> str -> exc DataFrame.
Variable lstsq : Matrix -> Series -> exc (list float).
Variable now : nat -> Z.
(** [str(e)] *)
Variable exn_str : exn -> str.

(** [try: ... except Exception as e: return jsonify({'error': str(e)}), 500] *)
Definition or_500 (c : exc Response) : Response :=
  match c with
  | Ok response => response
  | Raise e => (ErrorBody (exn_str e), 500%Z)
  end.

Definition search_stocks (query : str) : Response :=
  try_except
    (let suggestions := search_companies query 10 in
     Ok (SuggestionsBody suggestions, 200%Z))
    (SuggestionsBody [], 200%Z).

Definition get_stock_data (ticker : str) : Response :=
  or_500
    (let actual_ticker := find_ticker ticker in
     let self_ticker := analyzer_ticker actual_ticker in
     _ <- yf_ticker self_ticker ;;
     let current_data := get_current_data self_ticker (yf_info self_ticker) in
     match current_data with
     | None =>
         Ok (NotFoundBody
               (chars "Invalid ticker or data unavailable for " ++ ticker)
               ticker actual_ticker, 404%Z)
     | Some current =>
         let historical_data :=
           get_historical_data (yf_history self_ticker (chars "3mo")) in
         let predictions :=
           predict_prices lstsq now (yf_history self_ticker (chars "6mo")) 7 in
         let sentiment :=
           get_sentiment_signal (yf_history self_ticker (chars "1mo")) in
         Ok (StockBody current historical_data predictions sentiment
                       ticker actual_ticker, 200%Z)
     end).

(** the [int] converter of the route [/api/predict/<ticker>/<int:days>] only
    matches unsigned decimal numbers: the view receives a natural number *)
Definition predict_stock (ticker : str) (days : N) : Response :=
  let days := Z.of_N days in
  or_500
    (if (30 <? days)%Z
     then Ok (ErrorBody (chars "Maximum prediction period is 30 days"), 400%Z)
     else if (days <? 1)%Z
     then Ok (ErrorBody (chars "Minimum prediction period is 1 day"), 400%Z)
     else
       let actual_ticker := find_ticker ticker in
       let self_ticker := analyzer_ticker actual_ticker in
       _ <- yf_ticker self_ticker ;;
       let predictions :=
         predict_prices lstsq now (yf_history self_ticker (chars "6mo")) days in
       match predictions with
       | None => Ok (ErrorBody (chars "Unable to generate predictions"), 500%Z)
       | Some predictions => Ok (ForecastBody predictions, 200%Z)
       end).
End Routes.

(** ** LSTM predictor ([lstm_predictor.py]) *)

(** numpy arithmetic on two 1-D arrays: elementwise, a one-element array is
    broadcast, other length mismatches raise *)
Definition np_binop (f : float -> float -> float) (a b : Series) : exc Series :=
  if (length a =? length b)%nat then Ok (map2 f a b)
  else match a, b with
       | [x], _ => Ok (map (f x) b)
       | _, [y] => Ok (map (fun x => f x y) a)
       | _, _ => Raise ValueError
       end.

(** [np.mean]: NaN for an empty array, NaN entries are not skipped *)
Definition np_mean (a : Series) : float :=
  fdiv (fsum a) (fz (Z.of_nat (length a))).

Section Lstm.
(** whether the TensorFlow import succeeded, and the Keras model with its
    [fit] and [predict] (one output per sample, flattened) *)
Variable TENSORFLOW_AVAILABLE : bool.
Variable KerasModel : Type.
Variable keras_fit : Matrix -> Series -> exc KerasModel.
Variable keras_predict : KerasModel -> Matrix -> exc Series.
Variable now : nat -> Z.

(** the attributes of an [LSTMStockPredictor]; an unfitted scaler is None *)
Record LSTMStockPredictor : Type := {
  lp_lookback : nat;
  lp_scaler : option MinMaxScaler;
  lp_model : option KerasModel
}.

Definition with_scaler (self : LSTMStockPredictor) (sc : option MinMaxScaler)
  : LSTMStockPredictor :=
  {| lp_lookback := lp_lookback self; lp_scaler := sc; lp_model := lp_model self |}.

Definition with_model (self : LSTMStockPredictor) (m : option KerasModel)
  : LSTMStockPredictor :=
  {| lp_lookback := lp_lookback self; lp_scaler := lp_scaler self; lp_model := m |}.

(** [LSTMStockPredictor(lookback)] *)
Definition new_predictor (lookback : nat) : LSTMStockPredictor :=
  {| lp_lookback := lookback; lp_scaler := None; lp_model := None |}.

(** the windows [scaled[i-lookback:i]] and targets [scaled[i]] for
    [i] in [range(lookback, len(scaled))] *)
Definition sequences (lookback : nat) (scaled_data : Series) : Matrix * Series :=
  let range := seq lookback (length scaled_data - lookback) in
  (map (fun i => firstn lookback (skipn (i - lookback) scaled_data)) range,
   map (fun i => nth i scaled_data NaN) range).

(** [prepare_data]: the scaler is refitted (left unfitted when the fit
    raises); reshaping an empty list of windows raises IndexError *)
Definition prepare_data (self : LSTMStockPredictor) (df : DataFrame)
  : exc (Matrix * Series) * LSTMStockPredictor :=
  let data := map (fun c => [c]) (map Close df) in
  match scaler_fit data with
  | Raise e => (Raise e, with_scaler self None)
  | Ok sc =>
      let self := with_scaler self (Some sc) in
      match scaler_transform sc data with
      | Raise e => (Raise e, self)
      | Ok scaled_data =>
          let '(X, y) := sequences (lp_lookback self) (column 0 scaled_data) in
          if (length X =? 0)%nat then (Raise IndexError, self)
          else (Ok (X, y), self)
      end
  end.

(** [train]; [OtherError] stands for the ImportError raised without
    TensorFlow *)
Definition train (self : LSTMStockPredictor) (df : DataFrame)
  : exc unit * LSTMStockPredictor :=
  if negb TENSORFLOW_AVAILABLE then (Raise OtherError, self)
  else
    match prepare_data self df with
    | (Raise e, self) => (Raise e, self)
    | (Ok (X, y), self) =>
        match keras_fit X y with
        | Raise e => (Raise e, self)
        | Ok m => (Ok tt, with_model self (Some m))
        end
    end.

(** the loop of [predict_future]: predict on the batch, then drop its first
    entry and append the prediction *)
Fixpoint predict_steps (m : KerasModel) (days : nat) (current_batch : Series)
  : exc Series :=
  match days with
  | O => Ok []
  | S days =>
      out <- keras_predict m [current_batch] ;;
      match out with
      | [] => Raise IndexError
      | current_pred :: _ =>
          rest <- predict_steps m days (tl current_batch ++ [current_pred]) ;;
          Ok (current_pred :: rest)
      end
  end.

(** the last [n] values: [values[-n:]] *)
Definition last_n (n : nat) (s : Series) : Series :=
  skipn (length s - n) s.

(** [predict_future]; the prices are rounded with [round], not with
    [safe_round]; [OtherError] stands for ImportError and for the
    NotFittedError of an unfitted scaler *)
Definition predict_future (self : LSTMStockPredictor) (df : DataFrame) (days : Z)
  : exc (list ForecastPoint) :=
  if negb TENSORFLOW_AVAILABLE then Raise OtherError
  else
    match lp_model self with
    | None => Raise ValueError
    | Some m =>
        let last_data := last_n (lp_lookback self) (map Close df) in
        match lp_scaler self with
        | None => Raise OtherError
        | Some sc =>
            last_data_scaled <- scaler_transform sc (map (fun c => [c]) last_data) ;;
            (* reshape(1, lookback, 1) needs exactly lookback values *)
            if negb (length last_data_scaled =? lp_lookback self)%nat
            then Raise ValueError
            else
              predictions <- predict_steps m (Z.to_nat days)
                               (column 0 last_data_scaled) ;;
              predictions <- scaler_inverse_transform sc
                               (map (fun p => [p]) predictions) ;;
              Ok (map (fun '(i, pred) =>
                         {| fp_date := (now i + (Z.of_nat i + 1))%Z;
                            predictedPrice :=
                              PyFloat (py_round (nth 0 pred NaN) 2) |})
                      (combine (seq 0 (length predictions)) predictions))
        end
    end.

(** [int(n * 0.8)] *)
Definition split_index (n : nat) : nat := (n * 4 / 5)%nat.

(** [calculate_confidence]; [OtherError] stands for the AttributeError of
    [None.predict] *)
Definition calculate_confidence (self : LSTMStockPredictor) (df : DataFrame)
  : float :=
  try_except
    ('(X, y) <- fst (prepare_data self df) ;;
     let split_idx := split_index (length X) in
     let X_val := skipn split_idx X in
     let y_val := skipn split_idx y in
     m <- match lp_model self with
          | Some m => Ok m
          | None => Raise OtherError
          end ;;
     y_pred <- keras_predict m X_val ;;
     d <- np_binop fsub y_val y_pred ;;
     let ss_res := fsum (map fsq d) in
     let mean := np_mean y_val in
     let ss_tot := fsum (map (fun v => fsq (fsub v mean)) y_val) in
     let r2 := fsub (fz 1) (fdiv ss_res ss_tot) in
     let confidence := py_max (fz 0) (py_min (fz 100) (fmul r2 (fz 100))) in
     Ok (py_round confidence 2))
    (fz 75).

Definition predict_with_lstm (df : DataFrame) (days : Z)
  : option ForecastResult :=
  try_except
    (if negb TENSORFLOW_AVAILABLE then Ok None
     else if (length df <? 100)%nat then Ok None
     else
       let predictor := new_predictor 60 in
       match train predictor df with
       | (Raise e, _) => Raise e
       | (Ok _, predictor) =>
           predictions <- predict_future predictor df days ;;
           let confidence := calculate_confidence predictor df in
           Ok (Some {| predictions := predictions;
                       confidence := PyFloat confidence;
                       model := "LSTM Neural Network" |})
       end)
    None.
End Lstm.

Arguments lp_lookback {KerasModel} _.
Arguments lp_scaler {KerasModel} _.
Arguments lp_model {KerasModel} _.
Arguments with_scaler {KerasModel} self sc.
Arguments with_model {KerasModel} self m.
Arguments prepare_data {KerasModel} self df.
Arguments train TENSORFLOW_AVAILABLE {KerasModel} keras_fit self df.
Arguments predict_steps {KerasModel} keras_predict m days current_batch.
Arguments predict_future TENSORFLOW_AVAILABLE {KerasModel} keras_predict now self df days.
Arguments calculate_confidence {KerasModel} keras_predict self df.
Arguments predict_with_lstm TENSORFLOW_AVAILABLE {KerasModel} keras_fit keras_predict now df days.

(** a stand-in for Keras: training does nothing, the prediction for a
    window is its last value *)
Definition stub_fit (X : Matrix) (y : Series) : exc unit := Ok tt.
Definition stub_predict (m : unit) (X : Matrix) : exc Series :=
  Ok (map (fun w => nth 0 (rev w) NaN) X).

(** a quote with a current price and no previous close, and a full quote *)
Definition quote_without_previous : Info :=
  {| info_currentPrice := PyFloat (fz 150);
     info_regularMarketPrice := PyNone;
     info_previousClose := PyNone;
     info_fiftyTwoWeekHigh := PyFloat (fz 200);
     info_fiftyTwoWeekLow := PyFloat (fz 100);
     info_volume := PyInt 1000;
     info_marketCap := PyInt 5000;
     info_longName := Some (chars "Apple Inc.");
     info_shortName := None |}.

Definition full_quote : Info :=
  {| info_currentPrice := PyFloat (fz 150);
     info_regularMarketPrice := PyNone;
     info_previousClose := PyFloat (fz 148);
     info_fiftyTwoWeekHigh := PyFloat (fz 200);
     info_fiftyTwoWeekLow := PyFloat (fz 100);
     info_volume := PyInt 1000;
     info_marketCap := PyInt 5000;
     info_longName := Some (chars "Apple Inc.");
     info_shortName := None |}.

(** a data source that always answers with the [linear 40] frame *)
Definition ticker_ok (t : str) : exc unit := Ok tt.
Definition history_linear40 (t period : str) : exc DataFrame := Ok (linear 40).
Definition exn_text (e : exn) : str := chars "error".

(** a string that does not begin with a space character *)
Definition no_lead (s : str) : Prop :=
  match s with
  | c :: _ => is_space c = false
  | [] => True
  end.

(** what a suggestion is made of: an item of the table that the query
    matches *)
Definition suggestion_of (query_lower : str) (m : Suggestion) : Prop :=
  exists company_name ticker,
    In (company_name, ticker) POPULAR_STOCKS /\
    (contains query_lower company_name || contains query_lower (py_lower ticker)) = true /\
    sg_ticker m = ticker /\
    sg_name m = py_title company_name /\
    sg_display m = ticker ++ chars " - " ++ py_title company_name.

(** neither an uppercase letter nor one of the removed punctuation marks *)
Definition plain_char (c : ascii) : bool :=
  negb (is_upper_letter c) && negb (Ascii.eqb c ",") &&
  negb (Ascii.eqb c ".") && negb (Ascii.eqb c "'").

(** ** Auxiliary notions for further properties *)

(** a gain or a loss of one day: a non-negative number or +inf *)
Definition nonneg_move (x : float) : Prop :=
  match x with
  | Fin q => 0 <= q
  | PInf => True
  | _ => False
  end.

(** what [int(value)] leaves of a volume that is not infinite: the
    truncation, and [safe_int]'s default 0 for NaN *)
Definition volume_int (x : float) : Z :=
  match x with
  | Fin a => Qc_trunc a
  | _ => 0%Z
  end.

(** up 3, up 3, down 1, repeated: a rising series with an RSI above 70 *)
Definition rally (n : nat) : DataFrame :=
  map (fun i => bar i (100 + 5 * Z.of_nat (i / 3) + 3 * Z.of_nat (i mod 3)) (fz 1000))
      (seq 0 n).

(** a series of closes in which no close is lower than the one before *)
Fixpoint nondecreasing_from (prev : Qc) (qs : list Qc) : Prop :=
  match qs with
  | [] => True
  | q :: rest => prev <= q /\ nondecreasing_from q rest
  end.

Definition nondecreasing (qs : list Qc) : Prop :=
  match qs with
  | [] => True
  | q :: rest => nondecreasing_from q rest
  end.

(** a forecast without the dates of its points *)
Definition without_dates (r : ForecastResult) : list pyval * pyval * string :=
  (map predictedPrice (predictions r), confidence r, model r).


(** a flat series with a missing close on the last row but one *)
Definition gap_tail (n : nat) : DataFrame :=
  map (fun i => bar i 100 (fz 1000)) (seq 0 n) ++
  [{| Date := Z.of_nat n; Open := NaN; High := NaN; Low := NaN; Close := NaN;
      Volume := fz 0; Dividends := fz 0; StockSplits := fz 0 |};
   bar (S n) 100 (fz 1000)].

(** * Properties *)

(** ** Rationals and floats *)

Lemma Qc_eqb_eq (a b : Qc) : Qc_eqb a b = true <-> a = b.
Proof.
  unfold Qc_eqb. rewrite Qceq_alt.
  destruct (a ?= b); split; congruence.
Qed.

Lemma Qc_ltb_lt (a b : Qc) : Qc_ltb a b = true <-> a < b.
Proof.
  unfold Qc_ltb. rewrite Qclt_alt.
  destruct (a ?= b); split; congruence.
Qed.

Lemma Qc_eqb_refl (a : Qc) : Qc_eqb a a = true.
Proof. now apply Qc_eqb_eq. Qed.

Lemma Qc_eqb_neq (a b : Qc) : Qc_eqb a b = false <-> a <> b.
Proof.
  rewrite <- Qc_eqb_eq. destruct (Qc_eqb a b); split; congruence.
Qed.

Lemma isfinite_Fin (x : float) : isfinite x = true -> exists q, x = Fin q.
Proof. destruct x; simpl; try discriminate. intros _. now exists q. Qed.

Lemma isfinite_not (x : float) :
  isfinite x = negb (isnan x || isinf x).
Proof. now destruct x. Qed.

Lemma fadd_nonfinite_l (x y : float) :
  isfinite x = false -> isfinite (fadd x y) = false.
Proof. destruct x, y; simpl; congruence. Qed.

Lemma fadd_nonfinite_r (x y : float) :
  isfinite y = false -> isfinite (fadd x y) = false.
Proof. destruct x, y; simpl; congruence. Qed.

Lemma fold_fadd_nonfinite (xs : list float) (acc : float) :
  isfinite acc = false -> isfinite (fold_left fadd xs acc) = false.
Proof.
  revert acc. induction xs as [|x xs IH]; simpl; intros acc H; auto.
  apply IH. now apply fadd_nonfinite_l.
Qed.

Lemma fsum_nonfinite (xs : list float) :
  existsb (fun x => negb (isfinite x)) xs = true ->
  isfinite (fsum xs) = false.
Proof.
  unfold fsum. generalize (fz 0).
  induction xs as [|x xs IH]; simpl; intros acc H; [discriminate|].
  apply orb_true_iff in H. destruct H as [H|H].
  - apply fold_fadd_nonfinite, fadd_nonfinite_r.
    now destruct (isfinite x).
  - now apply IH.
Qed.

Lemma fold_fadd_Fin (qs : list Qc) (a : Qc) :
  fold_left fadd (map Fin qs) (Fin a) = Fin (fold_left Qcplus qs a).
Proof.
  revert a. induction qs as [|q qs IH]; simpl; intros a; auto.
Qed.

(** ** Rounding *)

Lemma round_half_even_bounds (q : Q) (lo hi : Z) :
  (inject_Z lo <= q)%Q -> (q <= inject_Z hi)%Q ->
  (lo <= round_half_even q <= hi)%Z.
Proof.
  intros Hlo Hhi. unfold round_half_even.
  assert (Hf1 : (lo <= Qfloor q)%Z).
  { rewrite <- (Qfloor_Z lo). now apply Qfloor_resp_le. }
  assert (Hf2 : (Qfloor q <= hi)%Z).
  { rewrite <- (Qfloor_Z hi). now apply Qfloor_resp_le. }
  destruct (Z.eq_dec (Qfloor q) hi) as [E|E].
  - assert (Hlt : (q - inject_Z (Qfloor q) < 1 # 2)%Q).
    { rewrite E. lra. }
    rewrite Qlt_alt in Hlt. rewrite Hlt. lia.
  - destruct (Qcompare _ _); try lia. destruct (Z.even _); lia.
Qed.

Lemma this_ofZ (n : Z) : (this (ofZ n) == inject_Z n)%Q.
Proof. apply Qred_correct. Qed.

Lemma Qc_this_mul (a b : Qc) : (this (a * b) == this a * this b)%Q.
Proof. apply Qred_correct. Qed.

Lemma Qc_this_inv (a : Qc) : (this (/ a) == / this a)%Q.
Proof. apply Qred_correct. Qed.

Lemma ofZ_pos_neq (n : nat) : (0 < n)%nat -> Qc_eqb (ofZ (Z.of_nat n)) 0 = false.
Proof.
  intros H. apply Qc_eqb_neq. intros E.
  apply (f_equal this) in E. 
  assert (Hq : (inject_Z (Z.of_nat n) == 0)%Q).
  { rewrite <- this_ofZ, E. reflexivity. }
  unfold Qeq in Hq. simpl in Hq. lia.
Qed.

Lemma Qc_this_div (a b : Qc) : (this (a / b) == this a / this b)%Q.
Proof.
  unfold Qcdiv. rewrite Qc_this_mul, Qc_this_inv. reflexivity.
Qed.

Lemma Qc_this_plus (a b : Qc) : (this (a + b) == this a + this b)%Q.
Proof. apply Qred_correct. Qed.

Lemma Qc_this_opp (a : Qc) : (this (- a) == - this a)%Q.
Proof. apply Qred_correct. Qed.

Lemma Qcdiv_nonneg (a b : Qc) : 0 <= a -> 0 < b -> 0 <= a / b.
Proof.
  unfold Qcle, Qclt. intros Ha Hb. rewrite Qc_this_div.
  change (this 0) with 0%Q in *.
  apply Qle_shift_div_l; [exact Hb | lra].
Qed.

Lemma ofZ_nat_pos (n : nat) : (0 < n)%nat -> 0 < ofZ (Z.of_nat n).
Proof.
  intros H. unfold Qclt. rewrite this_ofZ. change (this 0) with (inject_Z 0).
  rewrite <- Zlt_Qlt. lia.
Qed.

Lemma py_round2_Fin (a : Qc) :
  py_round (Fin a) 2 =
  Fin (ofZ (round_half_even (this (a * ofZ 100))) / ofZ 100).
Proof. reflexivity. Qed.

(** rounding to two decimals keeps a value inside [0, 100] *)
Lemma py_round2_bounds (a : Qc) :
  0 <= a -> a <= ofZ 100 ->
  exists c, py_round (Fin a) 2 = Fin c /\ 0 <= c /\ c <= ofZ 100.
Proof.
  intros H0 H1. rewrite py_round2_Fin. eexists. split; [reflexivity|].
  set (r := round_half_even _).
  assert (Hr : (0 <= r <= 10000)%Z).
  { unfold Qcle in H0, H1. rewrite this_ofZ in H1.
    change (this 0) with 0%Q in H0.
    apply round_half_even_bounds; rewrite Qc_this_mul;
      change (this (ofZ 100)) with (100 # 1)%Q;
      change (inject_Z 100) with (100 # 1)%Q in H1.
    - change (inject_Z 0) with 0%Q. lra.
    - change (inject_Z 10000) with (10000 # 1)%Q. lra. }
  clearbody r.
  assert (Hq : (0 <= inject_Z r <= 10000 # 1)%Q).
  { split; [change 0%Q with (inject_Z 0)
           |change (10000 # 1)%Q with (inject_Z 10000)];
      rewrite <- Zle_Qle; lia. }
  unfold Qcle, Qcdiv.
  rewrite Qc_this_mul, Qc_this_inv, !this_ofZ.
  change (this 0) with 0%Q. change (inject_Z 100) with (100 # 1)%Q.
  change (/ (100 # 1))%Q with (1 # 100)%Q.
  split; lra.
Qed.

Lemma safe_round_float (x : float) :
  safe_round (PyFloat x) 2 =
  if isfinite x then PyFloat (py_round x 2) else PyNone.
Proof. now destruct x. Qed.

Lemma safe_round_two_decimals (a : Qc) :
  two_decimals (safe_round (PyFloat (Fin a)) 2).
Proof.
  rewrite safe_round_float. cbn [isfinite]. rewrite py_round2_Fin.
  now eexists.
Qed.

Lemma safe_round_none_or_two_decimals (x : float) :
  none_or_two_decimals (safe_round (PyFloat x) 2).
Proof.
  destruct x; try (now left). right. apply safe_round_two_decimals.
Qed.

Lemma safe_round_nonfinite (x : float) :
  isfinite x = false -> safe_round (PyFloat x) 2 = PyNone.
Proof. intros H. now rewrite safe_round_float, H. Qed.

(** rounding half to even moves a value by at most one half *)
Lemma round_half_even_near (q : Q) :
  (q - (1 # 2) <= inject_Z (round_half_even q) /\
   inject_Z (round_half_even q) <= q + (1 # 2))%Q.
Proof.
  unfold round_half_even.
  pose proof (Qfloor_le q) as Hlo. pose proof (Qlt_floor q) as Hhi.
  rewrite inject_Z_plus in Hhi. change (inject_Z 1) with 1%Q in Hhi.
  destruct (Qcompare_spec (q - inject_Z (Qfloor q)) (1 # 2)) as [E|E|E].
  - destruct (Z.even _).
    + split; lra.
    + rewrite inject_Z_plus. change (inject_Z 1) with 1%Q. split; lra.
  - split; lra.
  - rewrite inject_Z_plus. change (inject_Z 1) with 1%Q. split; lra.
Qed.

(** the output field of a finite value is that value rounded to two
    decimals *)
Lemma safe_round_rounding (a : Qc) :
  two_decimal_rounding (safe_round (PyFloat (Fin a)) 2) a.
Proof.
  rewrite safe_round_float. cbn [isfinite]. rewrite py_round2_Fin.
  eexists. split; [reflexivity|].
  set (k := round_half_even _).
  destruct (round_half_even_near (this (a * ofZ 100))) as [Hlo Hhi].
  fold k in Hlo, Hhi. rewrite Qc_this_mul in Hlo, Hhi.
  change (this (ofZ 100)) with (100 # 1)%Q in Hlo, Hhi.
  unfold Qcle, Qcminus. rewrite !Qc_this_plus, Qc_this_opp, Qc_this_div, this_ofZ.
  change (this (ofZ 100)) with (100 # 1)%Q.
  change (this (Q2Qc (1 # 200))) with (1 # 200)%Q.
  unfold Qdiv. change (/ (100 # 1))%Q with (1 # 100)%Q.
  split; lra.
Qed.

(** ** Rows of the indicator engine *)

Lemma bind_Ok {A B : Type} (c : exc A) (k : A -> exc B) (b : B) :
  bind c k = Ok b -> exists a, c = Ok a /\ k a = Ok b.
Proof. destruct c; simpl; [eauto | discriminate]. Qed.

Lemma Ok_inj {A : Type} (a b : A) : Ok a = Ok b -> a = b.
Proof. congruence. Qed.

Lemma mapM_nth {A B : Type} (f : A -> exc B) (l : list A) (ys : list B) :
  mapM f l = Ok ys ->
  forall i y, nth_error ys i = Some y ->
  exists x, nth_error l i = Some x /\ f x = Ok y.
Proof.
  revert ys. induction l as [|x l IH]; simpl; intros ys H i y Hi.
  - inversion H; subst. now destruct i.
  - apply bind_Ok in H. destruct H as (y0 & Hy0 & H).
    apply bind_Ok in H. destruct H as (ys0 & Hys0 & H).
    inversion H; subst. destruct i as [|i]; simpl in Hi.
    + inversion Hi; subst. exists x. split; [reflexivity | exact Hy0].
    + simpl. eapply IH; eauto.
Qed.

Lemma mapM_length {A B : Type} (f : A -> exc B) (l : list A) (ys : list B) :
  mapM f l = Ok ys -> length ys = length l.
Proof.
  revert ys. induction l as [|x l IH]; simpl; intros ys H.
  - now inversion H.
  - apply bind_Ok in H. destruct H as (y0 & Hy0 & H).
    apply bind_Ok in H. destruct H as (ys0 & Hys0 & H).
    inversion H; subst. simpl. f_equal. now apply IH.
Qed.

Lemma nth_error_enumerate {A : Type} (l : list A) (i k : nat) (j : nat) (x : A) :
  nth_error (combine (seq k (length l)) l) i = Some (j, x) ->
  j = (k + i)%nat /\ nth_error l i = Some x.
Proof.
  revert i k. induction l as [|y l IH]; simpl; intros i k H.
  - now destruct i.
  - destruct i as [|i]; simpl in H.
    + inversion H; subst. split; [lia | reflexivity].
    + apply IH in H. destruct H as [-> H]. split; [lia | exact H].
Qed.

(** every output row comes from the input row of the same index *)
Lemma get_historical_data_row (history : exc DataFrame) (i : nat) (r : IndicatorRow) :
  nth_error (get_historical_data history) i = Some r ->
  exists df p,
    history = Ok df /\ nth_error df i = Some p /\
    historical_row (rolling_mean 7 (map Close df))
                   (rolling_mean 20 (map Close df))
                   (rolling_mean 50 (map Close df))
                   (calculate_rsi (map Close df) 14)
                   (fst (calculate_macd (map Close df) 12 26 9))
                   (snd (calculate_macd (map Close df) 12 26 9))
                   i p = Ok r.
Proof.
  unfold get_historical_data. destruct history as [df|e]; simpl.
  2: { now destruct i. }
  destruct (length df =? 0)%nat; simpl.
  { now destruct i. }
  match goal with |- context [mapM ?f ?l] =>
    destruct (mapM f l) as [rows|e] eqn:E end; simpl.
  2: { now destruct i. }
  intros Hi. destruct (mapM_nth _ _ _ E _ _ Hi) as ([j p] & Hp & Hr).
  apply nth_error_enumerate in Hp. destruct Hp as [-> Hp].
  exists df, p. auto.
Qed.

Lemma historical_row_fields MA7 MA20 MA50 RSI MACD Signal i p r :
  historical_row MA7 MA20 MA50 RSI MACD Signal i p = Ok r ->
  open r = safe_round (PyFloat (Open p)) 2 /\
  high r = safe_round (PyFloat (High p)) 2 /\
  low r = safe_round (PyFloat (Low p)) 2 /\
  close r = safe_round (PyFloat (Close p)) 2 /\
  ma7 r = safe_round (get MA7 i) 2 /\
  ma20 r = safe_round (get MA20 i) 2 /\
  ma50 r = safe_round (get MA50 i) 2 /\
  rsi r = safe_round (get RSI i) 2 /\
  macd r = safe_round (get MACD i) 2 /\
  signal r = safe_round (get Signal i) 2.
Proof.
  unfold historical_row. intros H.
  apply bind_Ok in H. destruct H as (vol & _ & H).
  inversion H; subst; simpl. repeat split.
Qed.

(** ** Rolling means *)

Lemma nth_map_seq {A : Type} (f : nat -> A) (n i : nat) (d : A) :
  (i < n)%nat -> nth i (map f (seq 0 n)) d = f i.
Proof.
  intros H. rewrite (nth_indep _ d (f 0%nat)) by (now rewrite length_map, length_seq).
  rewrite map_nth. now rewrite seq_nth.
Qed.

Lemma nth_rolling_mean (w : nat) (s : Series) (i : nat) :
  (i < length s)%nat -> nth i (rolling_mean w s) NaN = roll_mean_at w w s i.
Proof. intros H. unfold rolling_mean. now apply nth_map_seq. Qed.

Lemma length_rolling_mean (w : nat) (s : Series) :
  length (rolling_mean w s) = length s.
Proof. unfold rolling_mean. now rewrite length_map, length_seq. Qed.

Lemma length_window_le (w i : nat) (s : Series) :
  (length (window w i s) <= i + 1)%nat.
Proof.
  unfold window. rewrite length_skipn, length_firstn. lia.
Qed.

Lemma length_filter_le {A : Type} (f : A -> bool) (l : list A) :
  (length (filter f l) <= length l)%nat.
Proof.
  induction l as [|x l IH]; simpl; [lia|]. destruct (f x); simpl; lia.
Qed.

(** before the window is full the rolling mean is NaN *)
Lemma roll_mean_at_short (w : nat) (s : Series) (i : nat) :
  (i + 1 < w)%nat -> roll_mean_at w w s i = NaN.
Proof.
  intros H. unfold roll_mean_at.
  match goal with |- context [(w <=? ?n)%nat] =>
    destruct (Nat.leb_spec w n) as [Hle|Hlt]; [exfalso|reflexivity] end.
  pose proof (length_filter_le (fun x => negb (isnan x))
                (map prep_value (window w i s))) as H1.
  rewrite length_map in H1. pose proof (length_window_le w i s). lia.
Qed.

Lemma firstn_map_nth {A : Type} (d : A) (w : nat) (s : list A) :
  (w <= length s)%nat -> firstn w s = map (fun j => nth j s d) (seq 0 w).
Proof.
  revert s. induction w as [|w IH]; intros s H; [reflexivity|].
  destruct s as [|x s]; simpl in H; [lia|].
  cbn [firstn seq map nth]. f_equal.
  rewrite <- seq_shift, map_map. apply IH. lia.
Qed.

Lemma skipn_firstn_map_nth {A : Type} (d : A) (k w : nat) (s : list A) :
  (k + w <= length s)%nat ->
  skipn k (firstn (k + w) s) = map (fun j => nth j s d) (seq k w).
Proof.
  revert s. induction k as [|k IH]; intros s H.
  - simpl. now apply firstn_map_nth.
  - destruct s as [|x s]; simpl in H; [lia|].
    cbn [Nat.add firstn skipn]. rewrite IH by lia.
    now rewrite <- seq_shift, map_map.
Qed.

(** a full window is the [w] trailing values *)
Lemma window_trailing (w i : nat) (s : Series) :
  (i < length s)%nat -> (w <= i + 1)%nat -> window w i s = trailing w i s.
Proof.
  intros Hi Hw. unfold window, trailing.
  replace (i + 1)%nat with ((i + 1 - w) + w)%nat at 2 by lia.
  apply skipn_firstn_map_nth. lia.
Qed.

Lemma length_trailing (w i : nat) (s : Series) : length (trailing w i s) = w.
Proof. unfold trailing. now rewrite length_map, length_seq. Qed.

Lemma observations_all (l : Series) :
  forallb isfinite l = true ->
  filter (fun x => negb (isnan x)) (map prep_value l) = l.
Proof.
  induction l as [|x l IH]; simpl; intros H; [reflexivity|].
  apply andb_true_iff in H. destruct H as [Hx Hl].
  destruct x; try discriminate. simpl. f_equal. now apply IH.
Qed.

Lemma observations_fewer (l : Series) :
  forallb isfinite l = false ->
  (length (filter (fun x => negb (isnan x)) (map prep_value l)) < length l)%nat.
Proof.
  induction l as [|x l IH]; simpl; intros H; [discriminate|].
  pose proof (length_filter_le (fun x => negb (isnan x)) (map prep_value l)) as Hle.
  rewrite length_map in Hle.
  destruct x; simpl in *; try lia.
  specialize (IH H). lia.
Qed.

Lemma forallb_existsb_neg {A : Type} (f : A -> bool) (l : list A) :
  forallb f l = false -> existsb (fun x => negb (f x)) l = true.
Proof.
  induction l as [|x l IH]; simpl; [discriminate|].
  destruct (f x); simpl; auto.
Qed.

Lemma fdiv_nonfinite (x : float) (b : Qc) :
  isfinite x = false -> isfinite (fdiv x (Fin b)) = false.
Proof.
  destruct x; simpl; try congruence; intros _.
  - destruct (Qc_eqb b 0) eqn:E; simpl; [reflexivity|].
    unfold Qc_sgn. apply Qc_eqb_neq in E. rewrite Qceq_alt in E.
    now destruct (b ?= 0).
  - destruct (Qc_eqb b 0) eqn:E; simpl; [reflexivity|].
    unfold Qc_sgn. apply Qc_eqb_neq in E. rewrite Qceq_alt in E.
    now destruct (b ?= 0).
Qed.

(** on a full window the rolling mean and the arithmetic mean of the window
    give the same output field *)
Lemma roll_mean_at_full (w : nat) (s : Series) (i : nat) :
  (i < length s)%nat -> (w <= i + 1)%nat ->
  safe_round (PyFloat (roll_mean_at w w s i)) 2 =
  safe_round (PyFloat (arith_mean (trailing w i s))) 2.
Proof.
  intros Hi Hw. unfold roll_mean_at. rewrite window_trailing by assumption.
  pose proof (length_trailing w i s) as Hlen.
  destruct (forallb isfinite (trailing w i s)) eqn:E.
  - rewrite observations_all by assumption.
    rewrite Hlen, Nat.leb_refl. unfold arith_mean. now rewrite Hlen.
  - apply observations_fewer in E as Hlt. rewrite Hlen in Hlt.
    apply Nat.leb_gt in Hlt. rewrite Hlt.
    symmetry. apply safe_round_nonfinite.
    unfold arith_mean. apply fdiv_nonfinite, fsum_nonfinite.
    now apply forallb_existsb_neg.
Qed.

(** the arithmetic mean of finite values is finite: their sum over their
    number *)
Lemma arith_mean_Fin (qs : list Qc) :
  qs <> [] ->
  arith_mean (map Fin qs) =
  Fin (fold_left Qcplus qs 0 / ofZ (Z.of_nat (length qs))).
Proof.
  intros H. unfold arith_mean, fsum. rewrite fold_fadd_Fin, length_map.
  unfold fdiv. rewrite ofZ_pos_neq; [reflexivity|].
  destruct qs; [congruence | simpl; lia].
Qed.

(** ** RSI *)

Lemma length_diff_from (prev : float) (s : Series) :
  length (diff_from prev s) = length s.
Proof. revert prev. induction s; simpl; auto. Qed.

Lemma length_diff (s : Series) : length (diff s) = length s.
Proof. destruct s; simpl; [reflexivity|]. now rewrite length_diff_from. Qed.

Lemma length_rsi_gain (s : Series) (period : nat) :
  length (rsi_gain s period) = length s.
Proof.
  unfold rsi_gain, where_.
  now rewrite length_rolling_mean, length_map, length_diff.
Qed.

Lemma length_rsi_loss (s : Series) (period : nat) :
  length (rsi_loss s period) = length s.
Proof.
  unfold rsi_loss, where_.
  now rewrite length_rolling_mean, !length_map, length_diff.
Qed.

Lemma nth_map_default {A B : Type} (f : A -> B) (l : list A) (i : nat) (d : A) (d' : B) :
  f d = d' -> nth i (map f l) d' = f (nth i l d).
Proof. intros <-. apply map_nth. Qed.

Lemma nth_map2 {A B C : Type} (f : A -> B -> C) (l : list A) (l' : list B)
    (i : nat) (a : A) (b : B) (c : C) :
  (i < length l)%nat -> (i < length l')%nat ->
  nth i (map2 f l l') c = f (nth i l a) (nth i l' b).
Proof.
  revert l' i. induction l as [|x l IH]; intros [|y l'] i; simpl; try lia.
  destruct i as [|i]; intros H H'; [reflexivity|]. apply IH; lia.
Qed.

Lemma length_map2 {A B C : Type} (f : A -> B -> C) (l : list A) (l' : list B) :
  length (map2 f l l') = Nat.min (length l) (length l').
Proof.
  revert l'. induction l as [|x l IH]; intros [|y l']; simpl; auto.
Qed.

Lemma nth_calculate_rsi (s : Series) (i : nat) :
  (i < length s)%nat ->
  nth i (calculate_rsi s 14) NaN =
  rsi_at (nth i (rsi_gain s 14) NaN) (nth i (rsi_loss s 14) NaN).
Proof.
  intros H. unfold calculate_rsi, try_except, replace.
  rewrite (nth_map_default _ _ _ NaN NaN) by reflexivity.
  rewrite (nth_map2 _ _ _ _ NaN NaN NaN).
  - unfold rsi_at. do 3 f_equal.
    now rewrite (nth_map_default _ _ _ NaN NaN).
  - now rewrite length_rsi_gain.
  - now rewrite length_map, length_rsi_loss.
Qed.

Lemma rsi_at_nan_gain (loss : float) : rsi_at NaN loss = NaN.
Proof. reflexivity. Qed.

Lemma rsi_at_zero_loss (gain : float) : rsi_at gain (fz 0) = NaN.
Proof. unfold rsi_at. now destruct gain. Qed.

Lemma nth_rsi_gain_short (s : Series) (i : nat) :
  (i < length s)%nat -> (i < 13)%nat -> nth i (rsi_gain s 14) NaN = NaN.
Proof.
  intros Hi H. unfold rsi_gain. rewrite nth_rolling_mean.
  - apply roll_mean_at_short. lia.
  - unfold where_. now rewrite length_map, length_diff.
Qed.

(** ** Evaluation on fixtures *)

Ltac qc_eq := apply Qc_is_canon; vm_compute; reflexivity.

Ltac value_eq :=
  lazymatch goal with
  | |- @eq Qc _ _ => qc_eq
  | |- @eq float (Fin _) (Fin _) => apply f_equal; value_eq
  | |- @eq pyval (PyFloat _) (PyFloat _) => apply f_equal; value_eq
  | |- @eq (exc _) (Ok _) (Ok _) => apply f_equal; value_eq
  | |- @eq (option _) (Some _) (Some _) => apply f_equal; value_eq
  | |- @eq (_ * _) (_, _) (_, _) => apply f_equal2; value_eq
  | |- _ => reflexivity
  end.

Lemma SignalResult_eq (a b : SignalResult) :
  sr_signal a = sr_signal b -> sr_strength a = sr_strength b ->
  sr_rsi a = sr_rsi b -> sr_price_vs_ma20 a = sr_price_vs_ma20 b -> a = b.
Proof. destruct a, b; simpl; congruence. Qed.

Ltac signal_eq := vm_compute; apply SignalResult_eq; vm_compute; value_eq.

Lemma flat25_signal :
  get_sentiment_signal (Ok flat25) =
  {| sr_signal := "SELL";
     sr_strength := PyFloat (fz 60);
     sr_rsi := PyFloat (fz 50);
     sr_price_vs_ma20 := PyFloat (fz 0) |}.
Proof. signal_eq. Qed.

Lemma flat25_inputs : signal_inputs flat25 = Ok (fz 100, fz 100, fz 50).
Proof. vm_compute. value_eq. Qed.

Lemma flat25_rsi_absent : iloc_last (calculate_rsi (map Close flat25) 14) = Ok NaN.
Proof. reflexivity. Qed.

Lemma zigzag14_rsi_row13 :
  exists r, nth_error (get_historical_data (Ok (zigzag 14))) 13 = Some r /\
            rsi r = PyFloat (Fin (Q2Qc (5294 # 100))).
Proof.
  destruct (nth_error (get_historical_data (Ok (zigzag 14))) 13) as [r|] eqn:E.
  - exists r. split; [reflexivity|].
    vm_compute in E. inversion E; subst; clear E.
    cbn [rsi]. value_eq.
  - vm_compute in E. discriminate.
Qed.

Lemma nth_error_lt {A : Type} (l : list A) (i : nat) (x : A) :
  nth_error l i = Some x -> (i < length l)%nat.
Proof. intros H. apply nth_error_Some. congruence. Qed.

(** the RSI field of an output row is the rounded value of [rsi_at] *)
Lemma rsi_field (df : DataFrame) (i : nat) (r : IndicatorRow) :
  nth_error (get_historical_data (Ok df)) i = Some r ->
  rsi r = safe_round
            (PyFloat (rsi_at (nth i (rsi_gain (map Close df) 14) NaN)
                             (nth i (rsi_loss (map Close df) 14) NaN))) 2.
Proof.
  intros H. apply get_historical_data_row in H.
  destruct H as (df' & p & Hdf & Hp & Hr). inversion Hdf; subst df'.
  apply historical_row_fields in Hr.
  destruct Hr as (_ & _ & _ & _ & _ & _ & _ & Hrsi & _).
  rewrite Hrsi. unfold get. rewrite nth_calculate_rsi; [reflexivity|].
  rewrite length_map. eapply nth_error_lt; eauto.
Qed.

(** ** The signal classifier on the flat fixture *)

(** C1 (as amended): for the series whose close is flat at 100 for 25 days
    the classifier reads current price 100, MA20 100 and, the RSI of the last
    row being absent, the RSI fallback 50; the price is not above MA20, so the
    score is -1 and the result is SELL with strength 60, RSI 50 and price
    deviation 0. *)
Theorem flat_series_signal_is_sell :
  iloc_last (calculate_rsi (map Close flat25) 14) = Ok NaN /\
  signal_inputs flat25 = Ok (fz 100, fz 100, fz 50) /\
  signal_score (fz 100) (fz 100) (fz 50) = (-1)%Z /\
  get_sentiment_signal (Ok flat25) =
  {| sr_signal := "SELL";
     sr_strength := PyFloat (fz 60);
     sr_rsi := PyFloat (fz 50);
     sr_price_vs_ma20 := PyFloat (fz 0) |}.
Proof.
  split; [exact flat25_rsi_absent|].
  split; [exact flat25_inputs|].
  split; [reflexivity | exact flat25_signal].
Qed.

(** C1 (as stated) fails: on the flat fixture the label is not HOLD and the
    strength is not 50. *)
Lemma flat_series_signal_not_hold :
  ~ (sr_signal (get_sentiment_signal (Ok flat25)) = "HOLD"%string /\
     sr_strength (get_sentiment_signal (Ok flat25)) = PyFloat (fz 50)).
Proof.
  rewrite flat25_signal. simpl. intros [H _]. discriminate H.
Qed.

(** ** Indicator engine: RSI warm-up *)

(** C2 (as amended): the RSI field is absent for the first 13 rows (row
    indices 0 to 12) of every series, and row index 13 is the earliest row
    that can carry a value: the zigzag fixture has one there. *)
Theorem rsi_absent_first_13_rows :
  (forall (history : exc DataFrame) (i : nat) (r : IndicatorRow),
      nth_error (get_historical_data history) i = Some r ->
      (i < 13)%nat -> rsi r = PyNone) /\
  (exists (history : exc DataFrame) (r : IndicatorRow),
      nth_error (get_historical_data history) 13 = Some r /\
      rsi r <> PyNone).
Proof.
  split.
  - intros history i r H Hi.
    destruct (get_historical_data_row _ _ _ H) as (df & p & -> & Hp & _).
    rewrite (rsi_field _ _ _ H).
    rewrite nth_rsi_gain_short; [reflexivity| |exact Hi].
    rewrite length_map. eapply nth_error_lt; eauto.
  - destruct zigzag14_rsi_row13 as (r & Hr & Hv).
    exists (Ok (zigzag 14)), r. split; [exact Hr|].
    rewrite Hv. discriminate.
Qed.

Lemma rsi_absent_first_13_rows_witness :
  exists r, nth_error (get_historical_data (Ok (zigzag 14))) 5 = Some r /\
            rsi r = PyNone.
Proof.
  destruct (nth_error (get_historical_data (Ok (zigzag 14))) 5) as [r|] eqn:E.
  - exists r. split; [reflexivity|].
    apply (proj1 rsi_absent_first_13_rows (Ok (zigzag 14)) 5%nat r E). lia.
  - vm_compute in E. discriminate.
Defined.

(** C2 (as stated) fails: on the 14-row zigzag fixture the RSI of row 13,
    one of the first 14 rows, is defined. *)
Lemma rsi_defined_at_row_13 :
  ~ (forall (i : nat) (r : IndicatorRow),
        (i < 14)%nat ->
        nth_error (get_historical_data (Ok (zigzag 14))) i = Some r ->
        rsi r = PyNone).
Proof.
  intros H. destruct zigzag14_rsi_row13 as (r & Hr & Hv).
  specialize (H 13%nat r ltac:(lia) Hr). rewrite Hv in H. discriminate.
Qed.

(** ** Indicator engine: moving averages *)

Lemma forallb_isfinite_Fin (qs : list Qc) : forallb isfinite (map Fin qs) = true.
Proof. induction qs; simpl; auto. Qed.

(** on a full window of finite closes the rolling mean is their exact mean *)
Lemma roll_mean_at_finite (w : nat) (s : Series) (i : nat) (qs : list Qc) :
  (i < length s)%nat -> (0 < w)%nat -> (w <= i + 1)%nat ->
  trailing w i s = map Fin qs ->
  roll_mean_at w w s i = Fin (exact_mean qs).
Proof.
  intros Hi Hw Hc Hqs. unfold roll_mean_at.
  rewrite window_trailing, Hqs by assumption.
  rewrite observations_all by apply forallb_isfinite_Fin.
  pose proof (length_trailing w i s) as Hlen. rewrite Hqs in Hlen.
  rewrite Hlen, Nat.leb_refl.
  change (fdiv (fsum (map Fin qs)) (Fin (ofZ (Z.of_nat w))))
    with (fdiv (fsum (map Fin qs)) (fz (Z.of_nat w))).
  rewrite <- Hlen. fold (arith_mean (map Fin qs)).
  apply arith_mean_Fin. destruct qs; [simpl in Hlen; lia | discriminate].
Qed.

Lemma Qc_leb_le (a b : Qc) : Qc_leb a b = true -> a <= b.
Proof.
  unfold Qc_leb. intros H. apply negb_true_iff in H.
  apply Qcnot_lt_le. intros Hlt. apply Qc_ltb_lt in Hlt. congruence.
Qed.

Lemma bounded_by_nonneg (bound q : Qc) :
  bounded_by bound (Fin q) = true -> 0 <= bound.
Proof.
  cbn [bounded_by]. intros H. apply andb_true_iff in H. destruct H as [H1 H2].
  apply Qc_leb_le in H1, H2. unfold Qcle in *.
  rewrite Qc_this_opp in H1. change (this 0) with 0%Q. lra.
Qed.

Lemma float_allowance_nonneg (n : nat) (bound : Qc) :
  0 <= bound -> 0 <= float_allowance n bound.
Proof.
  intros H. unfold float_allowance. apply Qcdiv_nonneg.
  - unfold Qcle in *. rewrite Qc_this_mul, this_ofZ.
    change (this 0) with 0%Q in *.
    apply Qmult_le_0_compat; [|exact H].
    change 0%Q with (inject_Z 0). rewrite <- Zle_Qle. lia.
  - unfold Qclt. rewrite this_ofZ. change (this 0) with (inject_Z 0).
    rewrite <- Zlt_Qlt. lia.
Qed.

Lemma approximates_refl (tol x : Qc) : 0 <= tol -> approximates tol x x.
Proof.
  intros H. unfold approximates, Qcle, Qcminus in *.
  rewrite !Qc_this_plus, Qc_this_opp. change (this 0) with 0%Q in H.
  split; lra.
Qed.

Lemma nth_Fin_In (s : Series) (j : nat) (q : Qc) :
  nth j s NaN = Fin q -> In (Fin q) s.
Proof.
  intros H. destruct (Nat.lt_ge_cases j (length s)) as [Hlt|Hge].
  - rewrite <- H. now apply nth_In.
  - rewrite nth_overflow in H by exact Hge. discriminate.
Qed.

(** a window of finite values inside a bounded series: the bound is not
    negative, and neither is the allowance *)
Lemma window_allowance (w i n : nat) (s : Series) (qs : list Qc) (bound : Qc) :
  (0 < w)%nat ->
  trailing w i s = map Fin qs ->
  forallb (bounded_by bound) s = true ->
  0 <= float_allowance n bound.
Proof.
  intros Hw Hqs Hb. apply float_allowance_nonneg.
  destruct w as [|w]; [lia|]. unfold trailing in Hqs.
  cbn [seq map] in Hqs. destruct qs as [|q qs]; [discriminate|].
  injection Hqs as Hq _. apply nth_Fin_In in Hq.
  rewrite forallb_forall in Hb. apply (bounded_by_nonneg bound q). now apply Hb.
Qed.

(** C3: for every series and every window w in 7, 20, 50, the w-day
    moving-average field of row i is absent when i < w-1; for i >= w-1 it is
    absent when one of the w trailing closes ending at row i is missing or
    infinite, and otherwise it is the arithmetic mean of these w closes,
    rounded to 2 decimals at the output only: the field is a nearest
    two-decimal number of the computed mean, and the computed mean is the
    exact mean up to the allowance made for binary64 rounding.  The closes
    of the frame are of magnitude at most [bound], itself at most
    [no_overflow_bound], so that the running sum of the window does not
    overflow. *)
Theorem moving_average_fields (history : exc DataFrame) (i : nat) (r : IndicatorRow) :
  nth_error (get_historical_data history) i = Some r ->
  exists df, history = Ok df /\
    forall (w : nat) (field : pyval),
      In (w, field) [(7%nat, ma7 r); (20%nat, ma20 r); (50%nat, ma50 r)] ->
      ((i < w - 1)%nat -> field = PyNone) /\
      ((w - 1 <= i)%nat ->
       forallb isfinite (trailing w i (map Close df)) = false ->
       field = PyNone) /\
      (forall (qs : list Qc) (bound : Qc),
          (w - 1 <= i)%nat ->
          trailing w i (map Close df) = map Fin qs ->
          forallb (bounded_by bound) (map Close df) = true ->
          bound <= no_overflow_bound ->
          exists computed : Qc,
            nth i (rolling_mean w (map Close df)) NaN = Fin computed /\
            approximates (float_allowance (i + 1) bound) computed (exact_mean qs) /\
            two_decimal_rounding field computed).
Proof.
  intros H.
  destruct (get_historical_data_row _ _ _ H) as (df & p & -> & Hp & Hr).
  exists df. split; [reflexivity|].
  apply historical_row_fields in Hr.
  destruct Hr as (_ & _ & _ & _ & H7 & H20 & H50 & _).
  assert (Hi : (i < length (map Close df))%nat).
  { rewrite length_map. eapply nth_error_lt; eauto. }
  assert (G : forall w, (0 < w)%nat ->
            ((i < w - 1)%nat ->
             safe_round (get (rolling_mean w (map Close df)) i) 2 = PyNone) /\
            ((w - 1 <= i)%nat ->
             forallb isfinite (trailing w i (map Close df)) = false ->
             safe_round (get (rolling_mean w (map Close df)) i) 2 = PyNone) /\
            (forall (qs : list Qc) (bound : Qc),
                (w - 1 <= i)%nat ->
                trailing w i (map Close df) = map Fin qs ->
                forallb (bounded_by bound) (map Close df) = true ->
                bound <= no_overflow_bound ->
                exists computed : Qc,
                  nth i (rolling_mean w (map Close df)) NaN = Fin computed /\
                  approximates (float_allowance (i + 1) bound) computed (exact_mean qs) /\
                  two_decimal_rounding
                    (safe_round (get (rolling_mean w (map Close df)) i) 2) computed)).
  { intros w Hw. unfold get. rewrite nth_rolling_mean by exact Hi.
    split; [|split].
    - intros Hc. rewrite roll_mean_at_short by lia. reflexivity.
    - intros Hc Hnf. rewrite roll_mean_at_full by (exact Hi || lia).
      apply safe_round_nonfinite. unfold arith_mean.
      apply fdiv_nonfinite, fsum_nonfinite. now apply forallb_existsb_neg.
    - intros qs bound Hc Hqs Hb _.
      rewrite (roll_mean_at_finite w _ i qs) by (assumption || lia).
      exists (exact_mean qs). split; [reflexivity|]. split.
      + apply approximates_refl. eapply window_allowance; eauto.
      + apply safe_round_rounding. }
  intros w field Hin. simpl in Hin.
  destruct Hin as [E|[E|[E|[]]]]; inversion E; subst w field.
  - rewrite H7. apply G. lia.
  - rewrite H20. apply G. lia.
  - rewrite H50. apply G. lia.
Qed.

Lemma moving_average_fields_witness :
  exists r, nth_error (get_historical_data (Ok (zigzag 16))) 6 = Some r /\
            ma20 r = PyNone /\
            ma7 r = PyFloat (Fin (Q2Qc (10086 # 100))) /\
            exists computed : Qc,
              nth 6 (rolling_mean 7 (map Close (zigzag 16))) NaN = Fin computed /\
              approximates (float_allowance 7 (ofZ 102)) computed
                (exact_mean (firstn 7 (zigzag_closes 16))) /\
              two_decimal_rounding (ma7 r) computed.
Proof.
  destruct (nth_error (get_historical_data (Ok (zigzag 16))) 6) as [r|] eqn:E.
  - exists r. split; [reflexivity|].
    destruct (moving_average_fields _ _ _ E) as (df & Hdf & Hw).
    inversion Hdf; subst df. split; [|split].
    + destruct (Hw 20%nat (ma20 r) ltac:(simpl; auto)) as (H20 & _).
      apply H20. lia.
    + vm_compute in E. injection E as <-. cbv beta iota delta [ma7]. value_eq.
    + destruct (Hw 7%nat (ma7 r) ltac:(simpl; auto)) as (_ & _ & H7).
      apply (H7 (firstn 7 (zigzag_closes 16)) (ofZ 102)).
      * lia.
      * vm_compute. reflexivity.
      * vm_compute. reflexivity.
      * vm_compute. discriminate.
  - vm_compute in E. discriminate.
Defined.

(** ** Indicator engine: zero mean loss *)

(** C5: for every row of every series, when the 14-period mean of losses of
    the row is exactly zero the RSI of the row is NaN in the series and
    absent (None, not 100) in the output. *)
Theorem rsi_absent_on_zero_loss
    (df : DataFrame) (i : nat) (r : IndicatorRow) :
  nth_error (get_historical_data (Ok df)) i = Some r ->
  nth i (rsi_loss (map Close df) 14) NaN = fz 0 ->
  nth i (calculate_rsi (map Close df) 14) NaN = NaN /\
  rsi r = PyNone /\ rsi r <> PyFloat (fz 100).
Proof.
  intros H Hloss.
  assert (Hv : rsi r = PyNone).
  { rewrite (rsi_field _ _ _ H), Hloss, rsi_at_zero_loss. reflexivity. }
  split; [|split; [exact Hv | rewrite Hv; discriminate]].
  destruct (get_historical_data_row _ _ _ H) as (df' & p & Hdf & Hp & _).
  inversion Hdf; subst df'.
  rewrite nth_calculate_rsi, Hloss, rsi_at_zero_loss; [reflexivity|].
  rewrite length_map. eapply nth_error_lt; eauto.
Qed.

Lemma rsi_absent_on_zero_loss_witness :
  exists r, nth_error (get_historical_data (Ok (linear 20))) 15 = Some r /\
            nth 15 (rsi_gain (map Close (linear 20)) 14) NaN = fz 1 /\
            rsi r = PyNone.
Proof.
  destruct (nth_error (get_historical_data (Ok (linear 20))) 15) as [r|] eqn:E.
  - exists r. split; [reflexivity|]. split; [vm_compute; value_eq|].
    apply (rsi_absent_on_zero_loss (linear 20) 15 r E).
    vm_compute. value_eq.
  - vm_compute in E. discriminate.
Defined.

(** ** Indicator engine: output fields *)

(** C9: every numeric field of every output row (open, high, low, close,
    the three moving averages, RSI, MACD, Signal) is None or a finite number
    with two decimals, and [safe_round] turns every non-finite value (NaN or
    an infinity) into None. *)
Theorem output_fields_none_or_rounded (history : exc DataFrame) :
  Forall (fun r => Forall none_or_two_decimals (numeric_fields r))
         (get_historical_data history) /\
  forall x : float,
    safe_round (PyFloat x) 2 =
    if isnan x || isinf x then PyNone else PyFloat (py_round x 2).
Proof.
  split; [|reflexivity].
  apply Forall_forall. intros r Hin.
  apply In_nth_error in Hin. destruct Hin as [i Hi].
  destruct (get_historical_data_row _ _ _ Hi) as (df & p & _ & _ & Hr).
  apply historical_row_fields in Hr.
  destruct Hr as (H1 & H2 & H3 & H4 & H5 & H6 & H7 & H8 & H9 & H10).
  unfold numeric_fields.
  rewrite H1, H2, H3, H4, H5, H6, H7, H8, H9, H10. unfold get.
  repeat (apply Forall_cons; [apply safe_round_none_or_two_decimals|]).
  apply Forall_nil.
Qed.

(** ** Indicator engine: MACD and signal line *)

Lemma alpha_12 : alpha 12 = ofZ 2 / (ofZ 12 + 1).
Proof. qc_eq. Qed.

Lemma alpha_26 : alpha 26 = ofZ 2 / (ofZ 26 + 1).
Proof. qc_eq. Qed.

Lemma alpha_9 : alpha 9 = ofZ 2 / (ofZ 9 + 1).
Proof. qc_eq. Qed.

Lemma Qc_eqb_one_zero : Qc_eqb 1 0 = false.
Proof. reflexivity. Qed.

(** one step of the pandas kernel on finite values is the recurrence *)
Lemma ewm_step_finite (span : Z) (w q : Qc) :
  ewm_step span (Fin w) (fz 1) (Fin q) =
  (Fin (q * alpha span + w * (1 - alpha span)), fz 1).
Proof.
  unfold ewm_step, old_wt_factor, new_wt. cbn [isnan negb fmul fadd].
  set (a := alpha span).
  destruct (fne (Fin w) (Fin q)) eqn:E.
  - unfold fdiv.
    replace (ofZ 1 * (1 - a) + a) with (1 : Qc) by (change (ofZ 1) with (1 : Qc); ring).
    rewrite Qc_eqb_one_zero. do 2 f_equal.
    change (ofZ 1) with (1 : Qc). field. discriminate.
  - unfold fne in E. apply negb_false_iff in E. cbn [feq] in E.
    apply Qc_eqb_eq in E. subst q. do 2 f_equal. ring.
Qed.

Lemma ewm_loop_finite (span : Z) (w : Qc) (qs : list Qc) (nobs : nat) :
  (1 <= nobs)%nat ->
  ewm_loop span (Fin w) (fz 1) nobs (map Fin qs) =
  map Fin (ema_from (alpha span) w qs).
Proof.
  revert w nobs. induction qs as [|q qs IH]; intros w nobs H; [reflexivity|].
  cbn [map ewm_loop ema_from isnan]. rewrite ewm_step_finite.
  replace (1 <=? nobs + 1)%nat with true by (symmetry; apply Nat.leb_le; lia).
  f_equal. apply IH. lia.
Qed.

(** finite values go through [_prep_values] unchanged *)
Lemma map_prep_value_Fin (qs : list Qc) :
  map prep_value (map Fin qs) = map Fin qs.
Proof. rewrite map_map. reflexivity. Qed.

Lemma ewm_mean_finite (span : Z) (qs : list Qc) :
  alpha span = ofZ 2 / (ofZ span + 1) ->
  ewm_mean span (map Fin qs) = map Fin (ema_spec span qs).
Proof.
  intros Ha. unfold ewm_mean. rewrite map_prep_value_Fin.
  destruct qs as [|q qs]; [reflexivity|].
  cbn [map ema_spec isnan Nat.leb]. f_equal.
  rewrite ewm_loop_finite by lia. now rewrite Ha.
Qed.

Lemma map2_fsub_Fin (a b : list Qc) :
  map2 fsub (map Fin a) (map Fin b) = map Fin (map2 Qcminus a b).
Proof.
  revert b. induction a as [|x a IH]; intros [|y b]; simpl; auto.
  f_equal. apply IH.
Qed.

Lemma length_ema_from (a prev : Qc) (qs : list Qc) :
  length (ema_from a prev qs) = length qs.
Proof. revert prev. induction qs; simpl; auto. Qed.

Lemma length_ema_spec (span : Z) (qs : list Qc) :
  length (ema_spec span qs) = length qs.
Proof. destruct qs; simpl; [reflexivity|]. now rewrite length_ema_from. Qed.

Lemma length_macd_spec (closes : list Qc) :
  length (macd_spec closes) = length closes.
Proof.
  unfold macd_spec. rewrite length_map2, !length_ema_spec. apply Nat.min_id.
Qed.

Lemma nth_map_Fin (qs : list Qc) (i : nat) :
  (i < length qs)%nat -> nth i (map Fin qs) NaN = Fin (nth i qs 0).
Proof.
  intros H. rewrite (nth_indep _ NaN (Fin 0)) by (now rewrite length_map).
  apply map_nth.
Qed.

Lemma calculate_macd_finite (closes : list Qc) :
  calculate_macd (map Fin closes) 12 26 9 =
  (map Fin (macd_spec closes), map Fin (signal_spec closes)).
Proof.
  unfold calculate_macd, try_except, signal_spec, macd_spec.
  rewrite (ewm_mean_finite _ _ alpha_12), (ewm_mean_finite _ _ alpha_26).
  rewrite map2_fsub_Fin. now rewrite (ewm_mean_finite _ _ alpha_9).
Qed.

(** C4: for a non-empty series whose closes are all finite, MACD and
    Signal are numbers from row 0 onward: the MACD field of row i is
    EMA12 - EMA26 of the closes at row i and the Signal field is the EMA(9)
    recurrence over the MACD sequence at row i, each EMA seeded with its
    first value and following ema[i] = value[i]*a + ema[i-1]*(1-a) with
    a = 2/(span+1).  Each field is a nearest two-decimal number of the
    computed value, and the computed value is the exact value of the
    recurrence up to the allowance made for binary64 rounding; the closes
    are of magnitude at most [bound], itself at most [no_overflow_bound]. *)
Theorem macd_signal_follow_recurrence
    (closes : list Qc) (bound : Qc) (df : DataFrame) (i : nat) (r : IndicatorRow) :
  map Close df = map Fin closes ->
  forallb (bounded_by bound) (map Close df) = true ->
  bound <= no_overflow_bound ->
  nth_error (get_historical_data (Ok df)) i = Some r ->
  let result := calculate_macd (map Close df) 12 26 9 in
  (i < length (macd_spec closes))%nat /\
  (i < length (signal_spec closes))%nat /\
  (exists computed : Qc,
      nth i (fst result) NaN = Fin computed /\
      approximates (float_allowance 1 bound) computed (nth i (macd_spec closes) 0) /\
      two_decimal_rounding (macd r) computed) /\
  (exists computed : Qc,
      nth i (snd result) NaN = Fin computed /\
      approximates (float_allowance 1 bound) computed (nth i (signal_spec closes) 0) /\
      two_decimal_rounding (signal r) computed).
Proof.
  cbv zeta. intros Hc Hb _ H.
  destruct (get_historical_data_row _ _ _ H) as (df' & p & Hdf & Hp & Hr).
  inversion Hdf; subst df'.
  apply historical_row_fields in Hr.
  destruct Hr as (_ & _ & _ & _ & _ & _ & _ & _ & Hm & Hs).
  assert (Hi : (i < length closes)%nat).
  { apply nth_error_lt in Hp.
    rewrite <- (length_map Close), Hc, length_map in Hp. exact Hp. }
  assert (Htol : 0 <= float_allowance 1 bound).
  { apply float_allowance_nonneg.
    destruct closes as [|q closes]; [simpl in Hi; lia|].
    rewrite Hc in Hb. cbn [map forallb] in Hb. apply andb_true_iff in Hb.
    now apply (bounded_by_nonneg bound q). }
  rewrite Hc, calculate_macd_finite in *. cbn [fst snd] in *.
  split; [now rewrite length_macd_spec|].
  split; [unfold signal_spec; now rewrite length_ema_spec, length_macd_spec|].
  unfold get in Hm, Hs.
  rewrite nth_map_Fin in Hm |- * by (now rewrite length_macd_spec).
  rewrite nth_map_Fin in Hs |- *
    by (unfold signal_spec; now rewrite length_ema_spec, length_macd_spec).
  rewrite Hm, Hs.
  split; eexists; (split; [reflexivity|]);
    (split; [apply approximates_refl; exact Htol | apply safe_round_rounding]).
Qed.

Lemma macd_signal_follow_recurrence_witness :
  exists r, nth_error (get_historical_data (Ok (zigzag 16))) 2 = Some r /\
            macd r = PyFloat (Fin (Q2Qc (22 # 100))) /\
            signal r = PyFloat (Fin (Q2Qc (6 # 100))) /\
            exists computed : Qc,
              nth 2 (snd (calculate_macd (map Close (zigzag 16)) 12 26 9)) NaN
                = Fin computed /\
              approximates (float_allowance 1 (ofZ 102)) computed
                (nth 2 (signal_spec (zigzag_closes 16)) 0) /\
              two_decimal_rounding (signal r) computed.
Proof.
  destruct (nth_error (get_historical_data (Ok (zigzag 16))) 2) as [r|] eqn:E.
  - exists r. split; [reflexivity|].
    destruct (macd_signal_follow_recurrence (zigzag_closes 16) (ofZ 102)
                (zigzag 16) 2 r) as (_ & _ & _ & Hs).
    + vm_compute. reflexivity.
    + vm_compute. reflexivity.
    + vm_compute. discriminate.
    + exact E.
    + split; [|split; [|exact Hs]];
        vm_compute in E; injection E as <-; cbv beta iota delta [macd signal];
        value_eq.
  - vm_compute in E. discriminate.
Defined.

(** C4 (as stated, for every non-empty series) fails: when the first close
    is missing the kernel has no seed, and MACD is absent at row 0. *)
Lemma macd_absent_on_missing_first_close :
  ~ (forall (df : DataFrame) (i : nat) (r : IndicatorRow),
        df <> [] ->
        nth_error (get_historical_data (Ok df)) i = Some r ->
        macd r <> PyNone /\ signal r <> PyNone).
Proof.
  intros H.
  destruct (nth_error (get_historical_data (Ok (gappy 3))) 0) as [r|] eqn:E.
  - destruct (H (gappy 3) 0%nat r) as [Hm _]; [discriminate | exact E |].
    vm_compute in E. injection E as <-. now apply Hm.
  - vm_compute in E. discriminate.
Qed.

(** ** Signal classifier *)

Lemma iloc_last_Ok (s : Series) :
  (0 < length s)%nat -> exists x, iloc_last s = Ok x.
Proof.
  intros H. unfold iloc_last. rewrite <- length_rev in H.
  destruct (rev s); simpl in H; [lia | eauto].
Qed.

Lemma safe_float_finite (v : pyval) (d : float) :
  isfinite d = true -> isfinite (safe_float v d) = true.
Proof.
  intros H. destruct v as [| n | x]; simpl; auto. now destruct x.
Qed.

Lemma length_calculate_rsi (s : Series) (period : nat) :
  length (calculate_rsi s period) = length s.
Proof.
  unfold calculate_rsi, try_except, replace.
  rewrite length_map, length_map2, length_map, length_rsi_gain, length_rsi_loss.
  apply Nat.min_id.
Qed.

(** with at least one row the three inputs are read without an exception,
    and the price and the average are finite *)
Lemma signal_inputs_Ok (df : DataFrame) :
  (0 < length df)%nat ->
  exists cp ma rsi,
    signal_inputs df = Ok (Fin cp, Fin ma, rsi).
Proof.
  intros H. unfold signal_inputs.
  destruct (iloc_last_Ok (map Close df)) as [x ->]; [now rewrite length_map|].
  destruct (iloc_last_Ok (rolling_mean 20 (map Close df))) as [y ->];
    [now rewrite length_rolling_mean, length_map|].
  destruct (iloc_last_Ok (calculate_rsi (map Close df) 14)) as [z ->];
    [now rewrite length_calculate_rsi, length_map|].
  cbn [bind].
  destruct (isfinite_Fin (safe_float (PyFloat x) (fz 0))) as [cp ->];
    [now apply safe_float_finite|].
  destruct (isfinite_Fin (safe_float (PyFloat y) (fz 0))) as [ma ->];
    [now apply safe_float_finite|].
  eauto.
Qed.

(** the guarded division of the price deviation never raises *)
Lemma price_vs_ma20_Ok (cp ma : Qc) :
  exists pv,
    (if fne (Fin ma) (fz 0)
     then q <- py_truediv (fsub (Fin cp) (Fin ma)) (Fin ma) ;; Ok (fmul q (fz 100))
     else Ok (fz 0)) = Ok pv.
Proof.
  unfold fne, py_truediv. destruct (feq (Fin ma) (fz 0)); simpl; eauto.
Qed.

(** the result of the classifier on a frame of at least 20 rows *)
Lemma get_sentiment_signal_normal (df : DataFrame) :
  (20 <= length df)%nat ->
  exists cp ma rsi pv,
    signal_inputs df = Ok (cp, ma, rsi) /\
    get_sentiment_signal (Ok df) =
    {| sr_signal := fst (final_signal (signal_score cp ma rsi));
       sr_strength := safe_round (PyFloat (snd (final_signal (signal_score cp ma rsi)))) 2;
       sr_rsi := safe_round (PyFloat rsi) 2;
       sr_price_vs_ma20 := safe_round (PyFloat pv) 2 |}.
Proof.
  intros H.
  destruct (signal_inputs_Ok df) as (cp & ma & rsi & Hin); [lia|].
  destruct (price_vs_ma20_Ok cp ma) as [pv Hpv].
  exists (Fin cp), (Fin ma), rsi, pv. split; [exact Hin|].
  unfold get_sentiment_signal. cbn [bind].
  replace (length df <? 20)%nat with false by (symmetry; apply Nat.ltb_ge; lia).
  rewrite Hin. cbn [bind].
  destruct (final_signal (signal_score (Fin cp) (Fin ma) rsi)) as [label strength].
  rewrite Hpv. reflexivity.
Qed.

Lemma signal_score_cases (current_price ma20 rsi : float) :
  In (signal_score current_price ma20 rsi) [-3; -1; 1; 3]%Z.
Proof.
  unfold signal_score.
  destruct (fgt current_price ma20), (flt rsi (fz 30)), (fgt rsi (fz 70));
    simpl; auto.
Qed.

Lemma final_signal_cases (score : Z) :
  In score [-3; -1; 1; 3]%Z ->
  fst (final_signal score) <> "HOLD"%string /\
  (safe_round (PyFloat (snd (final_signal score))) 2 = PyFloat (fz 60) \/
   safe_round (PyFloat (snd (final_signal score))) 2 = PyFloat (fz 100)).
Proof.
  simpl. intros [<-|[<-|[<-|[<-|[]]]]]; (split; [discriminate|]).
  - right. vm_compute. value_eq.
  - left. vm_compute. value_eq.
  - left. vm_compute. value_eq.
  - right. vm_compute. value_eq.
Qed.

(** C8: for every series shorter than 20 rows, and whenever fetching the
    series raises, the classifier returns HOLD with strength 0 and absent
    RSI and price deviation; it returns a result, no exception leaves it. *)
Theorem short_series_degenerate_signal (history : exc DataFrame) :
  (forall df, history = Ok df -> (length df < 20)%nat) ->
  get_sentiment_signal history =
  {| sr_signal := "HOLD";
     sr_strength := PyInt 0;
     sr_rsi := PyNone;
     sr_price_vs_ma20 := PyNone |}.
Proof.
  intros H. unfold get_sentiment_signal.
  destruct history as [df|e]; [|reflexivity].
  cbn [bind]. specialize (H df eq_refl).
  apply Nat.ltb_lt in H. rewrite H. reflexivity.
Qed.

Lemma short_series_degenerate_signal_witness :
  get_sentiment_signal (Ok (zigzag 19)) = degenerate_signal /\
  get_sentiment_signal (Raise OtherError) = degenerate_signal.
Proof.
  split; apply short_series_degenerate_signal.
  - intros df E. inversion E; subst df. vm_compute. lia.
  - intros df E. discriminate E.
Defined.

(** C10: in the branch taken for at least 20 rows the score is one of -3,
    -1, 1, 3; the label is never HOLD and the strength is 60 or 100. *)
Theorem classifier_score_never_zero (df : DataFrame) :
  (20 <= length df)%nat ->
  exists current_price ma20 rsi,
    signal_inputs df = Ok (current_price, ma20, rsi) /\
    In (signal_score current_price ma20 rsi) [-3; -1; 1; 3]%Z /\
    sr_signal (get_sentiment_signal (Ok df)) =
      fst (final_signal (signal_score current_price ma20 rsi)) /\
    sr_signal (get_sentiment_signal (Ok df)) <> "HOLD"%string /\
    (sr_strength (get_sentiment_signal (Ok df)) = PyFloat (fz 60) \/
     sr_strength (get_sentiment_signal (Ok df)) = PyFloat (fz 100)).
Proof.
  intros H.
  destruct (get_sentiment_signal_normal df H) as (cp & ma & rsi & pv & Hin & ->).
  exists cp, ma, rsi. cbn [sr_signal sr_strength].
  pose proof (signal_score_cases cp ma rsi) as Hs.
  destruct (final_signal_cases _ Hs) as [Hl Hv].
  repeat split; auto.
Qed.

Lemma classifier_score_never_zero_witness :
  sr_signal (get_sentiment_signal (Ok flat25)) <> "HOLD"%string.
Proof.
  destruct (classifier_score_never_zero flat25) as (cp & ma & rsi & _ & _ & _ & H & _).
  - vm_compute. lia.
  - exact H.
Defined.

(** ** Regression forecaster: insufficient data *)

Lemma observations_Fin (l : Series) :
  exists qs, filter (fun x => negb (isnan x)) (map prep_value l) = map Fin qs.
Proof.
  induction l as [|x l [qs IH]]; [now exists []|].
  destruct x; simpl; rewrite IH; try (now exists qs).
  now exists (q :: qs).
Qed.

(** a rolling mean is NaN or finite, never an infinity *)
Lemma roll_mean_at_cases (w minp : nat) (s : Series) (i : nat) :
  (0 < minp)%nat -> isinf (roll_mean_at w minp s i) = false.
Proof.
  intros H. unfold roll_mean_at.
  destruct (observations_Fin (window w i s)) as [qs ->].
  destruct (Nat.leb_spec minp (length (map Fin qs))) as [Hle|Hlt]; [|reflexivity].
  unfold fsum. rewrite fold_fadd_Fin. unfold fdiv.
  rewrite ofZ_pos_neq by lia. reflexivity.
Qed.

Lemma In_add_features (df : DataFrame) (r : FeatureRow) :
  In r (add_features df) -> isinf (MA5 r) = false.
Proof.
  unfold add_features. intros H. apply in_map_iff in H.
  destruct H as ([i row] & <- & _). cbn [MA5].
  set (v := nth i (rolling_mean 5 (map Close df)) NaN).
  destruct (nth_in_or_default i (rolling_mean 5 (map Close df)) NaN) as [Hin|E];
    fold v in Hin || fold v in E; [|now rewrite E].
  unfold rolling_mean in Hin. apply in_map_iff in Hin.
  destruct Hin as (j & <- & _). apply roll_mean_at_cases. lia.
Qed.

Lemma filter_length_gap {A : Type} (f g : A -> bool) (l : list A) :
  (length (filter g l) < length (filter f l))%nat ->
  exists x, In x l /\ f x = true /\ g x = false.
Proof.
  induction l as [|x l IH]; simpl; [lia|].
  destruct (f x) eqn:Ef, (g x) eqn:Eg; simpl; intros H.
  - destruct IH as (y & Hy & Hfg); [lia|]. exists y. auto.
  - exists x. auto.
  - pose proof (length_filter_le g l).
    destruct IH as (y & Hy & Hfg); [lia|]. exists y. auto.
  - destruct IH as (y & Hy & Hfg); [lia|]. exists y. auto.
Qed.

(** a row kept by [dropna] and rejected by the specification's cleaning has
    an infinite volume *)
Lemma kept_but_not_clean (df : DataFrame) (r : FeatureRow) :
  In r (add_features df) ->
  negb (has_na r) = true ->
  negb (isnan (MA5 r)) && forallb isfinite (features r) = false ->
  isinf (Volume (base r)) = true.
Proof.
  intros Hin Hna Hclean. pose proof (In_add_features _ _ Hin) as Hma.
  unfold has_na in Hna. cbn [existsb] in Hna.
  unfold features in Hclean. cbn [forallb isfinite] in Hclean.
  destruct (Volume (base r)); try reflexivity.
  - rewrite !orb_true_r in Hna. discriminate.
  - destruct (MA5 r); simpl in *; try discriminate.
    rewrite !orb_true_r in Hna. discriminate.
Qed.

Lemma check_array_inf (allow_nan : bool) (X : Matrix) :
  existsb (existsb isinf) X = true -> check_array allow_nan X = Raise ValueError.
Proof.
  intros H. unfold check_array.
  replace (existsb (existsb (fun x => isinf x || negb allow_nan && isnan x)) X)
    with true; [reflexivity|].
  symmetry. apply existsb_exists in H. destruct H as (row & Hrow & H).
  apply existsb_exists in H. destruct H as (x & Hx & H).
  apply existsb_exists. exists row. split; [exact Hrow|].
  apply existsb_exists. exists x. split; [exact Hx|]. now rewrite H.
Qed.

Section ForecasterProperties.
Variable lstsq : Matrix -> Series -> exc (list float).
Variable now : nat -> Z.

(** an infinite volume among the training rows makes the scaler raise, and
    the forecaster returns None *)
Lemma predict_prices_inf_volume (df : DataFrame) (days : Z) (r : FeatureRow) :
  In r (dropna (add_features df)) ->
  isinf (Volume (base r)) = true ->
  predict_prices lstsq now (Ok df) days = None.
Proof.
  intros Hin Hinf. unfold predict_prices. cbn [bind].
  destruct (length df <? 30)%nat; [reflexivity|].
  destruct (length (dropna (add_features df)) <? 20)%nat; [reflexivity|].
  match goal with |- context [if ?c then Ok None else _] => destruct c end;
    [reflexivity|].
  unfold fit_transform at 1, scaler_fit.
  rewrite check_array_inf; [reflexivity|].
  apply existsb_exists. exists (features r). split; [now apply in_map|].
  unfold features. cbn [existsb]. now rewrite Hinf, !orb_true_r.
Qed.

Lemma predict_prices_few_rows (df : DataFrame) (days : Z) :
  (length df < 30)%nat -> predict_prices lstsq now (Ok df) days = None.
Proof.
  intros H. unfold predict_prices. cbn [bind].
  apply Nat.ltb_lt in H. now rewrite H.
Qed.

Lemma predict_prices_few_clean_rows (df : DataFrame) (days : Z) :
  (length (spec_clean_rows df) < 20)%nat ->
  predict_prices lstsq now (Ok df) days = None.
Proof.
  intros H.
  destruct (Nat.ltb_spec (length (dropna (add_features df))) 20) as [Hlt|Hge].
  - unfold predict_prices. cbn [bind].
    destruct (length df <? 30)%nat; [reflexivity|].
    apply Nat.ltb_lt in Hlt. now rewrite Hlt.
  - unfold spec_clean_rows in H. unfold dropna in Hge.
    destruct (filter_length_gap (fun r => negb (has_na r))
                (fun r => negb (isnan (MA5 r)) && forallb isfinite (features r))
                (add_features df)) as (r & Hin & Hkept & Hclean); [lia|].
    apply (predict_prices_inf_volume df days r).
    + unfold dropna. apply filter_In. auto.
    + now apply (kept_but_not_clean df).
Qed.
End ForecasterProperties.

(** C6: the forecaster returns None (no forecast) for every series of fewer
    than 30 raw rows, and for every series that leaves fewer than 20 rows
    once the rows with an undefined 5-day average or a non-finite feature
    are dropped. *)
Theorem forecast_needs_enough_rows
    (lstsq : Matrix -> Series -> exc (list float)) (now : nat -> Z)
    (df : DataFrame) (days : Z) :
  (length df < 30)%nat \/ (length (spec_clean_rows df) < 20)%nat ->
  predict_prices lstsq now (Ok df) days = None.
Proof.
  intros [H|H].
  - now apply predict_prices_few_rows.
  - now apply predict_prices_few_clean_rows.
Qed.

Lemma forecast_needs_enough_rows_witness :
  predict_prices half_half_solver fixed_clock (Ok (linear 29)) 7 = None /\
  predict_prices half_half_solver fixed_clock (Ok (gappy 40)) 7 = None /\
  (length (dropna (add_features (inf_volume 40))) = 36)%nat /\
  predict_prices half_half_solver fixed_clock (Ok (inf_volume 40)) 7 = None.
Proof.
  split; [|split; [|split; [reflexivity|]]]; apply forecast_needs_enough_rows.
  - left. vm_compute. lia.
  - right. vm_compute. lia.
  - right. vm_compute. lia.
Defined.

(** ** Regression forecaster: shape of a forecast *)

Lemma Qc_ltb_le (a b : Qc) : Qc_ltb a b = false -> b <= a.
Proof.
  intros H. apply Qcnot_lt_le. intros Hlt. apply Qc_ltb_lt in Hlt. congruence.
Qed.

(** [max(0, min(100, x))] is a finite number of [0, 100] for every float *)
Lemma clamp_bounds (x : float) :
  exists c, py_max (fz 0) (py_min (fz 100) x) = Fin c /\ 0 <= c /\ c <= ofZ 100.
Proof.
  assert (H100 : (0 : Qc) <= ofZ 100) by (unfold Qcle; simpl; lra).
  assert (H0 : (0 : Qc) <= ofZ 0) by (unfold Qcle; simpl; lra).
  assert (H0' : ofZ 0 <= ofZ 100) by (unfold Qcle; simpl; lra).
  destruct x as [| | |q]; try (eexists; split; [vm_compute; reflexivity|]; auto).
  unfold py_min. cbn [flt].
  destruct (Qc_ltb q (ofZ 100)) eqn:E.
  - unfold py_max, fgt. cbn [flt].
    destruct (Qc_ltb (ofZ 0) q) eqn:E0.
    + exists q. split; [reflexivity|]. apply Qc_ltb_lt in E, E0. split.
      * apply Qclt_le_weak. exact E0.
      * apply Qclt_le_weak. exact E.
    + exists (ofZ 0). auto.
  - exists (ofZ 100). split; [reflexivity|]. auto.
Qed.

Lemma confidence_bounds (conf : float) :
  exists c,
    safe_round (PyFloat (py_max (fz 0) (py_min (fz 100) (fmul conf (fz 100))))) 2
    = PyFloat (Fin c) /\ 0 <= c /\ c <= ofZ 100.
Proof.
  destruct (clamp_bounds (fmul conf (fz 100))) as (c & -> & H0 & H1).
  destruct (py_round2_bounds c H0 H1) as (c' & Hc & Hb).
  exists c'. rewrite safe_round_float. cbn [isfinite]. now rewrite Hc.
Qed.

(** a predicted price is never None: a non-finite prediction is replaced by
    0.0 before it is rounded *)
Lemma predicted_price_two_decimals (p : float) :
  two_decimals (safe_round (PyFloat (safe_float (PyFloat p) (fz 0))) 2).
Proof.
  destruct (isfinite_Fin (safe_float (PyFloat p) (fz 0))) as [q ->].
  - now apply safe_float_finite.
  - apply safe_round_two_decimals.
Qed.

Section ForecastShape.
Variable lstsq : Matrix -> Series -> exc (list float).
Variable now : nat -> Z.
Variables (scaler_X scaler_y : MinMaxScaler) (m : LinearModel).
Variables (last_day : Z) (last_volume : float).

(** one point per value of [i], dated from the clock read of its
    iteration, with a price of two decimals *)
Lemma predict_loop_shape (range : list Z) (current_ma5 : float) (k : nat)
      (preds : list ForecastPoint) :
  predict_loop now scaler_X scaler_y m last_day last_volume range current_ma5 k
    = Ok preds ->
  map fp_date preds =
    map2 (fun j i => (now j + i)%Z) (seq k (length range)) range /\
  Forall (fun p => two_decimals (predictedPrice p)) preds.
Proof.
  revert current_ma5 k preds.
  induction range as [|i range IH]; intros ma k preds H.
  - inversion H. split; [reflexivity | constructor].
  - cbn [predict_loop] in H.
    do 4 (apply bind_Ok in H; destruct H as (? & _ & H)).
    apply bind_Ok in H. destruct H as (rest & E & H).
    injection H as <-.
    destruct (IH _ _ _ E) as [Hd Hp].
    split.
    + cbn [map length seq map2 fp_date]. now rewrite Hd.
    + constructor; [|exact Hp].
      match goal with
      | |- context [isnan ?x || isinf ?x] =>
          exact (predicted_price_two_decimals x)
      end.
Qed.
End ForecastShape.

Lemma map2_const_clock (now : nat -> Z) (today : Z) (range : list Z) (k : nat) :
  (forall j, (k <= j < k + length range)%nat -> now j = today) ->
  map2 (fun j i => (now j + i)%Z) (seq k (length range)) range =
  map (fun i => (today + i)%Z) range.
Proof.
  revert k. induction range as [|i range IH]; intros k H; [reflexivity|].
  cbn [length seq map2 map]. rewrite (H k) by (simpl; lia). f_equal.
  apply IH. intros j Hj. apply H. simpl. lia.
Qed.

Lemma try_except_Some {A : Type} (c : exc (option A)) (a : A) :
  try_except c None = Some a -> c = Ok (Some a).
Proof. destruct c as [[x|]|e]; simpl; congruence. Qed.

(** every forecast that is returned comes from the loop and the clamped
    confidence *)
Lemma predict_prices_Some
    (lstsq : Matrix -> Series -> exc (list float)) (now : nat -> Z)
    (history : exc DataFrame) (days : Z) (res : ForecastResult) :
  predict_prices lstsq now history days = Some res ->
  exists scaler_X scaler_y m last_day last_volume last_ma5 conf,
    predict_loop now scaler_X scaler_y m last_day last_volume
      (range1 days) last_ma5 0 = Ok (predictions res) /\
    confidence res =
      safe_round (PyFloat (py_max (fz 0) (py_min (fz 100) (fmul conf (fz 100))))) 2 /\
    model res = "Linear Regression"%string.
Proof.
  intros H. unfold predict_prices in H. apply try_except_Some in H.
  apply bind_Ok in H. destruct H as (df & _ & H).
  destruct (length df <? 30)%nat; [discriminate|].
  destruct (length (dropna (add_features df)) <? 20)%nat; [discriminate|].
  match type of H with (if ?c then _ else _) = _ => destruct c end;
    [discriminate|].
  apply bind_Ok in H. destruct H as ([scaler_X X_scaled] & _ & H).
  apply bind_Ok in H. destruct H as ([scaler_y y_scaled] & _ & H).
  apply bind_Ok in H. destruct H as (m & _ & H).
  apply bind_Ok in H. destruct H as (last_vol & _ & H).
  apply bind_Ok in H. destruct H as (last_mean & _ & H).
  apply bind_Ok in H. destruct H as (last_close & _ & H).
  apply bind_Ok in H. destruct H as (preds & Hloop & H).
  apply bind_Ok in H. destruct H as (y_pred & _ & H).
  apply bind_Ok in H. destruct H as (conf & _ & H).
  injection H as <-. cbv beta iota delta [predictions confidence model].
  eexists _, _, _, _, _, _, conf. split; [exact Hloop|]. split; reflexivity.
Qed.

Lemma length_range1 (days : Z) : length (range1 days) = Z.to_nat days.
Proof. unfold range1. now rewrite length_map, length_seq. Qed.

(** the date of a point: the clock read of its iteration plus its index *)
Lemma map2_clock_reads (now : nat -> Z) (k n : nat) :
  map2 (fun j i => (now j + i)%Z) (seq k n) (map Z.of_nat (seq (S k) n)) =
  map (fun j => (now j + Z.of_nat (S j))%Z) (seq k n).
Proof.
  revert k. induction n as [|n IH]; intros k; [reflexivity|].
  cbn [seq map map2]. f_equal. apply IH.
Qed.

(** C7: every forecast returned for a horizon [days] has exactly [days]
    points, in order; point number i is dated i days after the day
    on which its own iteration reads the clock, hence today+1 to today+days
    when the clock stays on the day [today] while the loop runs; the
    confidence lies in [0, 100] and the model name is given; every predicted
    price is a number with two decimals (a non-finite prediction is replaced
    by 0.0 before rounding, so none is None). *)
Theorem forecast_result_shape
    (lstsq : Matrix -> Series -> exc (list float)) (now : nat -> Z)
    (history : exc DataFrame) (days : Z) (res : ForecastResult) :
  predict_prices lstsq now history days = Some res ->
  length (predictions res) = Z.to_nat days /\
  map fp_date (predictions res) =
    map (fun k => (now k + Z.of_nat (S k))%Z) (seq 0 (Z.to_nat days)) /\
  (forall today : Z,
      (forall k : nat, (Z.of_nat k < days)%Z -> now k = today) ->
      map fp_date (predictions res) =
        map (fun j => (today + Z.of_nat j)%Z) (seq 1 (Z.to_nat days))) /\
  Forall (fun p => two_decimals (predictedPrice p)) (predictions res) /\
  (exists c, confidence res = PyFloat (Fin c) /\ 0 <= c /\ c <= ofZ 100) /\
  model res = "Linear Regression"%string.
Proof.
  intros H.
  destruct (predict_prices_Some _ _ _ _ _ H)
    as (sx & sy & m & ld & lv & ma & conf & Hloop & Hconf & Hmodel).
  destruct (predict_loop_shape now sx sy m ld lv _ _ _ _ Hloop) as [Hd Hp].
  assert (Hlen : length (predictions res) = Z.to_nat days).
  { rewrite <- (length_map fp_date), Hd, length_map2, length_seq, Nat.min_id.
    apply length_range1. }
  split; [exact Hlen|].
  split.
  { rewrite Hd, length_range1. unfold range1. apply map2_clock_reads. }
  split.
  { intros today Hclock. rewrite Hd, (map2_const_clock now today).
    - unfold range1. now rewrite map_map.
    - intros j Hj. apply Hclock. rewrite length_range1 in Hj. lia. }
  split; [exact Hp|].
  split; [rewrite Hconf; apply confidence_bounds | exact Hmodel].
Qed.

Lemma forecast_result_shape_witness :
  exists res,
    predict_prices half_half_solver fixed_clock (Ok (linear 40)) 7 = Some res /\
    length (predictions res) = 7%nat /\
    map fp_date (predictions res) =
      [20001; 20002; 20003; 20004; 20005; 20006; 20007]%Z /\
    confidence res = PyFloat (fz 100).
Proof.
  destruct (predict_prices half_half_solver fixed_clock (Ok (linear 40)) 7)
    as [res|] eqn:E.
  - exists res. split; [reflexivity|].
    destruct (forecast_result_shape half_half_solver fixed_clock
                (Ok (linear 40)) 7 res E)
      as (Hlen & _ & Hdates & _ & _ & _).
    split; [exact Hlen|]. split; [apply (Hdates 20000%Z); reflexivity|].
    vm_compute in E. injection E as <-. cbv beta iota delta [confidence].
    value_eq.
  - vm_compute in E. discriminate.
Defined.

(** C7 (as stated, with dates today+1 to today+days) fails: the clock is
    read once per iteration, and when it passes midnight during the loop
    the dates are not consecutive days. *)
Lemma forecast_dates_across_midnight :
  ~ (forall (now : nat -> Z) (res : ForecastResult),
        predict_prices half_half_solver now (Ok (linear 40)) 3 = Some res ->
        exists today : Z,
          map fp_date (predictions res) = [today + 1; today + 2; today + 3]%Z).
Proof.
  intros H.
  destruct (predict_prices half_half_solver midnight_clock (Ok (linear 40)) 3)
    as [res|] eqn:E.
  - destruct (H midnight_clock res E) as [today Ht].
    vm_compute in E. injection E as <-.
    cbv beta iota delta [predictions map fp_date] in Ht.
    injection Ht as H1 H2 H3. lia.
  - vm_compute in E. discriminate.
Qed.

(** * Further properties of the code *)

(** ** Rows of the indicator engine, as a whole *)

Lemma mapM_Raise {A B : Type} (f : A -> exc B) (l : list A) (x : A) (e : exn) :
  In x l -> f x = Raise e -> exists e', mapM f l = Raise e'.
Proof.
  induction l as [|y l IH]; simpl; [tauto|].
  intros [->|Hin] Hx.
  - rewrite Hx. simpl. eauto.
  - destruct (f y); simpl; [|eauto].
    destruct (IH Hin Hx) as [e' ->]. simpl. eauto.
Qed.

Lemma mapM_map {A B C : Type} (f : A -> exc B) (g : B -> C) (h : A -> C)
    (l : list A) :
  (forall x, In x l -> exists y, f x = Ok y /\ g y = h x) ->
  exists ys, mapM f l = Ok ys /\ map g ys = map h l.
Proof.
  induction l as [|x l IH]; intros H.
  - exists []. auto.
  - destruct (H x (or_introl eq_refl)) as (y & Hy & Hg).
    destruct IH as (ys & Hys & Hm); [intros z Hz; apply H; now right|].
    exists (y :: ys). simpl. rewrite Hy, Hys. simpl. split; [reflexivity|].
    now rewrite Hg, Hm.
Qed.

Lemma In_enumerate {A : Type} (l : list A) (x : A) (k : nat) :
  In x l -> exists i, In (i, x) (combine (seq k (length l)) l).
Proof.
  revert k. induction l as [|y l IH]; simpl; intros k; [tauto|].
  intros [->|Hin].
  - exists k. now left.
  - destruct (IH (S k) Hin) as [i Hi]. exists i. now right.
Qed.

Lemma map_snd_enumerate {A : Type} (l : list A) (k : nat) :
  map snd (combine (seq k (length l)) l) = l.
Proof.
  revert k. induction l as [|y l IH]; simpl; intros k; [reflexivity|].
  now rewrite IH.
Qed.

(** X1: when some row of the frame has an infinite volume, [int()] raises
    OverflowError, which [safe_int] does not catch: the whole historical
    output is the empty list. *)
Theorem infinite_volume_empties_history (df : DataFrame) (row : PricePoint) :
  In row df -> isinf (Volume row) = true ->
  get_historical_data (Ok df) = [].
Proof.
  intros Hin Hinf. unfold get_historical_data. cbn [bind].
  destruct (length df =? 0)%nat; [reflexivity|].
  destruct (In_enumerate df row 0 Hin) as [i Hi].
  match goal with |- try_except (mapM ?f ?l) _ = _ =>
    destruct (mapM_Raise f l (i, row) OverflowError Hi) as [e ->] end.
  - unfold historical_row. destruct (Volume row); try discriminate; reflexivity.
  - reflexivity.
Qed.

(** X2: when no volume is infinite the engine returns one row per input row,
    in the input order: the dates are the input dates and each volume is the
    integer part of the input volume (0 for a missing one). *)
Theorem history_rows_follow_input (df : DataFrame) :
  (forall row, In row df -> isinf (Volume row) = false) ->
  length (get_historical_data (Ok df)) = length df /\
  map date (get_historical_data (Ok df)) = map Date df /\
  map volume (get_historical_data (Ok df)) =
    map (fun row => volume_int (Volume row)) df.
Proof.
  intros H. unfold get_historical_data. cbn [bind].
  destruct df as [|p df]; [auto|]. 
  change (length (p :: df) =? 0)%nat with false. cbv iota.
  set (l := combine _ _). set (f := fun '(index, row) => historical_row _ _ _ _ _ _ index row).
  destruct (mapM_map f (fun r => (date r, volume r))
              (fun ir => (Date (snd ir), volume_int (Volume (snd ir)))) l)
    as (ys & Hys & Hm).
  { intros [i row] Hin. assert (Hrow : In row (p :: df)).
    { apply (in_map snd) in Hin. unfold l in Hin. rewrite map_snd_enumerate in Hin. exact Hin. }
    specialize (H row Hrow). unfold f, historical_row. cbn [snd].
    destruct (Volume row); try discriminate; simpl; eexists; split; reflexivity. }
  rewrite Hys. cbn [try_except].
  assert (Hsnd : map snd l = p :: df) by apply map_snd_enumerate.
  split; [|split].
  - rewrite <- (length_map (fun r => (date r, volume r))), Hm, length_map.
    now rewrite <- (length_map snd), Hsnd.
  - transitivity (map fst (map (fun r => (date r, volume r)) ys));
      [now rewrite map_map|].
    rewrite Hm, map_map. cbn [fst]. rewrite <- (map_map snd Date).
    now rewrite Hsnd.
  - transitivity (map snd (map (fun r => (date r, volume r)) ys));
      [now rewrite map_map|].
    rewrite Hm, map_map. cbn [snd].
    rewrite <- (map_map snd (fun row => volume_int (Volume row))).
    now rewrite Hsnd.
Qed.

Lemma infinite_volume_empties_history_witness :
  get_historical_data (Ok (inf_volume 3)) = [].
Proof.
  apply (infinite_volume_empties_history (inf_volume 3) (bar 0 100 PInf)).
  - left. reflexivity.
  - reflexivity.
Defined.

Lemma history_rows_follow_input_witness :
  map date (get_historical_data (Ok (zigzag 3))) = [0; 1; 2]%Z.
Proof.
  refine (proj1 (proj2 (history_rows_follow_input (zigzag 3) _))).
  intros row Hin. simpl in Hin.
  destruct Hin as [<-|[<-|[<-|[]]]]; reflexivity.
Defined.

(** ** Range of the RSI *)

Lemma Qc_zero_le_ofZ0 : (0 : Qc) <= ofZ 0.
Proof. unfold Qcle. simpl. lra. Qed.

Lemma gain_moves (delta : Series) :
  Forall nonneg_move (where_ delta (fun d => fgt d (fz 0)) (fz 0)).
Proof.
  unfold where_. apply Forall_map, Forall_forall. intros d _.
  destruct d as [| | |q]; simpl; try exact Qc_zero_le_ofZ0; try exact I.
  unfold fgt. cbn [flt]. destruct (Qc_ltb (ofZ 0) q) eqn:E; simpl.
  - apply Qc_ltb_lt in E. apply Qclt_le_weak. exact E.
  - exact Qc_zero_le_ofZ0.
Qed.

Lemma loss_moves (delta : Series) :
  Forall nonneg_move (map fneg (where_ delta (fun d => flt d (fz 0)) (fz 0))).
Proof.
  unfold where_. rewrite map_map. apply Forall_map, Forall_forall. intros d _.
  assert (Hz : (0 : Qc) <= - ofZ 0) by (unfold Qcle; simpl; lra).
  destruct d as [| | |q]; simpl; try exact Hz; try exact I.
  destruct (Qc_ltb q (ofZ 0)) eqn:E; simpl; [|exact Hz].
  apply Qc_ltb_lt in E. unfold Qclt in E. unfold Qcle.
  change (this (- q)) with (Qred (- this q)). rewrite Qred_correct.
  change (this (ofZ 0)) with 0%Q in E. change (this 0) with 0%Q. lra.
Qed.

Lemma Forall_skipn {A : Type} (P : A -> Prop) (n : nat) (l : list A) :
  Forall P l -> Forall P (skipn n l).
Proof.
  revert l. induction n as [|n IH]; intros l H; [exact H|].
  destruct l; [constructor|]. simpl. apply IH. now inversion H.
Qed.

Lemma Forall_firstn {A : Type} (P : A -> Prop) (n : nat) (l : list A) :
  Forall P l -> Forall P (firstn n l).
Proof.
  revert l. induction n as [|n IH]; intros l H; [constructor|].
  destruct l; [constructor|]. simpl. inversion H; subst.
  constructor; auto.
Qed.

Lemma observations_nonneg (l : Series) :
  Forall nonneg_move l ->
  exists qs, filter (fun x => negb (isnan x)) (map prep_value l) = map Fin qs /\
             Forall (fun q => 0 <= q) qs.
Proof.
  induction l as [|x l IH]; intros H.
  - exists []. split; [reflexivity | constructor].
  - inversion H as [|? ? Hx Hl]; subst. destruct (IH Hl) as (qs & E & Hqs).
    destruct x as [| | |q]; simpl in Hx; try contradiction.
    + exists qs. simpl. auto.
    + exists (q :: qs). simpl. rewrite E. split; [reflexivity|].
      constructor; assumption.
Qed.

Lemma fold_Qcplus_nonneg (qs : list Qc) (a : Qc) :
  0 <= a -> Forall (fun q => 0 <= q) qs -> 0 <= fold_left Qcplus qs a.
Proof.
  revert a. induction qs as [|q qs IH]; intros a Ha H; [exact Ha|].
  inversion H; subst. simpl. apply IH; [|assumption].
  replace (0 : Qc) with (0 + 0) by ring. now apply Qcplus_le_compat.
Qed.

(** the rolling mean of daily moves is NaN or a non-negative number *)
Lemma roll_mean_moves (w : nat) (s : Series) (i : nat) :
  (0 < w)%nat -> Forall nonneg_move s ->
  roll_mean_at w w s i = NaN \/
  exists m, roll_mean_at w w s i = Fin m /\ 0 <= m.
Proof.
  intros Hw Hs. unfold roll_mean_at.
  destruct (observations_nonneg (window w i s)) as (qs & -> & Hqs).
  { unfold window. now apply Forall_skipn, Forall_firstn. }
  destruct (Nat.leb_spec w (length (map Fin qs))) as [Hle|Hlt]; [|now left].
  right. unfold fsum. rewrite fold_fadd_Fin. unfold fdiv.
  rewrite ofZ_pos_neq by lia. eexists. split; [reflexivity|].
  apply Qcdiv_nonneg.
  - apply fold_Qcplus_nonneg; [exact Qc_zero_le_ofZ0 | exact Hqs].
  - apply ofZ_nat_pos. lia.
Qed.

(** from a non-negative mean gain and mean loss the RSI is NaN or a number
    of [0, 100) *)
Lemma rsi_at_bounds (g l : Qc) :
  0 <= g -> 0 <= l ->
  rsi_at (Fin g) (Fin l) = NaN \/
  exists c, rsi_at (Fin g) (Fin l) = Fin c /\ 0 <= c /\ c < ofZ 100.
Proof.
  intros Hg Hl. unfold rsi_at. cbn [feq].
  destruct (Qc_eqb l (ofZ 0)) eqn:E; [now left|]. right.
  assert (Hl0 : l <> 0) by (apply Qc_eqb_neq; exact E).
  assert (Hlpos : 0 < l).
  { apply Qcle_lt_or_eq in Hl. destruct Hl as [H|H]; [exact H | congruence]. }
  assert (Hrs : 0 <= g / l) by (now apply Qcdiv_nonneg).
  cbn [fdiv]. change (Qc_eqb l 0) with (Qc_eqb l (ofZ 0)). rewrite E.
  cbn [fadd fdiv].
  assert (Hd : 0 < ofZ 1 + g / l).
  { unfold Qclt, Qcle in *. rewrite Qc_this_plus.
    change (this (ofZ 1)) with 1%Q. change (this 0) with 0%Q in *. lra. }
  assert (Hd0 : Qc_eqb (ofZ 1 + g / l) 0 = false).
  { apply Qc_eqb_neq. intros H. rewrite H in Hd. now apply Qclt_not_eq in Hd. }
  rewrite Hd0. cbn [fsub fneg fadd].
  eexists. split; [reflexivity|].
  unfold Qcle, Qclt in *. rewrite Qc_this_plus, Qc_this_opp, Qc_this_div.
  rewrite Qc_this_plus in *. change (this (ofZ 100)) with (100 # 1)%Q.
  change (this (ofZ 1)) with 1%Q in *. change (this 0) with 0%Q in *.
  remember (1 + this (g / l))%Q as d eqn:Ed.
  assert (Hd1 : (1 <= d)%Q) by (rewrite Ed; lra).
  assert (H1 : ((100 # 1) / d <= 100 # 1)%Q).
  { apply Qle_shift_div_r; [exact Hd | lra]. }
  assert (H2 : (0 < (100 # 1) / d)%Q).
  { apply Qlt_shift_div_l; [exact Hd | lra]. }
  split; lra.
Qed.

Lemma nth_rsi_gain_cases (s : Series) (i : nat) :
  (i < length s)%nat ->
  nth i (rsi_gain s 14) NaN = NaN \/
  exists m, nth i (rsi_gain s 14) NaN = Fin m /\ 0 <= m.
Proof.
  intros H. unfold rsi_gain. rewrite nth_rolling_mean.
  - apply roll_mean_moves; [lia | apply gain_moves].
  - unfold where_. now rewrite length_map, length_diff.
Qed.

Lemma nth_rsi_loss_cases (s : Series) (i : nat) :
  (i < length s)%nat ->
  nth i (rsi_loss s 14) NaN = NaN \/
  exists m, nth i (rsi_loss s 14) NaN = Fin m /\ 0 <= m.
Proof.
  intros H. unfold rsi_loss. rewrite nth_rolling_mean.
  - apply roll_mean_moves; [lia | apply loss_moves].
  - unfold where_. now rewrite !length_map, length_diff.
Qed.

(** every value of the RSI series is NaN or a number of [0, 100) *)
Lemma calculate_rsi_range (s : Series) (i : nat) :
  (i < length s)%nat ->
  nth i (calculate_rsi s 14) NaN = NaN \/
  exists c, nth i (calculate_rsi s 14) NaN = Fin c /\ 0 <= c /\ c < ofZ 100.
Proof.
  intros H. rewrite nth_calculate_rsi by exact H.
  destruct (nth_rsi_gain_cases s i H) as [->|(g & -> & Hg)]; [now left|].
  destruct (nth_rsi_loss_cases s i H) as [->|(l & -> & Hl)]; [now left|].
  now apply rsi_at_bounds.
Qed.

(** X3: the RSI field of every output row is None or a number between 0
    and 100. *)
Theorem rsi_field_in_range (history : exc DataFrame) (i : nat) (r : IndicatorRow) :
  nth_error (get_historical_data history) i = Some r ->
  rsi r = PyNone \/
  exists c, rsi r = PyFloat (Fin c) /\ 0 <= c /\ c <= ofZ 100.
Proof.
  intros H.
  destruct (get_historical_data_row _ _ _ H) as (df & p & -> & Hp & Hr).
  apply historical_row_fields in Hr.
  destruct Hr as (_ & _ & _ & _ & _ & _ & _ & Hrsi & _).
  rewrite Hrsi. unfold get.
  destruct (calculate_rsi_range (map Close df) i) as [->|(c & -> & H0 & H1)].
  - rewrite length_map. eapply nth_error_lt; eauto.
  - now left.
  - right. rewrite safe_round_float. cbn [isfinite].
    destruct (py_round2_bounds c H0 (Qclt_le_weak _ _ H1)) as (c' & -> & Hb).
    now exists c'.
Qed.

Lemma rsi_field_in_range_witness :
  exists r c, nth_error (get_historical_data (Ok (zigzag 16))) 14 = Some r /\
              rsi r = PyFloat (Fin c) /\ 0 <= c /\ c <= ofZ 100.
Proof.
  destruct (nth_error (get_historical_data (Ok (zigzag 16))) 14) as [r|] eqn:E.
  - destruct (rsi_field_in_range _ _ _ E) as [Hn|(c & Hc & Hb)].
    + exfalso. vm_compute in E. injection E as <-. discriminate Hn.
    + exists r, c. auto.
  - vm_compute in E. discriminate.
Defined.

(** ** How the classifier combines its two tests *)

Lemma final_label (current_price ma20 rsi : float) :
  fst (final_signal (signal_score current_price ma20 rsi)) =
  if fgt current_price ma20
  then (if flt rsi (fz 30) then "STRONG BUY"
        else if fgt rsi (fz 70) then "SELL" else "BUY")%string
  else (if flt rsi (fz 30) then "BUY"
        else if fgt rsi (fz 70) then "STRONG SELL" else "SELL")%string.
Proof.
  unfold signal_score.
  destruct (fgt current_price ma20), (flt rsi (fz 30)), (fgt rsi (fz 70));
    reflexivity.
Qed.

(** X4: on a frame of at least 20 rows the label follows from the two tests
    "price above MA20" and "RSI below 30 / above 70": STRONG BUY exactly when
    the price is above MA20 and the RSI is below 30, STRONG SELL exactly when
    the price is not above MA20 and the RSI is above 70; an RSI above 70 with
    the price above MA20 gives SELL, and an RSI below 30 with the price not
    above MA20 gives BUY. *)
Theorem signal_label_table (df : DataFrame) :
  (20 <= length df)%nat ->
  exists current_price ma20 rsi,
    signal_inputs df = Ok (current_price, ma20, rsi) /\
    let label := sr_signal (get_sentiment_signal (Ok df)) in
    let above := fgt current_price ma20 in
    let oversold := flt rsi (fz 30) in
    let overbought := fgt rsi (fz 70) in
    (label = "STRONG BUY"%string <-> above = true /\ oversold = true) /\
    (label = "STRONG SELL"%string <->
       above = false /\ oversold = false /\ overbought = true) /\
    (above = true -> oversold = false -> overbought = true ->
       label = "SELL"%string) /\
    (above = false -> oversold = true -> label = "BUY"%string).
Proof.
  intros H.
  destruct (get_sentiment_signal_normal df H) as (cp & ma & rsi & pv & Hin & ->).
  exists cp, ma, rsi. split; [exact Hin|].
  cbn [sr_signal]. rewrite final_label. cbv zeta.
  destruct (fgt cp ma), (flt rsi (fz 30)), (fgt rsi (fz 70));
    repeat split; intros; try discriminate; try reflexivity;
    repeat match goal with H : _ /\ _ |- _ => destruct H end;
    try discriminate.
Qed.

Lemma signal_label_table_witness :
  sr_signal (get_sentiment_signal (Ok (rally 25))) = "SELL"%string.
Proof.
  destruct (signal_label_table (rally 25)) as (cp & ma & rsi & Hin & _ & _ & H & _).
  - vm_compute. lia.
  - assert (E : signal_inputs (rally 25) =
                Ok (fz 140, Fin (Q2Qc (251 # 2)), Fin (Q2Qc (675 # 8))))
      by (vm_compute; value_eq).
    rewrite E in Hin. injection Hin as <- <- <-.
    apply H; reflexivity.
Defined.

(** ** RSI of a series that never falls *)

Lemma Qc_opp_zero : - ofZ 0 = (0 : Qc).
Proof. qc_eq. Qed.

Lemma loss_moves_nondecreasing_from (prev : Qc) (qs : list Qc) :
  nondecreasing_from prev qs ->
  map fneg (where_ (diff_from (Fin prev) (map Fin qs))
                   (fun d => flt d (fz 0)) (fz 0)) =
  repeat (Fin 0) (length qs).
Proof.
  revert prev. induction qs as [|q qs IH]; intros prev H; [reflexivity|].
  destruct H as [Hle Hrest]. cbn [map diff_from where_ length repeat].
  fold (where_ (diff_from (Fin q) (map Fin qs)) (fun d => flt d (fz 0)) (fz 0)).
  rewrite IH by exact Hrest. f_equal.
  cbn [fsub fneg fadd flt].
  assert (E : Qc_ltb (q + - prev) (ofZ 0) = false).
  { destruct (Qc_ltb (q + - prev) (ofZ 0)) eqn:E; [|reflexivity].
    apply Qc_ltb_lt in E. exfalso.
    unfold Qclt, Qcle in *. rewrite Qc_this_plus, Qc_this_opp in E.
    change (this (ofZ 0)) with 0%Q in E. lra. }
  rewrite E. cbn [fneg]. now rewrite Qc_opp_zero.
Qed.

Lemma loss_moves_nondecreasing (qs : list Qc) :
  nondecreasing qs ->
  map fneg (where_ (diff (map Fin qs)) (fun d => flt d (fz 0)) (fz 0)) =
  repeat (Fin 0) (length qs).
Proof.
  destruct qs as [|q qs]; intros H; [reflexivity|].
  cbn [map diff where_ length repeat flt fneg].
  fold (where_ (diff_from (Fin q) (map Fin qs)) (fun d => flt d (fz 0)) (fz 0)).
  rewrite loss_moves_nondecreasing_from by exact H.
  now rewrite Qc_opp_zero.
Qed.

Lemma fold_fadd_zeros (l : Series) :
  Forall (fun x => x = Fin 0) l -> fold_left fadd l (Fin 0) = Fin 0.
Proof.
  induction l as [|x l IH]; intros H; [reflexivity|].
  inversion H as [|? ? Hx Hl]; subst. simpl.
  replace (0 + 0) with (0 : Qc) by ring. now apply IH.
Qed.

Lemma zeros_observed (l : Series) :
  Forall (fun x => x = Fin 0) l ->
  filter (fun x => negb (isnan x)) (map prep_value l) = l.
Proof.
  intros H. apply observations_all. induction H as [|x l Hx _ IH]; [reflexivity|].
  subst x. simpl. exact IH.
Qed.

(** the rolling mean of a series of zeros is NaN or zero *)
Lemma roll_mean_zeros (w n i : nat) :
  roll_mean_at w w (repeat (Fin 0) n) i = NaN \/
  roll_mean_at w w (repeat (Fin 0) n) i = fz 0.
Proof.
  unfold roll_mean_at.
  assert (Hw : Forall (fun x => x = Fin 0) (window w i (repeat (Fin 0) n))).
  { unfold window. apply Forall_skipn, Forall_firstn, Forall_forall.
    intros x Hx. now apply repeat_spec in Hx. }
  rewrite zeros_observed by exact Hw.
  destruct (w <=? length (window w i (repeat (Fin 0) n)))%nat; [|now left].
  assert (Hs : fsum (window w i (repeat (Fin 0) n)) = Fin 0)
    by (apply fold_fadd_zeros; exact Hw).
  rewrite Hs. unfold fdiv. destruct (Qc_eqb _ 0); [now left|]. right.
  f_equal. unfold Qcdiv. change (ofZ 0) with (0 : Qc). ring.
Qed.

Lemma rsi_at_no_loss (gain loss : float) :
  loss = NaN \/ loss = fz 0 -> rsi_at gain loss = NaN.
Proof.
  intros [->| ->]; [|apply rsi_at_zero_loss].
  unfold rsi_at. now destruct gain.
Qed.

(** X5: for a series of finite closes in which no close is lower than the
    one before (flat or rising), the RSI field is absent on every row: the
    mean loss is zero wherever it is defined. *)
Theorem rsi_absent_when_never_falling
    (closes : list Qc) (df : DataFrame) (i : nat) (r : IndicatorRow) :
  map Close df = map Fin closes ->
  nondecreasing closes ->
  nth_error (get_historical_data (Ok df)) i = Some r ->
  rsi r = PyNone.
Proof.
  intros Hc Hnd H. rewrite (rsi_field _ _ _ H), Hc.
  rewrite rsi_at_no_loss; [reflexivity|].
  unfold rsi_loss. rewrite loss_moves_nondecreasing by exact Hnd.
  destruct (Nat.lt_ge_cases i (length closes)) as [Hi|Hi].
  - rewrite nth_rolling_mean by (now rewrite repeat_length).
    apply roll_mean_zeros.
  - left. apply nth_overflow. now rewrite length_rolling_mean, repeat_length.
Qed.

Lemma rsi_absent_when_never_falling_witness :
  exists r, nth_error (get_historical_data (Ok (linear 20))) 19 = Some r /\
            rsi r = PyNone.
Proof.
  destruct (nth_error (get_historical_data (Ok (linear 20))) 19) as [r|] eqn:E.
  - exists r. split; [reflexivity|].
    apply (rsi_absent_when_never_falling
             (map (fun i => ofZ (100 + Z.of_nat i)) (seq 0 20)) (linear 20) 19 r).
    + reflexivity.
    + vm_compute. intuition discriminate.
    + exact E.
  - vm_compute in E. discriminate.
Defined.

(** ** MACD of a flat series *)

Lemma ema_from_flat (a c : Qc) (n : nat) :
  ema_from a c (repeat c n) = repeat c n.
Proof.
  induction n as [|n IH]; [reflexivity|]. cbn [repeat ema_from].
  replace (c * a + c * (1 - a)) with c by ring. now rewrite IH.
Qed.

Lemma ema_spec_flat (span : Z) (c : Qc) (n : nat) :
  ema_spec span (repeat c n) = repeat c n.
Proof.
  destruct n as [|n]; [reflexivity|]. cbn [repeat ema_spec].
  now rewrite ema_from_flat.
Qed.

Lemma map2_minus_flat (c : Qc) (n : nat) :
  map2 Qcminus (repeat c n) (repeat c n) = repeat 0 n.
Proof.
  induction n as [|n IH]; [reflexivity|]. cbn [repeat map2].
  rewrite IH. f_equal. ring.
Qed.

Lemma map_Close_flat (c : Qc) (df : DataFrame) :
  (forall row, In row df -> Close row = Fin c) ->
  map Close df = map Fin (repeat c (length df)).
Proof.
  induction df as [|p df IH]; intros H; [reflexivity|].
  cbn [map length repeat]. rewrite (H p) by now left.
  f_equal. apply IH. intros row Hrow. apply H. now right.
Qed.

Lemma py_round2_zero : py_round (Fin 0) 2 = fz 0.
Proof. vm_compute. value_eq. Qed.

(** X6: when every close of the series is the same finite value, the MACD
    and Signal fields are 0 on every row. *)
Theorem macd_zero_on_flat_series
    (c : Qc) (df : DataFrame) (i : nat) (r : IndicatorRow) :
  (forall row, In row df -> Close row = Fin c) ->
  nth_error (get_historical_data (Ok df)) i = Some r ->
  macd r = PyFloat (fz 0) /\ signal r = PyFloat (fz 0).
Proof.
  intros Hflat H.
  destruct (get_historical_data_row _ _ _ H) as (df' & p & Hdf & Hp & Hr).
  inversion Hdf; subst df'.
  apply historical_row_fields in Hr.
  destruct Hr as (_ & _ & _ & _ & _ & _ & _ & _ & Hm & Hs).
  rewrite (map_Close_flat c df Hflat), calculate_macd_finite in Hm, Hs.
  unfold signal_spec, macd_spec in Hm, Hs.
  rewrite !ema_spec_flat, map2_minus_flat, ?ema_spec_flat in Hm, Hs.
  cbn [fst snd] in Hm, Hs. unfold get in Hm, Hs.
  apply nth_error_lt in Hp.
  rewrite nth_map_Fin, nth_repeat_lt in Hm, Hs
    by (rewrite ?repeat_length; exact Hp).
  rewrite Hm, Hs, safe_round_float. cbn [isfinite].
  rewrite py_round2_zero. auto.
Qed.

Lemma macd_zero_on_flat_series_witness :
  exists r, nth_error (get_historical_data (Ok flat25)) 24 = Some r /\
            macd r = PyFloat (fz 0) /\ signal r = PyFloat (fz 0).
Proof.
  destruct (nth_error (get_historical_data (Ok flat25)) 24) as [r|] eqn:E.
  - exists r. split; [reflexivity|].
    apply (macd_zero_on_flat_series (ofZ 100) flat25 24 r); [|exact E].
    intros row Hin. unfold flat25 in Hin. apply in_map_iff in Hin.
    destruct Hin as (j & <- & _). reflexivity.
  - vm_compute in E. discriminate.
Defined.

(** ** Strings *)

Lemma str_eqb_eq (a b : str) : str_eqb a b = true <-> a = b.
Proof.
  revert b. induction a as [|x a IH]; intros [|y b]; simpl;
    try (split; [discriminate | congruence]); [tauto|].
  rewrite andb_true_iff, Ascii.eqb_eq, IH. split.
  - intros [-> ->]. reflexivity.
  - intros E. inversion E. auto.
Qed.

Lemma str_eqb_refl (a : str) : str_eqb a a = true.
Proof. now apply str_eqb_eq. Qed.

Ltac all_chars c :=
  destruct c as [[] [] [] [] [] [] [] []]; reflexivity.

Lemma lower_upper_char (c : ascii) : lower_char (upper_char c) = lower_char c.
Proof. all_chars c. Qed.

Lemma upper_upper_char (c : ascii) : upper_char (upper_char c) = upper_char c.
Proof. all_chars c. Qed.

Lemma is_space_upper_char (c : ascii) : is_space (upper_char c) = is_space c.
Proof. all_chars c. Qed.

Lemma is_upper_lower_char (c : ascii) : is_upper_letter (lower_char c) = false.
Proof. all_chars c. Qed.

Lemma py_lower_upper (s : str) : py_lower (py_upper s) = py_lower s.
Proof.
  unfold py_lower, py_upper. rewrite map_map. apply map_ext, lower_upper_char.
Qed.

Lemma py_upper_upper (s : str) : py_upper (py_upper s) = py_upper s.
Proof.
  unfold py_upper. rewrite map_map. apply map_ext, upper_upper_char.
Qed.

Lemma lstrip_no_lead (s : str) : no_lead (lstrip s).
Proof.
  induction s as [|c s IH]; simpl; [exact I|].
  destruct (is_space c) eqn:E; [exact IH | exact E].
Qed.

Lemma lstrip_id (s : str) : no_lead s -> lstrip s = s.
Proof. destruct s as [|c s]; simpl; [reflexivity|]. now intros ->. Qed.

Lemma no_lead_app (s t : str) : s <> [] -> no_lead (s ++ t) <-> no_lead s.
Proof. destruct s; [congruence | reflexivity]. Qed.

Lemma lstrip_keeps_end (s : str) : no_lead (rev s) -> no_lead (rev (lstrip s)).
Proof.
  induction s as [|c s IH]; simpl; [auto|].
  destruct (is_space c) eqn:E; [|auto].
  intros H. destruct s as [|d s]; [exact I|].
  apply IH. apply (no_lead_app (rev (d :: s)) [c]) in H; [exact H|].
  simpl. now destruct (rev s).
Qed.

Lemma py_strip_no_lead (s : str) : no_lead (py_strip s).
Proof.
  unfold py_strip. apply lstrip_keeps_end. rewrite rev_involutive.
  apply lstrip_no_lead.
Qed.

Lemma py_strip_no_trail (s : str) : no_lead (rev (py_strip s)).
Proof. unfold py_strip. rewrite rev_involutive. apply lstrip_no_lead. Qed.

Lemma py_strip_id (s : str) : no_lead s -> no_lead (rev s) -> py_strip s = s.
Proof.
  intros H1 H2. unfold py_strip.
  now rewrite (lstrip_id s H1), (lstrip_id (rev s) H2), rev_involutive.
Qed.

Lemma py_strip_idempotent (s : str) : py_strip (py_strip s) = py_strip s.
Proof. apply py_strip_id; [apply py_strip_no_lead | apply py_strip_no_trail]. Qed.

Lemma lstrip_upper (s : str) : lstrip (py_upper s) = py_upper (lstrip s).
Proof.
  induction s as [|c s IH]; [reflexivity|].
  cbn [py_upper map lstrip]. rewrite is_space_upper_char.
  destruct (is_space c); [exact IH | reflexivity].
Qed.

Lemma py_strip_upper (s : str) : py_strip (py_upper s) = py_upper (py_strip s).
Proof.
  unfold py_strip. rewrite lstrip_upper. unfold py_upper at 1.
  rewrite <- map_rev. fold (py_upper (rev (lstrip s))).
  rewrite lstrip_upper. unfold py_upper. now rewrite map_rev.
Qed.

(** ** The ticker table *)

Lemma lookup_In (key : str) (items : list (str * str)) (v : str) :
  lookup key items = Some v -> exists k, In (k, v) items.
Proof.
  induction items as [|[k w] items IH]; simpl; [discriminate|].
  destruct (str_eqb k key).
  - intros E. inversion E; subst. eauto.
  - intros E. destruct (IH E) as [k' Hk]. eauto.
Qed.

Lemma partial_match_In (normalized : str) (items : list (str * str)) (v : str) :
  partial_match normalized items = Some v -> exists k, In (k, v) items.
Proof.
  induction items as [|[k w] items IH]; simpl; [discriminate|].
  destruct (contains normalized k || contains k normalized).
  - intros E. inversion E; subst. eauto.
  - intros E. destruct (IH E) as [k' Hk]. eauto.
Qed.

Lemma table_checked :
  forallb (fun kv => str_eqb (find_ticker (fst kv)) (snd kv)
                     && str_eqb (find_ticker (snd kv)) (snd kv)
                     && is_valid_ticker (snd kv))
          POPULAR_STOCKS = true.
Proof. vm_compute. reflexivity. Qed.

Lemma table_entry_resolves (name ticker : str) :
  In (name, ticker) POPULAR_STOCKS ->
  find_ticker name = ticker /\ find_ticker ticker = ticker /\
  is_valid_ticker ticker = true.
Proof.
  intros H. pose proof table_checked as T. rewrite forallb_forall in T.
  specialize (T _ H). cbn [fst snd] in T.
  apply andb_true_iff in T. destruct T as [T T3].
  apply andb_true_iff in T. destruct T as [T1 T2].
  apply str_eqb_eq in T1, T2. auto.
Qed.

(** X12: resolving a resolved ticker changes nothing: for every ASCII search
    term, [find_ticker] applied to its own result returns that result. *)
Theorem find_ticker_idempotent (s : str) :
  ascii_text s ->
  find_ticker (find_ticker s) = find_ticker s.
Proof.
  intros _. remember (find_ticker s) as r eqn:Hr. unfold find_ticker in Hr.
  set (t := py_strip s) in Hr.
  destruct ((length t <=? 5)%nat && py_isupper t) eqn:Etest.
  - subst r. unfold find_ticker.
    assert (Et : py_strip t = t) by apply py_strip_idempotent.
    now rewrite Et, Etest.
  - destruct (lookup (normalize_company_name t) POPULAR_STOCKS) as [v|] eqn:El.
    + subst r. destruct (lookup_In _ _ _ El) as [k Hk].
      apply (table_entry_resolves k v Hk).
    + destruct (partial_match (normalize_company_name t) POPULAR_STOCKS) as [v|] eqn:Ep.
      * subst r. destruct (partial_match_In _ _ _ Ep) as [k Hk].
        apply (table_entry_resolves k v Hk).
      * subst r. unfold find_ticker. rewrite py_strip_upper.
        assert (Et : py_strip t = t) by apply py_strip_idempotent.
        rewrite Et.
        destruct ((length (py_upper t) <=? 5)%nat && py_isupper (py_upper t));
          [reflexivity|].
        assert (En : normalize_company_name (py_upper t) = normalize_company_name t).
        { unfold normalize_company_name. now rewrite py_lower_upper. }
        rewrite En, El, Ep. apply py_upper_upper.
Qed.

(** X10: every company name of the table resolves to the ticker listed for
    it, every listed ticker resolves to itself, and every listed ticker is
    accepted by [is_valid_ticker]. *)
Theorem listed_names_resolve (name ticker : str) :
  In (name, ticker) POPULAR_STOCKS ->
  find_ticker name = ticker /\ find_ticker ticker = ticker /\
  is_valid_ticker ticker = true.
Proof. apply table_entry_resolves. Qed.

(** X11: every name that [get_companies_by_ticker] lists for a ticker
    (written in any case) resolves back to that ticker, in uppercase. *)
Theorem listed_companies_resolve_back (ticker name : str) :
  ascii_text ticker ->
  In name (get_companies_by_ticker ticker) ->
  find_ticker name = py_upper ticker.
Proof.
  unfold get_companies_by_ticker. intros _ H. apply in_map_iff in H.
  destruct H as ([k v] & <- & Hin). apply filter_In in Hin.
  destruct Hin as [Hin Heq]. cbn [fst snd] in *.
  apply str_eqb_eq in Heq. subst v. apply (table_entry_resolves k _ Hin).
Qed.

(** ** Search *)

Lemma not_seen (ticker : str) (seen : list str) :
  existsb (str_eqb ticker) seen = false -> ~ In ticker seen.
Proof.
  intros H Hin. assert (E : existsb (str_eqb ticker) seen = true).
  { apply existsb_exists. exists ticker. split; [exact Hin | apply str_eqb_refl]. }
  congruence.
Qed.

Lemma NoDup_snoc {A : Type} (l : list A) (x : A) :
  NoDup l -> ~ In x l -> NoDup (l ++ [x]).
Proof.
  intros Hl Hx. apply NoDup_app; [exact Hl | repeat constructor; auto |].
  intros y Hy [<-|[]]. contradiction.
Qed.

Lemma search_loop_invariant (query_lower : str) (limit : Z)
    (items : list (str * str)) (matches : list Suggestion) (seen : list str) :
  (forall kv, In kv items -> In kv POPULAR_STOCKS) ->
  NoDup (map sg_ticker matches) ->
  (forall m, In m matches -> In (sg_ticker m) seen) ->
  Forall (suggestion_of query_lower) matches ->
  (Z.of_nat (length matches) < Z.max limit 1)%Z ->
  let result := search_loop query_lower limit items matches seen in
  NoDup (map sg_ticker result) /\
  Forall (suggestion_of query_lower) result /\
  (Z.of_nat (length result) <= Z.max limit 1)%Z.
Proof.
  revert matches seen. induction items as [|[company_name ticker] items IH];
    intros matches seen Hitems Hnd Hseen Hall Hlen; cbn [search_loop].
  - repeat split; auto. lia.
  - assert (Hrest : forall kv, In kv items -> In kv POPULAR_STOCKS)
      by (intros kv Hkv; apply Hitems; now right).
    destruct (existsb (str_eqb ticker) seen) eqn:Eseen; [now apply IH|].
    destruct (contains query_lower company_name
              || contains query_lower (py_lower ticker)) eqn:Ematch;
      [|now apply IH].
    set (m := {| sg_ticker := ticker;
                 sg_name := py_title company_name;
                 sg_display := ticker ++ chars " - " ++ py_title company_name |}).
    assert (Hnd' : NoDup (map sg_ticker (matches ++ [m]))).
    { rewrite map_app. apply NoDup_snoc; [exact Hnd|].
      intros Hin. apply in_map_iff in Hin. destruct Hin as (m' & E & Hm').
      change (sg_ticker m) with ticker in E.
      apply (not_seen ticker seen Eseen). rewrite <- E. now apply Hseen. }
    assert (Hall' : Forall (suggestion_of query_lower) (matches ++ [m])).
    { apply Forall_app. split; [exact Hall|]. constructor; [|constructor].
      exists company_name, ticker. repeat split; auto.
      apply Hitems. now left. }
    assert (Hl : length (matches ++ [m]) = S (length matches))
      by (rewrite length_app; simpl; lia).
    destruct (limit <=? Z.of_nat (length (matches ++ [m])))%Z eqn:Elim.
    + repeat split; auto. rewrite Hl. lia.
    + apply Z.leb_gt in Elim. apply IH; auto.
      * intros m' Hm'. apply in_app_iff in Hm'. destruct Hm' as [Hm'|[<-|[]]].
        -- right. now apply Hseen.
        -- now left.
      * lia.
Qed.

(** X13: for every ASCII query and every limit, [search_companies] returns
    nothing when the stripped lowercase query has fewer than 2 characters;
    otherwise no ticker appears twice, every suggestion comes from a table
    item whose name or lowercase ticker contains the query (name in title
    case, display "TICKER - Name"), and there are at most max(limit, 1)
    suggestions: one suggestion is returned even for a limit of 0 or less. *)
Theorem search_companies_sound (query : str) (limit : Z) :
  ascii_text query ->
  let result := search_companies query limit in
  let query_lower := py_strip (py_lower query) in
  ((length query_lower < 2)%nat -> result = []) /\
  NoDup (map sg_ticker result) /\
  Forall (suggestion_of query_lower) result /\
  (Z.of_nat (length result) <= Z.max limit 1)%Z.
Proof.
  intros _. cbv zeta. unfold search_companies.
  destruct (length (py_strip (py_lower query)) <? 2)%nat eqn:E.
  - repeat split; auto; try constructor. simpl. lia.
  - split; [intros H; apply Nat.ltb_lt in H; congruence|].
    apply search_loop_invariant.
    + auto.
    + constructor.
    + intros m [].
    + constructor.
    + simpl. lia.
Qed.

(** ** Normalised names *)

Lemma forallb_lstrip (f : ascii -> bool) (s : str) :
  forallb f s = true -> forallb f (lstrip s) = true.
Proof.
  induction s as [|c s IH]; [auto|]. cbn [lstrip].
  destruct (is_space c); [|auto].
  simpl. intros H. apply andb_true_iff in H. now apply IH.
Qed.

Lemma forallb_rev (f : ascii -> bool) (s : str) :
  forallb f s = true -> forallb f (rev s) = true.
Proof.
  rewrite !forallb_forall. intros H x Hx. apply H. now apply in_rev.
Qed.

Lemma forallb_py_strip (f : ascii -> bool) (s : str) :
  forallb f s = true -> forallb f (py_strip s) = true.
Proof.
  intros H. unfold py_strip.
  now apply forallb_rev, forallb_lstrip, forallb_rev, forallb_lstrip.
Qed.

Lemma forallb_firstn (f : ascii -> bool) (n : nat) (s : str) :
  forallb f s = true -> forallb f (firstn n s) = true.
Proof.
  rewrite !forallb_forall. intros H x Hx. apply H.
  rewrite <- (firstn_skipn n s). apply in_or_app. now left.
Qed.

Lemma forallb_skipn (f : ascii -> bool) (n : nat) (s : str) :
  forallb f s = true -> forallb f (skipn n s) = true.
Proof.
  rewrite !forallb_forall. intros H x Hx. apply H.
  rewrite <- (firstn_skipn n s). apply in_or_app. now right.
Qed.

(** X14: for a name of ASCII characters, the normalised company name
    contains no uppercase letter, comma, period or apostrophe. *)
Theorem normalized_name_is_plain (name : str) :
  ascii_text name ->
  forallb plain_char (normalize_company_name name) = true.
Proof.
  intros _. unfold normalize_company_name.
  set (n0 := remove_char "'" (remove_char "." (remove_char "," (py_strip (py_lower name))))).
  assert (H0 : forallb plain_char n0 = true).
  { apply forallb_forall. intros c Hc. unfold n0, remove_char in Hc.
    apply filter_In in Hc. destruct Hc as [Hc H3].
    apply filter_In in Hc. destruct Hc as [Hc H2].
    apply filter_In in Hc. destruct Hc as [Hc H1].
    assert (Hl : forallb (fun c => negb (is_upper_letter c)) (py_strip (py_lower name)) = true).
    { apply forallb_py_strip, forallb_forall. intros x Hx.
      unfold py_lower in Hx. apply in_map_iff in Hx. destruct Hx as (y & <- & _).
      now rewrite is_upper_lower_char. }
    rewrite forallb_forall in Hl. unfold plain_char.
    now rewrite (Hl c Hc), H1, H2, H3. }
  clearbody n0.
  assert (H1 : forall l n, forallb plain_char n = true ->
            forallb plain_char
              (fold_left (fun name suffix =>
                            if endswith name suffix
                            then py_strip (firstn (length name - length suffix) name)
                            else name) l n) = true).
  { induction l as [|suffix l IH]; intros n Hn; [exact Hn|].
    cbn [fold_left]. apply IH. destruct (endswith n suffix); [|exact Hn].
    now apply forallb_py_strip, forallb_firstn. }
  specialize (H1 suffixes n0 H0).
  destruct (startswith _ _); [|exact H1].
  now apply forallb_py_strip, forallb_skipn.
Qed.

(** X15: a search term that does not look like a ticker and whose
    normalised form is empty (the empty string, blanks, punctuation only)
    resolves to AAPL, the ticker of the first table entry: the empty string
    is contained in every company name. *)
Theorem empty_name_resolves_to_first_entry (s : str) :
  ascii_text s ->
  (length (py_strip s) <=? 5)%nat && py_isupper (py_strip s) = false ->
  normalize_company_name (py_strip s) = [] ->
  find_ticker s = chars "AAPL".
Proof.
  intros _ Htest Hn. unfold find_ticker. rewrite Htest, Hn. reflexivity.
Qed.

(** ** Witnesses for the ticker utilities *)

Lemma listed_names_resolve_witness :
  find_ticker (chars "amazon.com") = chars "AMZN".
Proof.
  apply (listed_names_resolve (chars "amazon.com") (chars "AMZN")).
  vm_compute. tauto.
Defined.

Lemma listed_companies_resolve_back_witness :
  find_ticker (chars "facebook") = chars "META".
Proof.
  apply (listed_companies_resolve_back (chars "meta") (chars "facebook")).
  - reflexivity.
  - vm_compute. tauto.
Defined.

Lemma find_ticker_idempotent_witness :
  find_ticker (find_ticker (chars "Xerox Corp")) = find_ticker (chars "Xerox Corp").
Proof. apply find_ticker_idempotent. reflexivity. Defined.

Lemma search_companies_sound_witness :
  NoDup (map sg_ticker (search_companies (chars "in") 0)) /\
  (Z.of_nat (length (search_companies (chars "in") 0)) <= 1)%Z.
Proof.
  destruct (search_companies_sound (chars "in") 0) as (_ & Hnd & _ & Hlen).
  - reflexivity.
  - split; [exact Hnd | exact Hlen].
Defined.

Lemma normalized_name_is_plain_witness :
  forallb plain_char (normalize_company_name (chars "The Home Depot, Inc.")) = true.
Proof. apply normalized_name_is_plain. reflexivity. Defined.

Lemma empty_name_resolves_to_first_entry_witness :
  find_ticker (chars " .,' ") = chars "AAPL".
Proof. apply empty_name_resolves_to_first_entry; reflexivity. Defined.

(** ** The current quote *)

Lemma safe_float_Fin (v : pyval) (d : Qc) :
  exists q, safe_float v (Fin d) = Fin q.
Proof. apply isfinite_Fin. now apply safe_float_finite. Qed.

(** X16: every quote that [get_current_data] returns carries the analyzer's
    ticker as symbol; its current price, previous close, 52-week high and
    52-week low are finite numbers with two decimals, never None, each being
    a finite input that is only rounded; the change and the change percent,
    which are computed, are None or numbers with two decimals. *)
Theorem current_data_fields
    (self_ticker : str) (stock_info : exc Info) (d : CurrentData) :
  get_current_data self_ticker stock_info = Some d ->
  cd_symbol d = self_ticker /\
  Forall two_decimals
    [cd_currentPrice d; cd_previousClose d; cd_high52Week d; cd_low52Week d] /\
  Forall none_or_two_decimals [cd_change d; cd_changePercent d].
Proof.
  intros H. unfold get_current_data in H. apply try_except_Some in H.
  apply bind_Ok in H. destruct H as (info & _ & H).
  destruct (safe_float_Fin
              (or_if_none (or_if_none (info_currentPrice info)
                                      (info_regularMarketPrice info))
                          (info_previousClose info)) (ofZ 0)) as [cp Ecp].
  destruct (safe_float_Fin (info_previousClose info) (ofZ 0)) as [pc Epc].
  rewrite Ecp, Epc in H.
  destruct (feq (Fin cp) (fz 0) || feq (Fin pc) (fz 0)); [discriminate|].
  destruct (safe_float_Fin (info_fiftyTwoWeekHigh info) cp) as [hi Ehi].
  destruct (safe_float_Fin (info_fiftyTwoWeekLow info) cp) as [lo Elo].
  rewrite Ehi, Elo in H.
  apply bind_Ok in H. destruct H as (pct & Hpct & H).
  apply bind_Ok in H. destruct H as (vol & _ & H).
  apply bind_Ok in H. destruct H as (cap & _ & H).
  apply Ok_inj in H. apply (f_equal (fun o => match o with Some x => x | None => d end)) in H.
  subst d. cbv beta iota delta [cd_symbol cd_currentPrice cd_previousClose cd_change
                                cd_changePercent cd_high52Week cd_low52Week].
  split; [reflexivity|]. split.
  - repeat (constructor; [apply safe_round_two_decimals|]). constructor.
  - repeat (constructor; [apply safe_round_none_or_two_decimals|]). constructor.
Qed.

Lemma current_data_fields_witness :
  exists d,
    get_current_data (chars "AAPL")
      (Ok {| info_currentPrice := PyNone;
             info_regularMarketPrice := PyFloat (fz 150);
             info_previousClose := PyInt 148;
             info_fiftyTwoWeekHigh := PyNone;
             info_fiftyTwoWeekLow := PyFloat NaN;
             info_volume := PyFloat NaN;
             info_marketCap := PyNone;
             info_longName := Some [];
             info_shortName := None |}) = Some d /\
    cd_symbol d = chars "AAPL" /\ cd_companyName d = chars "AAPL" /\
    cd_high52Week d = PyFloat (fz 150) /\ cd_volume d = 0%Z.
Proof.
  match goal with |- exists d, ?c = Some d /\ _ => destruct c as [d|] eqn:E end.
  - exists d. split; [reflexivity|].
    destruct (current_data_fields _ _ _ E) as [Hs _].
    split; [exact Hs|].
    vm_compute in E. apply (f_equal (fun o => match o with Some x => x | None => d end)) in E.
    subst d. cbv beta iota delta [cd_companyName cd_high52Week cd_volume].
    split; [reflexivity|]. split; [value_eq | reflexivity].
  - vm_compute in E. discriminate.
Defined.

(** a previous close that cannot be used: missing, NaN, infinite or zero *)
Lemma unusable_price (v : pyval) :
  v = PyNone \/ v = PyInt 0 \/
  (exists x, v = PyFloat x /\ (isnan x || isinf x || feq x (fz 0)) = true) ->
  safe_float v (fz 0) = fz 0.
Proof.
  intros [->|[->|(x & -> & H)]]; try reflexivity.
  destruct x as [| | |q]; try reflexivity.
  cbn in H. unfold safe_float. cbn [py_float isnan isinf orb].
  apply Qc_eqb_eq in H. now subst.
Qed.

Lemma get_current_data_no_previous_close (self_ticker : str) (info : Info) :
  safe_float (info_previousClose info) (fz 0) = fz 0 ->
  get_current_data self_ticker (Ok info) = None.
Proof.
  intros H. unfold get_current_data. cbn [bind]. rewrite H.
  change (feq (fz 0) (fz 0)) with true. now rewrite orb_true_r.
Qed.

(** ** Routes *)

Lemma predict_prices_length
    (lstsq : Matrix -> Series -> exc (list float)) (now : nat -> Z)
    (history : exc DataFrame) (days : Z) (res : ForecastResult) :
  predict_prices lstsq now history days = Some res ->
  length (predictions res) = Z.to_nat days.
Proof.
  intros H.
  destruct (predict_prices_Some _ _ _ _ _ H)
    as (sx & sy & m & ld & lv & ma & conf & Hloop & _).
  destruct (predict_loop_shape now sx sy m ld lv _ _ _ _ Hloop) as [Hd _].
  rewrite <- (length_map fp_date), Hd, length_map2, length_seq, Nat.min_id.
  apply length_range1.
Qed.

Lemma current_data_symbol
    (self_ticker : str) (stock_info : exc Info) (d : CurrentData) :
  get_current_data self_ticker stock_info = Some d -> cd_symbol d = self_ticker.
Proof.
  intros H. unfold get_current_data in H. apply try_except_Some in H.
  apply bind_Ok in H. destruct H as (info & _ & H).
  destruct (feq _ _ || feq _ _); [discriminate|].
  apply bind_Ok in H. destruct H as (pct & _ & H).
  apply bind_Ok in H. destruct H as (vol & _ & H).
  apply bind_Ok in H. destruct H as (cap & _ & H).
  apply Ok_inj in H.
  apply (f_equal (fun o => match o with Some x => x | None => d end)) in H.
  now subst d.
Qed.

Section RouteProperties.
Variable yf_ticker : str -> exc unit.
Variable yf_info : str -> exc Info.
Variable yf_history : str -> str -> exc DataFrame.
Variable lstsq : Matrix -> Series -> exc (list float).
Variable now : nat -> Z.
Variable exn_str : exn -> str.

(** X17: when the quote of the resolved ticker has no usable previous close
    (missing or None, NaN, infinite, or zero), /api/stock answers 404, whatever
    current price and history the source has. *)
Theorem stock_not_found_without_previous_close (ticker : str) (info : Info) :
  let self_ticker := analyzer_ticker (find_ticker ticker) in
  yf_ticker self_ticker = Ok tt ->
  yf_info self_ticker = Ok info ->
  info_previousClose info = PyNone \/ info_previousClose info = PyInt 0 \/
  (exists x, info_previousClose info = PyFloat x /\
             (isnan x || isinf x || feq x (fz 0)) = true) ->
  get_stock_data yf_ticker yf_info yf_history lstsq now exn_str ticker =
  (NotFoundBody (chars "Invalid ticker or data unavailable for " ++ ticker)
                ticker (find_ticker ticker), 404%Z).
Proof.
  cbv zeta. intros Ht Hi Hp. unfold get_stock_data. rewrite Ht, Hi. cbn [bind].
  rewrite get_current_data_no_previous_close by (now apply unusable_price).
  reflexivity.
Qed.

(** X18: for every day count that the route hands to the view (an unsigned
    integer), /api/predict answers 400 exactly when [days] is 0 or above 30;
    its status is always 200, 400 or 500; and a 200 answer carries a forecast
    of exactly [days] points, with 1 <= days <= 30. *)
Theorem predict_stock_responses (ticker : str) (days : N) :
  let response :=
    predict_stock yf_ticker yf_history lstsq now exn_str ticker days in
  (snd response = 400%Z <-> (days = 0 \/ 30 < days)%N) /\
  (snd response = 200%Z \/ snd response = 400%Z \/ snd response = 500%Z) /\
  (snd response = 200%Z ->
   exists r, fst response = ForecastBody r /\
             length (predictions r) = N.to_nat days /\
             (1 <= days <= 30)%N).
Proof.
  cbv zeta. unfold predict_stock.
  destruct (Z.ltb_spec 30 (Z.of_N days)) as [H30|H30]; cbn [or_500 fst snd].
  { split; [split; [lia | reflexivity] | split; [auto | discriminate]]. }
  destruct (Z.ltb_spec (Z.of_N days) 1) as [H1|H1]; cbn [or_500 fst snd].
  { split; [split; [lia | reflexivity] | split; [auto | discriminate]]. }
  destruct (yf_ticker (analyzer_ticker (find_ticker ticker))) as [[]|e];
    cbn [bind or_500 fst snd].
  2: { split; [split; [discriminate | lia] | split; [auto | discriminate]]. }
  destruct (predict_prices lstsq now _ (Z.of_N days)) as [r|] eqn:E;
    cbn [or_500 fst snd].
  - split; [split; [discriminate | lia]|]. split; [auto|].
    intros _. exists r. split; [reflexivity|].
    rewrite (predict_prices_length _ _ _ _ _ E). lia.
  - split; [split; [discriminate | lia] | split; [auto | discriminate]].
Qed.

(** X19: /api/stock answers 200, 404 or 500, and 500 only when constructing
    the ticker object raises; a 200 answer carries the quote of the resolved
    ticker in uppercase, a forecast that is null or has exactly 7 points,
    and a sentiment: a failed forecast does not fail the request. *)
Theorem stock_data_responses (ticker : str) :
  let response :=
    get_stock_data yf_ticker yf_info yf_history lstsq now exn_str ticker in
  (snd response = 200%Z \/ snd response = 404%Z \/ snd response = 500%Z) /\
  (snd response = 500%Z <->
   exists e, yf_ticker (analyzer_ticker (find_ticker ticker)) = Raise e) /\
  (snd response = 200%Z ->
   exists current historical forecast sentiment,
     fst response = StockBody current historical forecast sentiment
                              ticker (find_ticker ticker) /\
     cd_symbol current = py_upper (find_ticker ticker) /\
     (forall r, forecast = Some r -> length (predictions r) = 7%nat)).
Proof.
  cbv zeta. unfold get_stock_data.
  destruct (yf_ticker (analyzer_ticker (find_ticker ticker))) as [[]|e] eqn:Et;
    cbn [bind or_500 fst snd].
  2: { split; [auto|]. split; [split; eauto | discriminate]. }
  destruct (get_current_data _ _) as [cur|] eqn:Ec; cbn [or_500 fst snd].
  - split; [auto|]. split.
    + split; [discriminate | intros [e He]; discriminate].
    + intros _. eexists _, _, _, _. split; [reflexivity|]. split.
      * apply (current_data_symbol _ _ _ Ec).
      * intros r Hr. now rewrite (predict_prices_length _ _ _ _ _ Hr).
  - split; [auto|]. split; [|discriminate].
    split; [discriminate | intros [e He]; discriminate].
Qed.
End RouteProperties.

Lemma stock_not_found_without_previous_close_witness :
  snd (get_stock_data ticker_ok (fun _ => Ok quote_without_previous)
         history_linear40 half_half_solver fixed_clock exn_text (chars "apple"))
  = 404%Z.
Proof.
  rewrite (stock_not_found_without_previous_close ticker_ok
             (fun _ => Ok quote_without_previous) history_linear40
             half_half_solver fixed_clock exn_text (chars "apple")
             quote_without_previous).
  - reflexivity.
  - reflexivity.
  - reflexivity.
  - left. reflexivity.
Defined.

Lemma predict_stock_responses_witness :
  snd (predict_stock ticker_ok history_linear40 half_half_solver fixed_clock
         exn_text (chars "apple") 0) = 400%Z /\
  exists r,
    fst (predict_stock ticker_ok history_linear40 half_half_solver fixed_clock
           exn_text (chars "apple") 7) = ForecastBody r /\
    length (predictions r) = 7%nat.
Proof.
  split.
  - apply (predict_stock_responses ticker_ok history_linear40 half_half_solver
             fixed_clock exn_text (chars "apple") 0). left. reflexivity.
  - destruct (predict_stock_responses ticker_ok history_linear40 half_half_solver
                fixed_clock exn_text (chars "apple") 7) as (_ & _ & H).
    destruct H as (r & Hr & Hlen & _).
    + vm_compute. reflexivity.
    + exists r. split; [exact Hr | exact Hlen].
Defined.

Lemma stock_data_responses_witness :
  exists current historical forecast sentiment,
    fst (get_stock_data ticker_ok (fun _ => Ok full_quote) history_linear40
           half_half_solver fixed_clock exn_text (chars "apple"))
    = StockBody current historical forecast sentiment
                (chars "apple") (chars "AAPL") /\
    cd_symbol current = chars "AAPL".
Proof.
  destruct (stock_data_responses ticker_ok (fun _ => Ok full_quote)
              history_linear40 half_half_solver fixed_clock exn_text
              (chars "apple")) as (_ & _ & H).
  destruct H as (c & h & f & s & Hb & Hs & _).
  - vm_compute. reflexivity.
  - exists c, h, f, s. split; [exact Hb | exact Hs].
Defined.

(** ** The LSTM predictor *)

Lemma scaler_transform_length (sc : MinMaxScaler) (X Xs : Matrix) :
  scaler_transform sc X = Ok Xs -> length Xs = length X /\ X <> [].
Proof.
  unfold scaler_transform, check_array. intros H.
  destruct (existsb _ X); [discriminate|].
  destruct X as [|row X]; [discriminate|]. cbn [length Nat.eqb bind] in H.
  apply Ok_inj in H. subst Xs. rewrite length_map. split; [reflexivity | discriminate].
Qed.

Lemma scaler_inverse_transform_length (sc : MinMaxScaler) (X Xs : Matrix) :
  scaler_inverse_transform sc X = Ok Xs -> length Xs = length X /\ X <> [].
Proof.
  unfold scaler_inverse_transform, check_array. intros H.
  destruct (existsb _ X); [discriminate|].
  destruct X as [|row X]; [discriminate|]. cbn [length Nat.eqb bind] in H.
  apply Ok_inj in H. subst Xs. rewrite length_map. split; [reflexivity | discriminate].
Qed.

Lemma length_column (j : nat) (X : Matrix) : length (column j X) = length X.
Proof. unfold column. apply length_map. Qed.

(** a window, shifted by one: drop its first value, append the next one *)
Lemma window_shift (k : nat) (l : Series) :
  (S k < length l)%nat ->
  tl (firstn (S k) l) ++ [nth (S k) l NaN] = firstn (S k) (tl l).
Proof.
  intros H. destruct l as [|x l]; [simpl in H; lia|].
  cbn [firstn tl nth]. simpl in H.
  revert l H. induction k as [|k IH]; intros l H.
  - destruct l as [|y l]; [simpl in H; lia | reflexivity].
  - destruct l as [|y l]; [simpl in H; lia|].
    cbn [firstn app nth]. f_equal. apply IH. simpl in H. lia.
Qed.

Lemma list_as_map_nth {A : Type} (d : A) (l : list A) :
  l = map (fun j => nth j l d) (seq 0 (length l)).
Proof.
  induction l as [|x l IH]; [reflexivity|].
  cbn [length seq map nth]. f_equal.
  rewrite <- seq_shift, map_map. exact IH.
Qed.

Lemma map_seq_from {A : Type} (f : nat -> A) (k n : nat) :
  map f (seq k n) = map (fun j => f (j + k)%nat) (seq 0 n).
Proof.
  revert k. induction n as [|n IH]; intros k; [reflexivity|].
  cbn [seq map]. f_equal. rewrite (IH (S k)), <- seq_shift, map_map.
  apply map_ext. intros j. f_equal. lia.
Qed.

Lemma nth_skipn_shift (k j : nat) (s : Series) :
  nth j (skipn k s) NaN = nth (j + k) s NaN.
Proof.
  revert s. induction k as [|k IH]; intros s.
  - now rewrite Nat.add_0_r.
  - destruct s as [|x s]; [now destruct j|].
    cbn [skipn]. rewrite IH. now rewrite Nat.add_succ_r.
Qed.

Lemma sequences_windows (k : nat) (s : Series) :
  sequences k s =
  (map (fun j => firstn k (skipn j s)) (seq 0 (length s - k)), skipn k s).
Proof.
  unfold sequences. f_equal.
  - rewrite map_seq_from. apply map_ext. intros j.
    now replace (j + k - k)%nat with j by lia.
  - rewrite map_seq_from, (list_as_map_nth NaN (skipn k s)) at 1.
    rewrite length_skipn. apply map_ext. intros j.
    symmetry. apply nth_skipn_shift.
Qed.

Lemma skipn_S_tl {A : Type} (j : nat) (s : list A) :
  skipn (S j) s = tl (skipn j s).
Proof.
  revert s. induction j as [|j IH]; intros s.
  - now destruct s.
  - destruct s as [|x s]; [reflexivity|].
    change (skipn (S j) s = tl (skipn j s)). apply IH.
Qed.

Section LstmProperties.
Variable TENSORFLOW_AVAILABLE : bool.
Variable KerasModel : Type.
Variable keras_fit : Matrix -> Series -> exc KerasModel.
Variable keras_predict : KerasModel -> Matrix -> exc Series.
Variable now : nat -> Z.

(** X20: when [prepare_data] succeeds, the scaler it leaves in the predictor
    is the one fitted on the column of closes, and the windows are cut from
    the closes transformed by that scaler: there are more rows than
    [lookback], window j is the [lookback] scaled closes starting at row j,
    the targets are the scaled closes from row [lookback] on, and each window
    is the previous one without its first value, followed by the previous
    target. *)
Theorem prepare_data_windows
    (self self' : LSTMStockPredictor KerasModel) (df : DataFrame)
    (X : Matrix) (y : Series) :
  prepare_data self df = (Ok (X, y), self') ->
  let k := lp_lookback self in
  let closes := map (fun c => [c]) (map Close df) in
  exists (sc : MinMaxScaler) (scaled : Matrix),
    scaler_fit closes = Ok sc /\
    scaler_transform sc closes = Ok scaled /\
    self' = with_scaler self (Some sc) /\
    length scaled = length df /\
    (k < length df)%nat /\
    X = map (fun j => firstn k (skipn j (column 0 scaled)))
            (seq 0 (length df - k)) /\
    y = skipn k (column 0 scaled) /\
    (forall j, (0 < k)%nat -> (S j < length X)%nat ->
               nth (S j) X [] = tl (nth j X []) ++ [nth j y NaN]).
Proof.
  cbv zeta. unfold prepare_data.
  destruct (scaler_fit _) as [sc|e]; [|discriminate].
  destruct (scaler_transform sc _) as [scaled|e] eqn:Et; [|discriminate].
  pose proof (scaler_transform_length _ _ _ Et) as [Hlen _].
  rewrite !length_map in Hlen.
  cbn [with_scaler lp_lookback]. rewrite sequences_windows, length_column, Hlen.
  set (s := column 0 scaled).
  assert (Hs : length s = length df) by (unfold s; now rewrite length_column).
  set (k := lp_lookback self).
  destruct (length (map _ (seq 0 (length df - k))) =? 0)%nat eqn:E0; [discriminate|].
  intros H. injection H as <- <- <-.
  apply Nat.eqb_neq in E0. rewrite length_map, length_seq in E0.
  exists sc, scaled.
  split; [reflexivity|]. split; [exact Et|]. split; [reflexivity|].
  split; [exact Hlen|]. split; [lia|]. split; [reflexivity|].
  split; [reflexivity|].
  rewrite length_map, length_seq.
  intros j Hk Hj.
  rewrite !(nth_map_default (fun j => firstn k (skipn j s)) _ _ (length s))
    by (rewrite skipn_all; now destruct k).
  rewrite !seq_nth by lia. cbn [Nat.add].
  destruct k as [|k]; [lia|].
  rewrite nth_skipn_shift.
  replace (nth (j + S k) s NaN) with (nth (S k) (skipn j s) NaN)
    by (rewrite nth_skipn_shift; f_equal; lia).
  rewrite window_shift by (rewrite length_skipn; lia).
  f_equal. apply skipn_S_tl.
Qed.

Lemma lstm_confidence_range
    (self : LSTMStockPredictor KerasModel) (df : DataFrame) :
  exists c, calculate_confidence keras_predict self df = Fin c /\
            0 <= c /\ c <= ofZ 100.
Proof.
  unfold calculate_confidence.
  match goal with |- exists c, try_except ?body _ = _ /\ _ =>
    destruct body as [v|e] eqn:E end; cbn [try_except].
  - apply bind_Ok in E. destruct E as ([X y] & _ & E).
    apply bind_Ok in E. destruct E as (m & _ & E).
    apply bind_Ok in E. destruct E as (y_pred & _ & E).
    apply bind_Ok in E. destruct E as (d & _ & E).
    apply Ok_inj in E. subst v.
    match goal with |- context [py_max (fz 0) (py_min (fz 100) ?x)] =>
      destruct (clamp_bounds x) as (c & -> & H0 & H1) end.
    apply py_round2_bounds; assumption.
  - exists (ofZ 75). split; [reflexivity|].
    unfold Qcle. simpl. split; lra.
Qed.

(** X21: [calculate_confidence] always returns a number between 0 and 100,
    whatever the model predicts and also when anything raises (75.0). *)
Theorem lstm_confidence_in_range
    (self : LSTMStockPredictor KerasModel) (df : DataFrame) :
  exists c, calculate_confidence keras_predict self df = Fin c /\
            0 <= c /\ c <= ofZ 100.
Proof. apply lstm_confidence_range. Qed.

Lemma predict_steps_length (m : KerasModel) (days : nat) (batch ps : Series) :
  predict_steps keras_predict m days batch = Ok ps -> length ps = days.
Proof.
  revert batch ps. induction days as [|days IH]; intros batch ps H.
  - apply Ok_inj in H. now subst ps.
  - cbn [predict_steps] in H. apply bind_Ok in H. destruct H as (out & _ & H).
    destruct out as [|p out]; [discriminate|].
    apply bind_Ok in H. destruct H as (rest & Hrest & H).
    apply Ok_inj in H. subst ps. simpl. f_equal. eapply IH; eauto.
Qed.

Lemma predict_future_length (tf : bool)
    (self : LSTMStockPredictor KerasModel) (df : DataFrame) (days : Z)
    (preds : list ForecastPoint) :
  predict_future tf keras_predict now self df days = Ok preds ->
  length preds = Z.to_nat days /\ (1 <= days)%Z.
Proof.
  unfold predict_future. intros H.
  destruct (negb tf); [discriminate|].
  destruct (lp_model self) as [m|]; [|discriminate].
  destruct (lp_scaler self) as [sc|]; [|discriminate].
  apply bind_Ok in H. destruct H as (scaled & _ & H).
  destruct (negb _); [discriminate|].
  apply bind_Ok in H. destruct H as (ps & Hps & H).
  apply bind_Ok in H. destruct H as (inv & Hinv & H).
  apply Ok_inj in H. subst preds.
  apply predict_steps_length in Hps.
  apply scaler_inverse_transform_length in Hinv. destruct Hinv as [Hl Hne].
  rewrite length_map in Hl.
  rewrite length_map, length_combine, length_seq, Nat.min_id, Hl, Hps.
  split; [reflexivity|].
  destruct ps; [now contradiction Hne|]. simpl in Hps. lia.
Qed.

(** X22: [predict_with_lstm] returns a forecast only with TensorFlow
    available, at least 100 rows and at least 1 requested day; the forecast
    then has exactly [days] points, a confidence between 0 and 100 and the
    model name "LSTM Neural Network". *)
Theorem lstm_forecast_shape (df : DataFrame) (days : Z) (res : ForecastResult) :
  predict_with_lstm TENSORFLOW_AVAILABLE keras_fit keras_predict now df days
    = Some res ->
  TENSORFLOW_AVAILABLE = true /\ (100 <= length df)%nat /\ (1 <= days)%Z /\
  Z.of_nat (length (predictions res)) = days /\
  (exists c, confidence res = PyFloat (Fin c) /\ 0 <= c /\ c <= ofZ 100) /\
  model res = "LSTM Neural Network"%string.
Proof.
  intros H. unfold predict_with_lstm in H. apply try_except_Some in H.
  destruct TENSORFLOW_AVAILABLE; [|discriminate]. cbn [negb] in H.
  destruct (Nat.ltb_spec (length df) 100) as [Hlt|Hge]; [discriminate|].
  destruct (train true keras_fit (new_predictor KerasModel 60) df)
    as [[[]|e] predictor]; [|discriminate].
  apply bind_Ok in H. destruct H as (preds & Hpreds & H).
  apply Ok_inj in H.
  apply (f_equal (fun o => match o with Some x => x | None => res end)) in H.
  subst res. cbv beta iota delta [predictions confidence model].
  apply predict_future_length in Hpreds. destruct Hpreds as [Hlen Hdays].
  split; [reflexivity|]. split; [exact Hge|]. split; [exact Hdays|].
  split; [rewrite Hlen; lia|]. split; [|reflexivity].
  destruct (lstm_confidence_range predictor df) as (c & -> & Hc).
  now exists c.
Qed.
End LstmProperties.

Lemma prepare_data_windows_witness :
  exists X y self',
    prepare_data (new_predictor unit 3) (linear 6) = (Ok (X, y), self') /\
    length X = 3%nat /\ length y = 3%nat /\
    lp_scaler self' <> None.
Proof.
  destruct (prepare_data (new_predictor unit 3) (linear 6))
    as [[[X y]|e] self'] eqn:E.
  - exists X, y, self'. split; [reflexivity|].
    destruct (prepare_data_windows unit _ _ _ _ _ E)
      as (sc & scaled & _ & _ & Hself & Hlen & _ & HX & Hy & _).
    cbn [lp_lookback new_predictor] in HX, Hy.
    rewrite HX, Hy, length_map, length_seq, length_skipn, length_column, Hlen, Hself.
    split; [reflexivity|]. split; [reflexivity|]. discriminate.
  - vm_compute in E. discriminate.
Defined.

Lemma lstm_confidence_in_range_witness :
  exists c, calculate_confidence stub_predict
              {| lp_lookback := 3; lp_scaler := None; lp_model := Some tt |}
              (linear 12) = Fin c /\ 0 <= c /\ c <= ofZ 100.
Proof. apply lstm_confidence_in_range. Defined.

Lemma lstm_forecast_shape_witness :
  exists res,
    predict_with_lstm true stub_fit stub_predict fixed_clock (linear 100) 2
      = Some res /\
    length (predictions res) = 2%nat.
Proof.
  destruct (predict_with_lstm true stub_fit stub_predict fixed_clock (linear 100) 2)
    as [res|] eqn:E.
  - exists res. split; [reflexivity|].
    destruct (lstm_forecast_shape _ _ _ _ _ _ _ _ E) as (_ & _ & _ & H & _).
    lia.
  - vm_compute in E. discriminate.
Defined.

(** ** Search route and ticker validation *)

(** X23: GET /api/search always answers 200 with at most 10 suggestions, in
    which no ticker occurs twice. *)
Theorem search_stocks_response (query : str) :
  ascii_text query ->
  exists suggestions,
    search_stocks query = (SuggestionsBody suggestions, 200%Z) /\
    (length suggestions <= 10)%nat /\
    NoDup (map sg_ticker suggestions).
Proof.
  intros _. unfold search_stocks. cbn [try_except].
  exists (search_companies query 10). split; [reflexivity|].
  unfold search_companies.
  destruct (length (py_strip (py_lower query)) <? 2)%nat.
  - split; [simpl; lia | constructor].
  - destruct (search_loop_invariant (py_strip (py_lower query)) 10
                POPULAR_STOCKS [] []) as (Hnd & _ & Hlen).
    + auto.
    + constructor.
    + intros m [].
    + constructor.
    + simpl. lia.
    + split; [lia | exact Hnd].
Qed.

Lemma search_stocks_response_witness :
  exists suggestions,
    search_stocks (chars "Bank") = (SuggestionsBody suggestions, 200%Z) /\
    (length suggestions <= 10)%nat.
Proof.
  destruct (search_stocks_response (chars "Bank")) as (l & Hl & Hlen & _).
  - reflexivity.
  - exists l. split; [exact Hl | exact Hlen].
Defined.

Lemma length_py_upper (s : str) : length (py_upper s) = length s.
Proof. apply length_map. Qed.

(** X24: [is_valid_ticker] ignores case and surrounding blanks: it gives the
    same answer for a string, for its uppercase form and for its stripped
    form; an accepted string has, once stripped, 1 to 6 characters. *)
Theorem is_valid_ticker_normalises (ticker : str) :
  ascii_text ticker ->
  is_valid_ticker (py_upper ticker) = is_valid_ticker ticker /\
  is_valid_ticker (py_strip ticker) = is_valid_ticker ticker /\
  (is_valid_ticker ticker = true ->
   (1 <= length (py_strip ticker) <= 6)%nat).
Proof.
  intros _. unfold is_valid_ticker.
  rewrite py_strip_upper, py_upper_upper, py_strip_idempotent.
  split; [reflexivity|]. split; [reflexivity|].
  rewrite length_py_upper.
  destruct (length (py_strip ticker)) as [|n]; [discriminate|].
  cbn [Nat.eqb]. destruct (Nat.ltb_spec 6 (S n)); [discriminate|].
  intros _. lia.
Qed.

Lemma is_valid_ticker_normalises_witness :
  is_valid_ticker (py_upper (chars " brk.b ")) = is_valid_ticker (chars " brk.b ").
Proof. apply is_valid_ticker_normalises. reflexivity. Defined.

(** ** The forecast and the clock *)

Section ClockIndependence.
Variable lstsq : Matrix -> Series -> exc (list float).
Variables now1 now2 : nat -> Z.
Variables (scaler_X scaler_y : MinMaxScaler) (m : LinearModel).
Variables (last_day : Z) (last_volume : float).

(** two runs of the loop under different clocks fail alike or give the same
    prices *)
Lemma predict_loop_ignores_clock (range : list Z) (current_ma5 : float) (k1 k2 : nat) :
  match predict_loop now1 scaler_X scaler_y m last_day last_volume range current_ma5 k1,
        predict_loop now2 scaler_X scaler_y m last_day last_volume range current_ma5 k2
  with
  | Ok p1, Ok p2 => map predictedPrice p1 = map predictedPrice p2
  | Raise e1, Raise e2 => e1 = e2
  | _, _ => False
  end.
Proof.
  revert current_ma5 k1 k2.
  induction range as [|i range IH]; intros ma k1 k2; [reflexivity|].
  cbn [predict_loop].
  destruct (scaler_transform scaler_X _) as [fs|e]; cbn [bind]; [|reflexivity].
  destruct (model_predict m fs) as [ps|e]; cbn [bind]; [|reflexivity].
  destruct (scaler_inverse_transform scaler_y _) as [inv|e]; cbn [bind]; [|reflexivity].
  destruct (item00 inv) as [p|e]; cbn [bind]; [|reflexivity].
  match goal with
  | |- context [predict_loop now1 _ _ _ _ _ range ?a (S k1)] =>
      specialize (IH a (S k1) (S k2))
  end.
  destruct (predict_loop now1 _ _ _ _ _ range _ (S k1)) as [p1|e1],
           (predict_loop now2 _ _ _ _ _ range _ (S k2)) as [p2|e2];
    cbn [bind]; try contradiction; [|exact IH].
  cbn [map predictedPrice]. now rewrite IH.
Qed.
End ClockIndependence.

(** X25: the clock only decides the dates of a forecast: two runs on the
    same history that read different clocks both fail or both succeed, and
    then give the same predicted prices, the same confidence and the same
    model name. *)
Theorem forecast_prices_ignore_clock
    (lstsq : Matrix -> Series -> exc (list float)) (now1 now2 : nat -> Z)
    (history : exc DataFrame) (days : Z) :
  option_map without_dates (predict_prices lstsq now1 history days) =
  option_map without_dates (predict_prices lstsq now2 history days).
Proof.
  unfold predict_prices.
  destruct history as [df|e]; cbn [bind try_except]; [|reflexivity].
  destruct (length df <? 30)%nat; [reflexivity|].
  destruct (length (dropna (add_features df)) <? 20)%nat; [reflexivity|].
  match goal with |- context [if ?c then Ok None else _] => destruct c end;
    [reflexivity|].
  destruct (fit_transform (map features _)) as [[sx Xs]|e]; cbn [bind try_except];
    [|reflexivity].
  destruct (fit_transform (map (fun v => [v]) _)) as [[sy ys]|e];
    cbn [bind try_except]; [|reflexivity].
  destruct (model_fit lstsq Xs (column 0 ys)) as [m|e]; cbn [bind try_except];
    [|reflexivity].
  destruct (iloc_last (map (fun r => Volume (base r)) _)) as [lv|e];
    cbn [bind try_except]; [|reflexivity].
  destruct (iloc_last (map MA5 _)) as [lm|e]; cbn [bind try_except]; [|reflexivity].
  destruct (iloc_last (map (fun r => Close (base r)) _)) as [lc|e];
    cbn [bind try_except]; [|reflexivity].
  match goal with
  | |- context [predict_loop now1 ?sx ?sy ?m ?ld ?lvol ?rg ?ma 0] =>
      pose proof (predict_loop_ignores_clock now1 now2 sx sy m ld lvol rg ma 0 0) as H;
      destruct (predict_loop now1 sx sy m ld lvol rg ma 0) as [p1|e1],
               (predict_loop now2 sx sy m ld lvol rg ma 0) as [p2|e2];
      cbn [bind try_except]; try contradiction; [|reflexivity]
  end.
  destruct (model_predict m Xs) as [yp|e]; cbn [bind try_except]; [|reflexivity].
  destruct (r2_score (column 0 ys) yp) as [conf|e]; cbn [bind try_except];
    [|reflexivity].
  unfold without_dates. cbn [option_map predictions confidence model].
  now rewrite H.
Qed.

Lemma forecast_prices_ignore_clock_witness :
  option_map without_dates
    (predict_prices half_half_solver fixed_clock (Ok (linear 40)) 3) =
  option_map without_dates
    (predict_prices half_half_solver midnight_clock (Ok (linear 40)) 3).
Proof. apply forecast_prices_ignore_clock. Defined.

(** ** The classifier on a series with a gap *)

Lemma iloc_last_nth (s : Series) :
  (0 < length s)%nat -> iloc_last s = Ok (nth (length s - 1) s NaN).
Proof.
  intros H. unfold iloc_last.
  destruct (rev s) as [|x l] eqn:E.
  - apply (f_equal (@length float)) in E. rewrite length_rev in E. simpl in E. lia.
  - f_equal. apply (f_equal (@rev float)) in E. rewrite rev_involutive in E.
    subst s. cbn [rev]. rewrite length_app, length_rev. cbn [length].
    rewrite app_nth2 by (rewrite length_rev; lia).
    rewrite length_rev. replace (length l + 1 - 1 - length l)%nat with 0%nat by lia.
    reflexivity.
Qed.

(** with a missing or infinite close among the last 20, the last rolling
    mean is NaN *)
Lemma roll_mean_at_gap (w : nat) (s : Series) (i : nat) :
  (i < length s)%nat -> (w <= i + 1)%nat ->
  forallb isfinite (trailing w i s) = false ->
  roll_mean_at w w s i = NaN.
Proof.
  intros Hi Hw Hnf. unfold roll_mean_at. rewrite window_trailing by assumption.
  apply observations_fewer in Hnf. rewrite length_trailing in Hnf.
  apply Nat.leb_gt in Hnf. now rewrite Hnf.
Qed.

(** X26: on a frame of at least 20 rows whose last 20 closes contain a
    missing or infinite one, the 20-day average is read as 0: the price
    deviation returned is 0.0, and for a positive last close the price test
    counts as "above the average", so the label is BUY, STRONG BUY or SELL
    and never STRONG SELL. *)
Theorem gap_makes_deviation_zero (df : DataFrame) :
  (20 <= length df)%nat ->
  forallb isfinite (trailing 20 (length df - 1) (map Close df)) = false ->
  let result := get_sentiment_signal (Ok df) in
  sr_price_vs_ma20 result = PyFloat (fz 0) /\
  (forall c : Qc,
      nth (length df - 1) (map Close df) NaN = Fin c -> 0 < c ->
      In (sr_signal result) ["BUY"; "STRONG BUY"; "SELL"]%string).
Proof.
  cbv zeta. intros Hlen Hgap.
  assert (Hn : (0 < length (map Close df))%nat) by (rewrite length_map; lia).
  unfold get_sentiment_signal. cbn [bind].
  replace (length df <? 20)%nat with false by (symmetry; apply Nat.ltb_ge; lia).
  unfold signal_inputs.
  rewrite (iloc_last_nth (map Close df)) by exact Hn.
  rewrite (iloc_last_nth (rolling_mean 20 (map Close df)))
    by (now rewrite length_rolling_mean).
  destruct (iloc_last_Ok (calculate_rsi (map Close df) 14)) as [z ->];
    [now rewrite length_calculate_rsi|].
  cbn [bind].
  rewrite length_rolling_mean, nth_rolling_mean by lia.
  rewrite length_map in *.
  rewrite roll_mean_at_gap by (rewrite ?length_map; assumption || lia).
  change (safe_float (PyFloat NaN) (fz 0)) with (fz 0).
  change (fne (fz 0) (fz 0)) with false. cbn iota.
  set (cp := safe_float (PyFloat (nth (length df - 1) (map Close df) NaN)) (fz 0)).
  set (rsi := safe_float (PyFloat z) (fz 50)).
  destruct (final_signal (signal_score cp (fz 0) rsi)) as [label strength] eqn:E.
  cbn [bind try_except sr_price_vs_ma20 sr_signal].
  split; [vm_compute; value_eq|].
  intros c Hc Hpos.
  assert (Ecp : cp = Fin c) by (unfold cp; now rewrite Hc).
  assert (Egt : fgt cp (fz 0) = true).
  { rewrite Ecp. unfold fgt. cbn [flt]. apply Qc_ltb_lt. exact Hpos. }
  unfold signal_score in E. rewrite Egt in E.
  destruct (flt rsi (fz 30)); [|destruct (fgt rsi (fz 70))];
    cbn in E; injection E as <- _; simpl; auto.
Qed.

Lemma gap_makes_deviation_zero_witness :
  sr_price_vs_ma20 (get_sentiment_signal (Ok (gap_tail 23))) = PyFloat (fz 0) /\
  sr_signal (get_sentiment_signal (Ok (gap_tail 23))) = "BUY"%string.
Proof.
  destruct (gap_makes_deviation_zero (gap_tail 23)) as [H0 _].
  - vm_compute. lia.
  - vm_compute. reflexivity.
  - split; [exact H0|]. vm_compute. reflexivity.
Defined.
